(** * Folder Organizer: the organization engine (class [FolderOrganizer])

    A shallow embedding of the decision/execution engine of
    [folder-organizer-appV1.py]: the filter pass ([apply_filters]), the
    destination resolver ([get_destination]), the file mover ([move_file]),
    the backup log ([create_backup_log]) and the two orchestrator loops
    ([generate_dry_run_report], [perform_organization]).

    Modelling conventions.
    - Python [str] is [string]; letter case is the ASCII one.
    - Time stamps (floats, seconds since the epoch) are integers [Z].
    - The file system is a finite map from path strings to nodes; a path is
      used as a key exactly as the program spells it.
    - A Python exception is the [Raise] outcome of a state-and-error monad;
      the state survives a raise, as the mutations made before it do.
    - An entry has the times the engine reads; a new entry gets the time
      of the clock, a renamed one is carried over unchanged.  The time
      updates that a rename or a removal causes on the way (change time
      of the file, times of the directories) are not tracked. *)

From Stdlib Require Import ZArith List Ascii String Bool Lia.
From Stdlib Require Import Permutation Sorted.
From stdpp Require Import base option gmap strings list fin_maps pretty.

Open Scope string_scope.
Open Scope Z_scope.

(** ** Strings, as [str] and [os.path] (posixpath) use them *)

Module Str.

Definition is_upper (c : ascii) : bool :=
  (65 <=? nat_of_ascii c)%nat && (nat_of_ascii c <=? 90)%nat.

(** [c.lower()] on one ASCII character *)
Definition lower_ascii (c : ascii) : ascii :=
  if is_upper c then ascii_of_nat (nat_of_ascii c + 32) else c.

(** [s.lower()] *)
Fixpoint lower (s : string) : string :=
  match s with
  | EmptyString => EmptyString
  | String c r => String (lower_ascii c) (lower r)
  end.

(** [s.startswith(p)] *)
Fixpoint startswith (p s : string) : bool :=
  match p, s with
  | EmptyString, _ => true
  | String a p', String b s' => if Ascii.eqb a b then startswith p' s' else false
  | String _ _, EmptyString => false
  end.

(** [sub in s] *)
Fixpoint contains (sub s : string) : bool :=
  startswith sub s ||
  match s with
  | EmptyString => false
  | String _ r => contains sub r
  end.

(** [s.endswith(c)] for a one-character [c] *)
Fixpoint endswith_char (c : ascii) (s : string) : bool :=
  match s with
  | EmptyString => false
  | String a EmptyString => Ascii.eqb a c
  | String _ r => endswith_char c r
  end.

(** the text before and after the last occurrence of [c]
    ([s[:i]] and [s[i+1:]] for [i = s.rfind(c)]), if there is one *)
Fixpoint rsplit (c : ascii) (s : string) : option (string * string) :=
  match s with
  | EmptyString => None
  | String a r =>
      match rsplit c r with
      | Some (h, t) => Some (String a h, t)
      | None => if Ascii.eqb a c then Some (EmptyString, r) else None
      end
  end.

(** [s == c * len(s)] *)
Fixpoint all_char (c : ascii) (s : string) : bool :=
  match s with
  | EmptyString => true
  | String a r => Ascii.eqb a c && all_char c r
  end.

(** [s.rstrip(c)] for a one-character [c] *)
Fixpoint rstrip (c : ascii) (s : string) : string :=
  match s with
  | EmptyString => EmptyString
  | String a r => if all_char c s then EmptyString else String a (rstrip c r)
  end.

(** [s.replace(old, new)]: every occurrence, left to right, not
    overlapping; [skip] counts the characters of a match still to drop *)
Fixpoint replace_from (old new : string) (skip : nat) (s : string) : string :=
  match s with
  | EmptyString => EmptyString
  | String c r =>
      match skip with
      | S k => replace_from old new k r
      | O =>
          if startswith old s
          then new ++ replace_from old new (String.length old - 1) r
          else String c (replace_from old new 0 r)
      end
  end.

Definition replace (old new s : string) : string :=
  match old with
  | EmptyString => s
  | _ => replace_from old new 0 s
  end.

End Str.

Module PosixPath.

Definition sep : ascii := "/"%char.
Definition extsep : ascii := "."%char.

(** [os.path.basename] *)
Definition basename (p : string) : string :=
  match Str.rsplit sep p with
  | Some (_, t) => t
  | None => p
  end.

(** [os.path.dirname] *)
Definition dirname (p : string) : string :=
  match Str.rsplit sep p with
  | Some (h, _) =>
      let head := h ++ "/" in
      if Str.all_char sep head then head else Str.rstrip sep head
  | None => EmptyString
  end.

(** [os.path.splitext]: the extension starts at the last dot of the last
    component, unless only dots come before it in that component *)
Definition splitext_name (b : string) : string * string :=
  match Str.rsplit extsep b with
  | Some (stem, e) =>
      if Str.all_char extsep stem then (b, EmptyString)
      else (stem, String extsep e)
  | None => (b, EmptyString)
  end.

Definition splitext (p : string) : string * string :=
  match Str.rsplit sep p with
  | Some (h, t) =>
      let '(stem, e) := splitext_name t in (h ++ "/" ++ stem, e)
  | None => splitext_name p
  end.

(** [os.path.join(a, b)] *)
Definition join (a b : string) : string :=
  if Str.startswith "/" b then b
  else if (String.eqb a EmptyString || Str.endswith_char sep a)%bool then a ++ b
  else a ++ "/" ++ b.

End PosixPath.

(** ** Data model (the dataclasses) *)

Record FolderRule := {
  rule_name : string;
  rule_enabled : bool;
  hierarchy_level : Z;
  folder_name : string;
  file_extensions : list string;
  is_time_based : bool;
  time_pattern : string;
  date_source : string;
  icon : string
}.

Record FilterAction := {
  filter_name : string;
  filter_enabled : bool;
  file_types : list string;
  name_contains : string;
  date_range_start : option string;
  date_range_end : option string;
  older_than_days : option Z;
  action_type : string;
  destination : string;
  rename_pattern : string;
  priority : Z
}.

Record AppSettings := {
  create_backup_log_enabled : bool;
  delete_duplicates : bool;
  exclude_organized_folders : bool;
  exclude_before_date : option string;
  exclude_folders : list string;
  exclude_files : list string;
  log_directory : string
}.

(** the attributes of a [FolderOrganizer] instance other than [self.log],
    which is part of the run state below *)
Record FolderOrganizer := {
  target_folder : string;
  folder_rules : list FolderRule;
  filter_actions : list FilterAction;
  settings : AppSettings;
  dry_run : bool
}.

(** Python truthiness of the optional criteria *)
Definition truthy_str (s : string) : bool := negb (String.eqb s "").
Definition truthy_list {A} (l : list A) : bool :=
  match l with [] => false | _ => true end.
Definition truthy_days (d : option Z) : bool :=
  match d with Some n => negb (n =? 0) | None => false end.
Definition truthy_opt_str (s : option string) : bool :=
  match s with Some x => truthy_str x | None => false end.

(** [x in l] for a list of strings *)
Definition str_in_list (x : string) (l : list string) : bool :=
  existsb (String.eqb x) l.

(** ** [sorted(..., key=...)]: a stable sort

    Python's [sorted] is stable, also with [reverse=True]: elements with
    equal keys keep their original relative order.  Any stable sort returns
    the same list, so insertion from the right models it. *)

Section StableSort.
Context {A : Type} (key : A -> Z).

(** ascending: [x], which comes from the left of everything in [l], goes
    before the first element whose key is not smaller *)
Fixpoint insert_asc (x : A) (l : list A) : list A :=
  match l with
  | [] => [x]
  | y :: l' => if key y <? key x then y :: insert_asc x l' else x :: l
  end.

Definition sorted_asc (l : list A) : list A := foldr insert_asc [] l.

(** descending ([reverse=True]) *)
Fixpoint insert_desc (x : A) (l : list A) : list A :=
  match l with
  | [] => [x]
  | y :: l' => if key x <? key y then y :: insert_desc x l' else x :: l
  end.

Definition sorted_desc (l : list A) : list A := foldr insert_desc [] l.

(** the order of a list sorted with [reverse=True] *)
Definition desc (a b : A) : Prop := key b <= key a.
End StableSort.

(** ** The file system *)

Record meta := { mtime : Z; ctime : Z; atime : Z }.

(** what a regular file holds: the engine only ever writes backup logs *)
Inductive content :=
| Opaque (tag : string)
| BackupData (timestamp : string) (target : string) (operations : list string).

Inductive node :=
| File (m : meta) (c : content)
| Dir (m : meta).

Definition node_meta (n : node) : meta :=
  match n with File m _ => m | Dir m => m end.

Abbreviation FS := (gmap string node).

Inductive exn :=
| FileNotFoundError (p : string)
| IsADirectoryError (p : string)
| NotADirectoryError (p : string)
| FileExistsError (p : string)
| ShutilError (p : string)
| ValueError (msg : string)
| ModelLimit (what : string).

(** [str(e)] *)
Definition exn_str (e : exn) : string :=
  match e with
  | FileNotFoundError p => "[Errno 2] No such file or directory: '" ++ p ++ "'"
  | IsADirectoryError p => "[Errno 21] Is a directory: '" ++ p ++ "'"
  | NotADirectoryError p => "[Errno 20] Not a directory: '" ++ p ++ "'"
  | FileExistsError p => "[Errno 17] File exists: '" ++ p ++ "'"
  | ShutilError p => "Destination path '" ++ p ++ "' already exists"
  | ValueError msg => msg
  | ModelLimit what => what
  end.

(** the run state: the disk and [self.log] *)
Record state := { fs : FS; log : list string }.

Inductive result (A : Type) :=
| Ok (a : A)
| Raise (e : exn).
Arguments Ok {A} a.
Arguments Raise {A} e.

Definition M (A : Type) : Type := state -> result A * state.

Definition ret {A} (a : A) : M A := fun s => (Ok a, s).
Definition raise {A} (e : exn) : M A := fun s => (Raise e, s).
Definition bind {A B} (m : M A) (k : A -> M B) : M B :=
  fun s => match m s with
           | (Ok a, s') => k a s'
           | (Raise e, s') => (Raise e, s')
           end.
(** [try: m  except Exception as e: h e] *)
Definition try_except {A} (m : M A) (h : exn -> M A) : M A :=
  fun s => match m s with
           | (Ok a, s') => (Ok a, s')
           | (Raise e, s') => h e s'
           end.
Definition get_fs : M FS := fun s => (Ok (fs s), s).
Definition put_fs (f : FS) : M unit := fun s => (Ok tt, {| fs := f; log := log s |}).
Definition get_log : M (list string) := fun s => (Ok (log s), s).
(** [self.log.append(line)] *)
Definition log_append (line : string) : M unit :=
  fun s => (Ok tt, {| fs := fs s; log := log s ++ [line] |}).

Notation "'let!' x ':=' m 'in' k" := (bind m (fun x => k))
  (at level 10, x name, m at level 100, k at level 200, only parsing).
Notation "'run!' m 'in' k" := (bind m (fun _ => k))
  (at level 10, m at level 100, k at level 200, only parsing).

(** ** The [os], [os.path] and [shutil] calls the engine makes *)

Module OS.

(** a path of slashes only names the root, which is always there *)
Definition is_root (p : string) : bool :=
  negb (String.eqb p "") && Str.all_char PosixPath.sep p.

Definition isdir (f : FS) (p : string) : bool :=
  match f !! p with
  | Some (Dir _) => true
  | Some (File _ _) => false
  | None => is_root p
  end.

(** [os.path.exists] *)
Definition path_exists (f : FS) (p : string) : bool :=
  match f !! p with
  | Some _ => true
  | None => is_root p
  end.

(** the directory an entry [p] is created in is there *)
Definition parent_isdir (f : FS) (p : string) : bool :=
  let d := PosixPath.dirname p in
  String.eqb d "" || isdir f d.

(** the error of creating an entry at [p] whose parent is not a directory *)
Definition parent_error (f : FS) (p : string) : exn :=
  if path_exists f (PosixPath.dirname p)
  then NotADirectoryError p else FileNotFoundError p.

Definition exists_ (p : string) : M bool :=
  let! f := get_fs in ret (path_exists f p).

(** [os.path.getmtime], [getctime], [getatime]: a [stat] of the path *)
Definition stat (p : string) : M meta :=
  let! f := get_fs in
  match f !! p with
  | Some n => ret (node_meta n)
  | None => raise (FileNotFoundError p)
  end.
Definition getmtime (p : string) : M Z := let! m := stat p in ret (mtime m).
Definition getctime (p : string) : M Z := let! m := stat p in ret (ctime m).
Definition getatime (p : string) : M Z := let! m := stat p in ret (atime m).

(** [os.remove] *)
Definition remove (p : string) : M unit :=
  let! f := get_fs in
  match f !! p with
  | Some (File _ _) => put_fs (delete p f)
  | Some (Dir _) => raise (IsADirectoryError p)
  | None => raise (FileNotFoundError p)
  end.

(** [os.rename] of a regular file: an existing file at [dst] is replaced.
    The entry is carried over as it is.  The times a rename sets on the
    way (the change time of the file, the modification and change times
    of the two directories) are not tracked, and an error names the one
    path at fault, where [os.rename] itself prints source and
    destination; statements about moves are about paths, kinds and
    contents. *)
Definition rename (src dst : string) : M unit :=
  let! f := get_fs in
  match f !! src with
  | None => raise (FileNotFoundError src)
  | Some (Dir _) => raise (ModelLimit "rename of a directory")
  | Some (File m c) =>
      if String.eqb src dst then ret tt
      else if negb (parent_isdir f dst) then raise (parent_error f dst)
      else match f !! dst with
           | Some (Dir _) => raise (IsADirectoryError dst)
           | _ => put_fs (<[dst := File m c]> (delete src f))
           end
  end.

(** [shutil.move] of a regular file; when the rename fails the copy that
    [shutil] falls back to fails for the same reason *)
Definition move (src dst : string) : M unit :=
  let! f := get_fs in
  if isdir f dst then
    let real_dst := PosixPath.join dst (PosixPath.basename src) in
    if path_exists f real_dst then raise (ShutilError real_dst)
    else rename src real_dst
  else rename src dst.

(** [os.mkdir] *)
Definition mkdir (now : Z) (p : string) : M unit :=
  let! f := get_fs in
  if path_exists f p then raise (FileExistsError p)
  else if negb (parent_isdir f p) then raise (parent_error f p)
  else put_fs (<[p := Dir {| mtime := now; ctime := now; atime := now |}]> f).

(** [os.makedirs(name, exist_ok=True)]; every recursive call is on a
    shorter path, [fuel] bounds their number *)
Fixpoint makedirs_go (fuel : nat) (now : Z) (name : string) : M unit :=
  match fuel with
  | O => raise (ModelLimit "makedirs")
  | S n =>
      let h0 := PosixPath.dirname name in
      let t0 := PosixPath.basename name in
      let '(head, tail) :=
        if String.eqb t0 "" then (PosixPath.dirname h0, PosixPath.basename h0)
        else (h0, t0) in
      let! f := get_fs in
      let missing := truthy_str head && truthy_str tail && negb (path_exists f head) in
      run! (if missing
            then try_except (makedirs_go n now head)
                   (fun e => match e with
                             | FileExistsError _ => ret tt
                             | _ => raise e
                             end)
            else ret tt) in
      if missing && String.eqb tail "."
      then ret tt                                   (* [xxx/newdir/.] *)
      else
        try_except (mkdir now name)
          (fun e => let! f' := get_fs in
                    if isdir f' name then ret tt else raise e)
  end.

Definition makedirs (now : Z) (name : string) : M unit :=
  makedirs_go (S (String.length name)) now name.

(** [with open(p, 'w') as f: json.dump(data, f)] *)
Definition write_file (now : Z) (p : string) (c : content) : M unit :=
  let! f := get_fs in
  match f !! p with
  | Some (Dir _) => raise (IsADirectoryError p)
  | Some (File m _) =>
      put_fs (<[p := File {| mtime := now; ctime := now; atime := atime m |} c]> f)
  | None =>
      if is_root p then raise (IsADirectoryError p)
      else if negb (parent_isdir f p) then raise (parent_error f p)
      else put_fs (<[p := File {| mtime := now; ctime := now; atime := now |} c]> f)
  end.

End OS.

Definition meta0 (t : Z) : meta := {| mtime := t; ctime := t; atime := t |}.

(** [for x in l: acc = body acc x], with exceptions *)
Fixpoint foldM {A T} (body : T -> A -> M T) (l : list A) (acc : T) : M T :=
  match l with
  | [] => ret acc
  | x :: l' => let! acc' := body acc x in foldM body l' acc'
  end.

Definition nl : string := String (ascii_of_nat 10) EmptyString.

(** [str(n)] *)
Definition str_nat (n : nat) : string := pretty n.

(** ["=" * n] *)
Fixpoint repeat_str (s : string) (n : nat) : string :=
  match n with O => EmptyString | S k => s ++ repeat_str s k end.

(** the [strftime] formats the engine uses *)
Inductive fmt :=
| Fmt_b          (* "%b" *)
| Fmt_Y_m        (* "%Y-%m" *)
| Fmt_Week_W_Y   (* "Week_%W_%Y" *)
| Fmt_Y_m_d      (* "%Y-%m-%d" *)
| Fmt_Y          (* "%Y" *)
| Fmt_stamp.     (* "%Y%m%d_%H%M%S" *)

(** the [if]/[elif] chain on [rule.time_pattern] in [get_destination] *)
Definition time_format (pattern : string) : fmt :=
  if String.eqb pattern "MMM" then Fmt_b
  else if String.eqb pattern "YYYY-MM" then Fmt_Y_m
  else if String.eqb pattern "Weekly" then Fmt_Week_W_Y
  else if String.eqb pattern "Daily" then Fmt_Y_m_d
  else Fmt_Y.

(** ** The engine *)

Section Engine.

(** What the platform supplies: the clock ([datetime.now()], taken once
    for a run), the rendering of a time stamp in local time
    ([datetime.fromtimestamp(t).strftime(f)]), the parsing of a
    ["%Y-%m-%d"] date to the time stamp of its midnight
    ([datetime.strptime], [None] for a [ValueError]) and the listing of a
    directory as [os.walk] splits it (sub-directory names, other names). *)
Variable now : Z.
Variable strftime : Z -> fmt -> string.
Variable strptime_date : string -> option Z.
Variable scandir : FS -> string -> list string * list string.

Variable self : FolderOrganizer.

(** [os.path.splitext(filename)[1].lower()] *)
Definition file_ext_of (filename : string) : string :=
  Str.lower (snd (PosixPath.splitext filename)).

(** *** [is_excluded] *)
Definition is_excluded (filename : string) : M bool :=
  if existsb (fun pattern => Str.contains pattern filename)
       (exclude_files (settings self))
  then ret true
  else
    match exclude_before_date (settings self) with
    | Some d =>
        if truthy_str d then
          try_except
            (match strptime_date d with
             | None => raise (ValueError d)
             | Some exclude_date =>
                 let! file_date := OS.getmtime filename in
                 ret (file_date <? exclude_date)
             end)
            (fun _ => ret false)
        else ret false
    | None => ret false
    end.

(** *** [apply_filters] *)

(** the three condition checks on one filter; the age is only looked up
    when the earlier checks passed and a threshold is set *)
Definition filter_matches (filter_action : FilterAction)
    (file_path filename file_ext : string) : M bool :=
  let matches1 :=
    if truthy_list (file_types filter_action)
    then str_in_list file_ext (file_types filter_action)
    else true in
  let matches2 :=
    if matches1 && truthy_str (name_contains filter_action)
    then Str.contains (Str.lower (name_contains filter_action)) (Str.lower filename)
    else matches1 in
  if matches2 && truthy_days (older_than_days filter_action)
  then
    let! m := OS.getmtime file_path in
    let file_age := (now - m) / 86400 in
    ret (negb (file_age <? default 0 (older_than_days filter_action)))
  else ret matches2.

Definition new_path_of (filter_action : FilterAction)
    (file_path filename file_ext : string) : string :=
  let new_name :=
    Str.replace "{original}" (fst (PosixPath.splitext filename))
      (rename_pattern filter_action) in
  PosixPath.join (PosixPath.dirname file_path) (new_name ++ file_ext).

(** the [for] loop over [sorted_filters]; [None] is Python's [None] *)
Fixpoint apply_filters_loop (sorted_filters : list FilterAction)
    (file_path filename file_ext : string) : M (option string) :=
  match sorted_filters with
  | [] => ret None
  | filter_action :: rest =>
      if negb (filter_enabled filter_action)
      then apply_filters_loop rest file_path filename file_ext
      else
        let! matches := filter_matches filter_action file_path filename file_ext in
        if matches then
          if String.eqb (action_type filter_action) "delete" then ret (Some "DELETE")
          else if String.eqb (action_type filter_action) "exclude" then ret (Some "EXCLUDE")
          else if str_in_list (action_type filter_action) ["move"; "move_external"]
          then ret (Some (destination filter_action))
          else if String.eqb (action_type filter_action) "rename" then
            run! (if negb (dry_run self)
                  then OS.rename file_path
                         (new_path_of filter_action file_path filename file_ext)
                  else ret tt) in
            ret None
          else apply_filters_loop rest file_path filename file_ext
        else apply_filters_loop rest file_path filename file_ext
  end.

Definition apply_filters (file_path : string) : M (option string) :=
  let filename := PosixPath.basename file_path in
  let file_ext := file_ext_of filename in
  let sorted_filters := sorted_desc priority (filter_actions self) in
  apply_filters_loop sorted_filters file_path filename file_ext.

(** *** [get_file_date] and [get_destination] *)
Definition get_file_date (file_path date_source : string) : M Z :=
  if String.eqb date_source "created" then OS.getctime file_path
  else if String.eqb date_source "accessed" then OS.getatime file_path
  else OS.getmtime file_path.

(** the inner [for rule in level_rules] loop, left at the first [break] *)
Fixpoint level_loop (level_rules : list FolderRule)
    (file_path file_ext dest_path : string) : M string :=
  match level_rules with
  | [] => ret dest_path
  | rule :: rest =>
      if is_time_based rule then
        let! t := get_file_date file_path (date_source rule) in
        let folder := strftime t (time_format (time_pattern rule)) in
        ret (PosixPath.join dest_path folder)
      else if str_in_list file_ext (file_extensions rule)
      then ret (PosixPath.join dest_path (folder_name rule))
      else level_loop rest file_path file_ext dest_path
  end.

Definition rules_at (level : Z) (sorted_rules : list FolderRule) : list FolderRule :=
  List.filter (fun r => (hierarchy_level r =? level) && rule_enabled r) sorted_rules.

(** [range(1, 6)] *)
Definition levels : list Z := [1; 2; 3; 4; 5].

Definition get_destination (file_path : string) : M (option string) :=
  let filename := PosixPath.basename file_path in
  let file_ext := file_ext_of filename in
  let sorted_rules := sorted_asc hierarchy_level (folder_rules self) in
  let! dest_path :=
    foldM (fun dest_path level =>
             level_loop (rules_at level sorted_rules) file_path file_ext dest_path)
          levels (target_folder self) in
  ret (if String.eqb dest_path (target_folder self) then None else Some dest_path).

(** *** [move_file] *)

(** the [while os.path.exists(dest_path)] loop; the candidates are
    pairwise different, so more rounds than the disk has entries are
    never needed *)
Fixpoint free_name (fuel : nat) (dest_dir base ext : string)
    (counter : nat) (dest_path : string) : M string :=
  match fuel with
  | O => raise (ModelLimit "free_name")
  | S n =>
      let! ex := OS.exists_ dest_path in
      if ex then
        free_name n dest_dir base ext (S counter)
          (PosixPath.join dest_dir (base ++ "_" ++ str_nat counter ++ ext))
      else ret dest_path
  end.

Definition move_file (src dest_dir : string) : M unit :=
  let filename := PosixPath.basename src in
  let dest_path := PosixPath.join dest_dir filename in
  let! ex := OS.exists_ dest_path in
  let! target :=
    if ex then
      if delete_duplicates (settings self) then
        let! ms := OS.getmtime src in
        let! md := OS.getmtime dest_path in
        if md <? ms
        then run! OS.remove dest_path in ret (Some dest_path)
        else run! OS.remove src in ret None          (* [return] *)
      else
        let '(base, ext) := PosixPath.splitext filename in
        let! f := get_fs in
        let! p := free_name (S (S (size f))) dest_dir base ext 1 dest_path in
        ret (Some p)
    else ret (Some dest_path) in
  match target with
  | None => ret tt
  | Some dest_path' =>
      run! OS.move src dest_path' in
      log_append ("Moved: " ++ src ++ " → " ++ dest_path')
  end.

(** *** [create_backup_log] *)
Definition create_backup_log : M unit :=
  let log_dir := log_directory (settings self) in
  run! OS.makedirs now log_dir in
  let timestamp := strftime now Fmt_stamp in
  let log_file := PosixPath.join log_dir ("backup_" ++ timestamp ++ ".json") in
  let! operations := get_log in
  OS.write_file now log_file (BackupData timestamp (target_folder self) operations).

(** *** [os.walk], consumed by a loop body

    The walk is lazy: a directory is listed when the loop reaches it, so
    the listing sees what the body did before.  [body] is the body of
    the [for root, dirs, files in os.walk(...)] loop; [fuel] bounds the
    depth of the tree. *)
Fixpoint os_walk {T} (fuel : nat) (top : string)
    (body : string -> list string -> T -> M T) (acc : T) : M T :=
  match fuel with
  | O => raise (ModelLimit "os.walk")
  | S n =>
      let! f := get_fs in
      if negb (OS.isdir f top) then ret acc      (* the listing error is ignored *)
      else
        let '(dirs, files) := scandir f top in
        let! acc' := body top files acc in
        foldM (fun a d => os_walk n (PosixPath.join top d) body a) dirs acc'
  end.

(** the test that skips the files of an already organized folder *)
Definition in_organized_folder (root : string) : bool :=
  exclude_organized_folders (settings self) &&
  existsb (fun rule => Str.contains (folder_name rule) root)
    (List.filter (fun rule => negb (is_time_based rule)) (folder_rules self)).

(** *** [generate_dry_run_report] *)
Record dry_tally := {
  files_to_move : list (string * string);
  folders_to_create : gset string
}.

Definition dry_file (root : string) (acc : dry_tally) (file : string) : M dry_tally :=
  let file_path := PosixPath.join root file in
  let! excluded := is_excluded file in
  if excluded then ret acc
  else
    let! filter_result := apply_filters file_path in
    if truthy_opt_str filter_result then
      ret {| files_to_move := files_to_move acc ++ [(file_path, default "" filter_result)];
             folders_to_create := folders_to_create acc |}
    else
      let! dest := get_destination file_path in
      if truthy_opt_str dest && negb (String.eqb (default "" dest) root) then
        ret {| files_to_move := files_to_move acc ++ [(file_path, default "" dest)];
               folders_to_create := folders_to_create acc ∪ {[ default "" dest ]} |}
      else ret acc.

Definition dry_body (root : string) (files : list string) (acc : dry_tally)
    : M dry_tally :=
  if in_organized_folder root then ret acc
  else foldM (dry_file root) files acc.

Definition dry_scan (fuel : nat) : M dry_tally :=
  os_walk fuel (target_folder self) dry_body
    {| files_to_move := []; folders_to_create := ∅ |}.

Definition sample_line (m : string * string) : string :=
  "  " ++ PosixPath.basename (fst m) ++ " → " ++ snd m ++ nl.

Definition dry_report (t : dry_tally) : string :=
  "DRY RUN REPORT" ++ nl ++ repeat_str "=" 50 ++ nl ++ nl
  ++ "Target folder: " ++ target_folder self ++ nl ++ nl
  ++ "Files to move: " ++ str_nat (length (files_to_move t)) ++ nl
  ++ "Folders to create: " ++ str_nat (size (folders_to_create t)) ++ nl ++ nl
  ++ (if truthy_list (files_to_move t)
      then "Sample moves (first 10):" ++ nl
           ++ String.concat "" (map sample_line (take 10 (files_to_move t)))
      else "").

Definition generate_dry_run_report (fuel : nat) : M string :=
  let! t := dry_scan fuel in ret (dry_report t).

(** *** [perform_organization] *)
Record apply_tally := {
  moved_count : nat;
  created_folders : gset string;
  errors : list string
}.

Definition count_move (t : apply_tally) : apply_tally :=
  {| moved_count := S (moved_count t);
     created_folders := created_folders t;
     errors := errors t |}.

Definition add_folder (dest : string) (t : apply_tally) : apply_tally :=
  {| moved_count := moved_count t;
     created_folders := created_folders t ∪ {[ dest ]};
     errors := errors t |}.

(** the [except Exception as e] clause *)
Definition record_error (file : string) (t : apply_tally) (e : exn) : M apply_tally :=
  ret {| moved_count := moved_count t;
         created_folders := created_folders t;
         errors := errors t ++ ["Error moving " ++ file ++ ": " ++ exn_str e] |}.

(** The body of the [try].  The tally is a local variable: what was added
    to it before an exception stays, which is why the part after
    [created_folders.add(dest)] has a handler of its own here, holding
    the updated tally. *)
Definition apply_file (root : string) (acc : apply_tally) (file : string)
    : M apply_tally :=
  let file_path := PosixPath.join root file in
  let! excluded := is_excluded file in
  if excluded then ret acc
  else
    try_except
      (let! filter_result := apply_filters file_path in
       if truthy_opt_str filter_result then
         let r := default "" filter_result in
         if String.eqb r "DELETE" then
           run! OS.remove file_path in
           run! log_append ("Deleted: " ++ file_path) in
           ret acc
         else if negb (String.eqb r "EXCLUDE") then
           run! move_file file_path r in
           ret (count_move acc)
         else ret acc
       else
         let! dest := get_destination file_path in
         if truthy_opt_str dest && negb (String.eqb (default "" dest) root) then
           let d := default "" dest in
           let! ex := OS.exists_ d in
           let! acc' :=
             if negb ex
             then run! OS.makedirs now d in ret (add_folder d acc)
             else ret acc in
           try_except
             (run! move_file file_path d in ret (count_move acc'))
             (record_error file acc')
         else ret acc)
      (record_error file acc).

Definition apply_body (root : string) (files : list string) (acc : apply_tally)
    : M apply_tally :=
  if in_organized_folder root then ret acc
  else foldM (apply_file root) files acc.

Definition apply_report (t : apply_tally) : string :=
  "ORGANIZATION COMPLETE" ++ nl ++ repeat_str "=" 50 ++ nl ++ nl
  ++ "Files moved: " ++ str_nat (moved_count t) ++ nl
  ++ "Folders created: " ++ str_nat (size (created_folders t)) ++ nl
  ++ "Errors: " ++ str_nat (length (errors t)) ++ nl ++ nl
  ++ (if truthy_list (errors t)
      then "Errors encountered:" ++ nl
           ++ String.concat "" (map (fun e => "  " ++ e ++ nl) (take 10 (errors t)))
      else "").

Definition apply_scan (fuel : nat) : M apply_tally :=
  run! (if create_backup_log_enabled (settings self)
        then create_backup_log else ret tt) in
  os_walk fuel (target_folder self) apply_body
    {| moved_count := 0; created_folders := ∅; errors := [] |}.

Definition perform_organization (fuel : nat) : M string :=
  let! t := apply_scan fuel in ret (apply_report t).

(** *** [organize] *)
Definition organize (fuel : nat) : M string :=
  if dry_run self then generate_dry_run_report fuel
  else perform_organization fuel.

End Engine.

(** a listing read off the map: the entries whose parent is [top] *)
Definition scandir_fs (f : FS) (top : string) : list string * list string :=
  let children :=
    List.filter (fun kv => String.eqb (PosixPath.dirname (fst kv)) top
                           && negb (String.eqb (fst kv) top))
      (map_to_list f) in
  (map (fun kv => PosixPath.basename (fst kv))
     (List.filter (fun kv => match snd kv with Dir _ => true | _ => false end) children),
   map (fun kv => PosixPath.basename (fst kv))
     (List.filter (fun kv => match snd kv with File _ _ => true | _ => false end) children)).

(** ** A concrete platform for the examples

    Every time stamp of the examples falls on 2024-03-15, a Friday of the
    week numbered 11 by [%W]. *)
Definition strftime_demo (t : Z) (f : fmt) : string :=
  match f with
  | Fmt_b => "Mar"
  | Fmt_Y_m => "2024-03"
  | Fmt_Week_W_Y => "Week_11_2024"
  | Fmt_Y_m_d => "2024-03-15"
  | Fmt_Y => "2024"
  | Fmt_stamp => "20240315_120000"
  end.

Definition strptime_demo (d : string) : option Z :=
  if String.eqb d "2024-03-01" then Some 1709251200 else None.

Definition now_demo : Z := 1710504000.

Definition default_settings : AppSettings := {|
  create_backup_log_enabled := true;
  delete_duplicates := false;
  exclude_organized_folders := true;
  exclude_before_date := None;
  exclude_folders := ["node_modules"; ".git"; ".vscode"; "__pycache__"];
  exclude_files := ["desktop.ini"; "Thumbs.db"; ".DS_Store"];
  log_directory := "/home/u/Documents/FolderOrganizerLogs"
|}.

Definition time_rule (level : Z) (pattern : string) : FolderRule := {|
  rule_name := "Time-Based Organization"; rule_enabled := true;
  hierarchy_level := level; folder_name := ""; file_extensions := [];
  is_time_based := true; time_pattern := pattern; date_source := "modified";
  icon := ""
|}.

Definition ext_rule (level : Z) (folder : string) (exts : list string) : FolderRule := {|
  rule_name := folder; rule_enabled := true;
  hierarchy_level := level; folder_name := folder; file_extensions := exts;
  is_time_based := false; time_pattern := "MMM"; date_source := "modified";
  icon := ""
|}.

Definition mk_filter (types : list string) (contains : string) (days : option Z)
    (action dest pattern : string) (prio : Z) : FilterAction := {|
  filter_name := action; filter_enabled := true; file_types := types;
  name_contains := contains; date_range_start := None; date_range_end := None;
  older_than_days := days; action_type := action; destination := dest;
  rename_pattern := pattern; priority := prio
|}.

Definition plain (t : Z) : node := File (meta0 t) (Opaque "").

(** * Specification-level notions *)

(** ** The filter pass *)

(** The criteria in the words of the specification: each of the three is
    vacuously true when absent (an empty list, an empty string, no or a
    zero threshold), and all must hold. *)
Definition criteria_match (now m : Z) (filename : string) (f : FilterAction) : bool :=
  (negb (truthy_list (file_types f))
   || str_in_list (file_ext_of filename) (file_types f))
  && (negb (truthy_str (name_contains f))
      || Str.contains (Str.lower (name_contains f)) (Str.lower filename))
  && (negb (truthy_days (older_than_days f))
      || (default 0 (older_than_days f) <=? (now - m) / 86400)).

Definition applies (now m : Z) (filename : string) (f : FilterAction) : bool :=
  filter_enabled f && criteria_match now m filename f.

(** the five action kinds of the data model; the [if]/[elif] chain of
    [apply_filters] has no branch for any other string *)
Definition known_action (f : FilterAction) : Prop :=
  In (action_type f) ["delete"; "exclude"; "move"; "move_external"; "rename"].

(** what the filter that speaks makes the pass do and return: the
    directive semantics of the specification *)
Definition directive (self : FolderOrganizer) (f : FilterAction)
    (file_path : string) : M (option string) :=
  if String.eqb (action_type f) "delete" then ret (Some "DELETE")
  else if String.eqb (action_type f) "exclude" then ret (Some "EXCLUDE")
  else if String.eqb (action_type f) "move" || String.eqb (action_type f) "move_external"
  then ret (Some (destination f))
  else
    run! (if dry_run self then ret tt
          else OS.rename file_path
                 (new_path_of f file_path (PosixPath.basename file_path)
                    (file_ext_of (PosixPath.basename file_path)))) in
    ret None.

(** [f] wins in [l1 ++ f :: l2]: no filter that applies has a higher
    priority, and none of the same priority is declared earlier *)
Definition wins (ap : FilterAction -> bool) (l1 : list FilterAction)
    (f : FilterAction) (l2 : list FilterAction) : Prop :=
  ap f = true
  /\ (forall g, In g l1 -> ap g = true -> priority g < priority f)
  /\ (forall g, In g l2 -> ap g = true -> priority g <= priority f).

(** ** The destination resolver *)

(** The resolver in the words of the specification: at a level the first
    enabled rule that matches speaks (a time-based rule always matches, a
    regular one when the extension is in its set) and gives one segment. *)
Definition rule_matches (file_ext : string) (r : FolderRule) : bool :=
  is_time_based r || str_in_list file_ext (file_extensions r).

Definition date_of (m : meta) (date_source : string) : Z :=
  if String.eqb date_source "created" then ctime m
  else if String.eqb date_source "accessed" then atime m
  else mtime m.

Definition segment_of (strftime : Z -> fmt -> string) (m : meta) (r : FolderRule)
    : string :=
  if is_time_based r
  then strftime (date_of m (date_source r)) (time_format (time_pattern r))
  else folder_name r.

Definition level_segment (strftime : Z -> fmt -> string) (m : meta)
    (file_ext : string) (rules : list FolderRule) (level : Z) : option string :=
  option_map (segment_of strftime m)
    (List.find (fun r => (hierarchy_level r =? level) && rule_enabled r
                         && rule_matches file_ext r) rules).

(** the segments of the levels 1 to 5 that have one, in level order *)
Definition segments (strftime : Z -> fmt -> string) (m : meta)
    (file_ext : string) (rules : list FolderRule) : list string :=
  omap (level_segment strftime m file_ext rules) levels.

(** a folder name that is one relative path component or more *)
Definition proper_segment (seg : string) : Prop :=
  seg <> "" /\ Str.startswith "/" seg = false.

(** ** The file mover *)

(** the [counter]-th name the numbering loop of [move_file] tries *)
Definition candidate (dest_dir base ext : string) (counter : nat) : string :=
  PosixPath.join dest_dir (base ++ "_" ++ str_nat counter ++ ext).

(** ** Frames *)

(** a computation that leaves the disk and the log as they are *)
Definition read_only {A} (m : M A) : Prop := forall s, snd (m s) = s.

(** a computation that leaves the operation log as it is *)
Definition keeps_log {A} (m : M A) : Prop := forall s, log (snd (m s)) = log s.

(** the same organizer with an empty filter list *)
Definition without_filters (self : FolderOrganizer) : FolderOrganizer :=
  {| target_folder := target_folder self;
     folder_rules := folder_rules self;
     filter_actions := [];
     settings := settings self;
     dry_run := dry_run self |}.

(** ** Scenarios *)

Definition mk_organizer (rules : list FolderRule) (filters : list FilterAction)
    (backup dedup dry : bool) : FolderOrganizer := {|
  target_folder := "/t";
  folder_rules := rules;
  filter_actions := filters;
  settings := {|
    create_backup_log_enabled := backup;
    delete_duplicates := dedup;
    exclude_organized_folders := true;
    exclude_before_date := None;
    exclude_folders := exclude_folders default_settings;
    exclude_files := exclude_files default_settings;
    log_directory := "/logs" |};
  dry_run := dry
|}.

Definition mk_state (entries : list (string * node)) : state :=
  {| fs := list_to_map (("/", Dir (meta0 0)) :: ("/t", Dir (meta0 0)) :: entries);
     log := [] |}.

Definition file_of (t : Z) (tag : string) : node := File (meta0 t) (Opaque tag).

(** two filters of equal priority that both match, and a disabled one of
    higher priority *)
Definition tie_filters : list FilterAction :=
  [ mk_filter [".tmp"] "" None "move" "/archive" "" 5;
    mk_filter [] "A" None "delete" "" "" 5;
    {| filter_name := "off"; filter_enabled := false; file_types := [];
       name_contains := ""; date_range_start := None; date_range_end := None;
       older_than_days := None; action_type := "exclude"; destination := "";
       rename_pattern := ""; priority := 9 |} ].

Definition tie_organizer : FolderOrganizer := mk_organizer [] tie_filters false false false.
Definition tie_state : state := mk_state [("/t/a.tmp", file_of 5 "a")].

(** the default layout: months outside, kinds inside *)
Definition nested_organizer (dry : bool) : FolderOrganizer :=
  mk_organizer
    [ time_rule 1 "MMM"; ext_rule 2 "Images" [".png"; ".jpg"];
      ext_rule 2 "Documents" [".pdf"; ".txt"]; ext_rule 1 "Exe" [".exe"] ]
    [ mk_filter [".tmp"] "" (Some 30) "delete" "" "" 0 ]
    true false dry.
Definition nested_state : state :=
  mk_state [("/t/report.pdf", file_of 1710000000 "r");
            ("/t/old.tmp", file_of 1700000000 "o");
            ("/t/sub", Dir (meta0 0));
            ("/t/sub/x.PNG", file_of 5 "x")].

(** a rename filter in front of an extension rule *)
Definition rename_organizer : FolderOrganizer :=
  mk_organizer [ ext_rule 1 "Documents" [".txt"] ]
    [ mk_filter [".txt"] "" None "rename" "" "new_{original}" 0 ]
    false false false.
Definition rename_state : state := mk_state [("/t/a.txt", file_of 5 "a")].

(** a plain run with the backup log on *)
Definition backup_organizer : FolderOrganizer :=
  mk_organizer [ ext_rule 1 "Documents" [".txt"] ]
    [ mk_filter [".tmp"] "" None "delete" "" "" 0 ] true false false.
Definition backup_state : state :=
  mk_state [("/t/a.txt", file_of 5 "a"); ("/t/b.tmp", file_of 6 "b")].

(** a collision in the destination folder with deduplication on *)
Definition dedup_organizer : FolderOrganizer :=
  mk_organizer [ ext_rule 1 "Documents" [".txt"] ] [] false true false.
Definition dedup_state (t_src t_dst : Z) : state :=
  mk_state [("/t/a.txt", file_of t_src "A");
            ("/t/Documents", Dir (meta0 0));
            ("/t/Documents/a.txt", file_of t_dst "B")].

(** a move filter towards a directory that is not there yet *)
Definition invoice_organizer : FolderOrganizer :=
  mk_organizer [ ext_rule 1 "Documents" [".pdf"] ]
    [ mk_filter [".pdf"] "invoice" None "move_external" "/home/u/Invoices" "" 0 ]
    false false false.
Definition invoice_state : state :=
  mk_state [("/home", Dir (meta0 0)); ("/home/u", Dir (meta0 0));
            ("/t/Invoice_7.pdf", file_of 5 "i")].

(** a move filter without destination before a delete filter *)
Definition blank_filters : list FilterAction :=
  [ mk_filter [] "" None "delete" "" "" 1;
    mk_filter [".txt"] "" None "move" "" "" 7 ].
Definition blank_organizer (dry : bool) : FolderOrganizer :=
  mk_organizer [ ext_rule 1 "Documents" [".txt"] ] blank_filters false false dry.

(** one extension rule with the given spelling of the extension *)
Definition spelled_organizer (e : string) : FolderOrganizer :=
  mk_organizer [ ext_rule 1 "Documents" [e] ] [] false false false.
Definition spelled_state : state := mk_state [("/t/report.pdf", file_of 5 "r")].

(** ** Further notions *)

(** the exclusion decision, written without the exception handling: the
    name test, or a cutoff that parses together with an entry stored under
    the bare file name that is older than it *)
Definition excluded_pure (strptime_date : string -> option Z)
    (self : FolderOrganizer) (filename : string) (f : FS) : bool :=
  existsb (fun pattern => Str.contains pattern filename) (exclude_files (settings self))
  || match exclude_before_date (settings self) with
     | Some d =>
         truthy_str d
         && match strptime_date d, f !! filename with
            | Some exclude_date, Some n => mtime (node_meta n) <? exclude_date
            | _, _ => false
            end
     | None => false
     end.

(** a line of the operation log as the engine writes it *)
Definition is_record (line : string) : Prop :=
  Str.startswith "Moved: " line = true \/ Str.startswith "Deleted: " line = true.

(** a computation that only appends such lines to the log *)
Definition log_grows {A} (m : M A) : Prop :=
  forall s, exists l, log (snd (m s)) = app (log s) l /\ Forall is_record l.

(** how the tally of an apply run may change over one file: nothing is
    lost, and either at most one move is counted or exactly one error is
    recorded, never both *)
Definition tally_step (file : string) (t t' : apply_tally) : Prop :=
  created_folders t ⊆ created_folders t'
  /\ (size (created_folders t') <= S (size (created_folders t)))%nat
  /\ ((errors t' = errors t
       /\ (moved_count t <= moved_count t' <= S (moved_count t))%nat)
      \/ (exists e, errors t' = app (errors t) ["Error moving " ++ file ++ ": " ++ exn_str e]
          /\ moved_count t' = moved_count t)).

(** a computation that leaves the disk as it is *)
Definition keeps_fs {A} (m : M A) : Prop := forall s, fs (snd (m s)) = fs s.

(** what an entry is, its times aside: a file with its content, or a
    directory *)
Definition node_data (n : node) : option content :=
  match n with
  | File _ c => Some c
  | Dir _ => None
  end.

(** two disks with the same paths, each of the same kind and, for a
    file, with the same content; the times are not compared *)
Definition same_tree (f g : FS) : Prop :=
  forall p, node_data <$> f !! p = node_data <$> g !! p.

(** the first step of an apply run: the backup log, when it is enabled *)
Definition backup_step (now : Z) (strftime : Z -> fmt -> string)
    (self : FolderOrganizer) : M unit :=
  if create_backup_log_enabled (settings self)
  then create_backup_log now strftime self else ret tt.

(** the same organizer with another rule list, another filter list *)
Definition with_rules (self : FolderOrganizer) (rules : list FolderRule)
    : FolderOrganizer :=
  {| target_folder := target_folder self;
     folder_rules := rules;
     filter_actions := filter_actions self;
     settings := settings self;
     dry_run := dry_run self |}.

Definition with_filters (self : FolderOrganizer) (filters : list FilterAction)
    : FolderOrganizer :=
  {| target_folder := target_folder self;
     folder_rules := folder_rules self;
     filter_actions := filters;
     settings := settings self;
     dry_run := dry_run self |}.

(** a rule the resolver can ever look at: enabled, with a level of 1 to 5 *)
Definition active_rule (r : FolderRule) : bool :=
  rule_enabled r && (1 <=? hierarchy_level r) && (hierarchy_level r <=? 5).

(** a filter that, when enabled, needs the disk: an age threshold reads
    the file's time, a rename writes *)
Definition needs_disk (f : FilterAction) : bool :=
  filter_enabled f
  && (truthy_days (older_than_days f) || String.eqb (action_type f) "rename").

(** the tallies a run starts from *)
Definition zero_tally : apply_tally :=
  {| moved_count := 0; created_folders := ∅; errors := [] |}.
Definition empty_plan : dry_tally :=
  {| files_to_move := []; folders_to_create := ∅ |}.

(** a listing gives names, not absolute paths *)
Definition lists_names (scandir : FS -> string -> list string * list string) : Prop :=
  forall f top d, In d (fst (scandir f top)) -> Str.startswith "/" d = false.

(** what holds of the plan of a dry run at every point: each planned move
    has a source and a non-empty destination word, each folder to create
    is the destination of a planned move, and there are no more folders
    than moves *)
Definition plan_ok (t : dry_tally) : Prop :=
  Forall (fun m => snd m <> "") (files_to_move t)
  /\ (forall d, d ∈ folders_to_create t -> exists src, In (src, d) (files_to_move t))
  /\ (size (folders_to_create t) <= length (files_to_move t))%nat.

(** ** The editors' text fields and the preview's estimate *)

(** [s.split(c)] for a one-character [c]: one part more than there are
    separators *)
Fixpoint split_on (c : ascii) (s : string) : list string :=
  match s with
  | EmptyString => [EmptyString]
  | String a r =>
      if Ascii.eqb a c then EmptyString :: split_on c r
      else match split_on c r with
           | x :: l => String a x :: l
           | [] => [String a EmptyString]
           end
  end.

(** The text of a field is taken to be ASCII text, where [str.strip()]
    and this model of it agree; outside of it Python also removes the
    Unicode spaces. *)
Fixpoint is_ascii_text (s : string) : bool :=
  match s with
  | EmptyString => true
  | String a r => (nat_of_ascii a <? 128)%nat && is_ascii_text r
  end.

(** the ASCII characters [str.strip()] removes *)
Definition is_space (a : ascii) : bool :=
  let n := nat_of_ascii a in
  ((9 <=? n) && (n <=? 13) || (28 <=? n) && (n <=? 32))%nat.

Fixpoint all_space (s : string) : bool :=
  match s with
  | EmptyString => true
  | String a r => is_space a && all_space r
  end.

Fixpoint lstrip_ws (s : string) : string :=
  match s with
  | EmptyString => EmptyString
  | String a r => if is_space a then lstrip_ws r else s
  end.

Fixpoint rstrip_ws (s : string) : string :=
  match s with
  | EmptyString => EmptyString
  | String a r => if all_space s then EmptyString else String a (rstrip_ws r)
  end.

(** [s.strip()] *)
Definition strip (s : string) : string := rstrip_ws (lstrip_ws s).

(** [sep.join(l)] *)
Fixpoint join_with (sep : string) (l : list string) : string :=
  match l with
  | [] => EmptyString
  | [x] => x
  | x :: l' => x ++ sep ++ join_with sep l'
  end.

(** [[x.strip() for x in text.split(",") if x.strip()]], the list
    comprehension of both [save] methods *)
Definition parse_items (text : string) : list string :=
  List.filter truthy_str (map strip (split_on ","%char text)).

(** what [save] makes of the text of the field, which it strips first *)
Definition parse_field (text : string) : list string := parse_items (strip text).

(** the text an editor shows for a list: [", ".join(l)] *)
Definition show_items (l : list string) : string := join_with ", " l.

(** an item as [save] produces it: not empty, no white space at either
    end, no comma *)
Definition clean_item (x : string) : Prop :=
  x <> "" /\ lstrip_ws x = x /\ rstrip_ws x = x /\ Str.rsplit ","%char x = None.

(** [estimate_folders]: the loop over the rules, with the inner count of
    the enabled level-2 rules *)
Definition estimate_folders (rules : list FolderRule) : nat :=
  foldl (fun count rule =>
           if rule_enabled rule then
             if is_time_based rule then
               let second :=
                 length (List.filter
                           (fun r => (hierarchy_level r =? 2) && rule_enabled r)
                           rules) in
               (count + 3 + 3 * second)%nat
             else (count + 1)%nat
           else count)
        0%nat rules.

(** ** Further scenarios *)

(** an exclude filter in front of an extension rule *)
Definition exclude_organizer : FolderOrganizer :=
  mk_organizer [ ext_rule 1 "Documents" [".txt"] ]
    [ mk_filter [".txt"] "" None "exclude" "" "" 0 ] false false false.

(** the destination folder is there, without an entry of the file's name *)
Definition placed_state : state :=
  mk_state [("/t/a.txt", file_of 5 "A"); ("/t/Documents", Dir (meta0 0))].

(** the same rules as [nested_organizer], the level-1 rules first *)
Definition regrouped_rules : list FolderRule :=
  [ time_rule 1 "MMM"; ext_rule 1 "Exe" [".exe"];
    ext_rule 2 "Images" [".png"; ".jpg"]; ext_rule 2 "Documents" [".pdf"; ".txt"] ].

(** a target folder whose own path has the name of a rule's folder in it *)
Definition documents_organizer : FolderOrganizer := {|
  target_folder := "/home/u/Documents";
  folder_rules := [ ext_rule 1 "Documents" [".pdf"] ];
  filter_actions := [];
  settings := {|
    create_backup_log_enabled := true;
    delete_duplicates := false;
    exclude_organized_folders := true;
    exclude_before_date := None;
    exclude_folders := exclude_folders default_settings;
    exclude_files := exclude_files default_settings;
    log_directory := "/logs" |};
  dry_run := false
|}.
Definition documents_state : state :=
  {| fs := list_to_map [("/", Dir (meta0 0)); ("/home", Dir (meta0 0));
                        ("/home/u", Dir (meta0 0));
                        ("/home/u/Documents", Dir (meta0 0));
                        ("/home/u/Documents/a.pdf", file_of 5 "a")];
     log := [] |}.

(** * Properties *)

(** ** The path functions on examples *)

Example makedirs_ex :
  fs (snd (OS.makedirs 7 "/t/Mar/Docs"
             {| fs := {[ "/t" := Dir (meta0 1) ]}; log := [] |}))
  = <[ "/t/Mar/Docs" := Dir (meta0 7) ]>
      (<[ "/t/Mar" := Dir (meta0 7) ]> {[ "/t" := Dir (meta0 1) ]}).
Proof. vm_compute. reflexivity. Qed.
Example basename_ex : PosixPath.basename "/t/sub/a.tar.gz" = "a.tar.gz".
Proof. reflexivity. Qed.
Example dirname_ex : PosixPath.dirname "/t/sub/a.tar.gz" = "/t/sub".
Proof. reflexivity. Qed.
Example dirname_root_ex : PosixPath.dirname "/a" = "/".
Proof. reflexivity. Qed.
Example splitext_ex : PosixPath.splitext "a.tar.GZ" = ("a.tar", ".GZ").
Proof. reflexivity. Qed.
Example splitext_hidden_ex : PosixPath.splitext ".bashrc" = (".bashrc", "").
Proof. reflexivity. Qed.
Example join_ex : PosixPath.join "/t" "Mar" = "/t/Mar".
Proof. reflexivity. Qed.
Example join_abs_ex : PosixPath.join "/t" "/x" = "/x".
Proof. reflexivity. Qed.
Example replace_ex : Str.replace "{original}" "a" "x_{original}_{original}" = "x_a_a".
Proof. reflexivity. Qed.
Example lower_ex : Str.lower "Ab.PDF" = "ab.pdf".
Proof. reflexivity. Qed.

(** ** The stable sort *)

Section StableSortFacts.
Context {A : Type} (key : A -> Z).
Local Open Scope list_scope.

Lemma insert_desc_perm x l : Permutation (insert_desc key x l) (x :: l).
Proof.
  induction l as [|y l IH]; simpl; [reflexivity|].
  destruct (key x <? key y); [|reflexivity].
  rewrite IH. apply perm_swap.
Qed.

Lemma sorted_desc_perm l : Permutation (sorted_desc key l) l.
Proof.
  induction l as [|x l IH]; simpl; [reflexivity|].
  rewrite insert_desc_perm. now constructor.
Qed.

Lemma insert_asc_perm x l : Permutation (insert_asc key x l) (x :: l).
Proof.
  induction l as [|y l IH]; simpl; [reflexivity|].
  destruct (key y <? key x); [|reflexivity].
  rewrite IH. apply perm_swap.
Qed.

Lemma sorted_asc_perm l : Permutation (sorted_asc key l) l.
Proof.
  induction l as [|x l IH]; simpl; [reflexivity|].
  rewrite insert_asc_perm. now constructor.
Qed.

Lemma insert_desc_sorted x l :
  StronglySorted (desc key) l -> StronglySorted (desc key) (insert_desc key x l).
Proof.
  induction 1 as [|y l Hs IH Hy]; simpl.
  - repeat constructor.
  - destruct (Z.ltb_spec (key x) (key y)).
    + constructor; [exact IH|].
      eapply Permutation_Forall; [symmetry; apply insert_desc_perm|].
      constructor; [unfold desc; lia | exact Hy].
    + constructor; [now constructor|].
      constructor; [unfold desc; lia|].
      eapply List.Forall_impl; [|exact Hy]. unfold desc. intros; simpl in *; lia.
Qed.

Lemma sorted_desc_sorted l : StronglySorted (desc key) (sorted_desc key l).
Proof.
  induction l; simpl; [constructor | now apply insert_desc_sorted].
Qed.

(** Stability: the elements picked by a test that fixes the key come out
    in their original order. *)
Lemma filter_insert_desc (P : A -> bool) k x l :
  (forall a, P a = true -> key a = k) ->
  List.filter P (insert_desc key x l) = List.filter P (x :: l).
Proof.
  intros HP. induction l as [|y l IH]; [reflexivity|].
  simpl. destruct (Z.ltb_spec (key x) (key y)); [|reflexivity].
  simpl. rewrite IH. simpl.
  destruct (P x) eqn:Hx, (P y) eqn:Hy; try reflexivity.
  apply HP in Hx, Hy. lia.
Qed.

Lemma filter_sorted_desc (P : A -> bool) k l :
  (forall a, P a = true -> key a = k) ->
  List.filter P (sorted_desc key l) = List.filter P l.
Proof.
  intros HP. induction l as [|x l IH]; [reflexivity|].
  simpl sorted_desc. rewrite (filter_insert_desc P k) by exact HP.
  simpl. now rewrite IH.
Qed.

Lemma filter_insert_asc (P : A -> bool) k x l :
  (forall a, P a = true -> key a = k) ->
  List.filter P (insert_asc key x l) = List.filter P (x :: l).
Proof.
  intros HP. induction l as [|y l IH]; [reflexivity|].
  simpl. destruct (Z.ltb_spec (key y) (key x)); [|reflexivity].
  simpl. rewrite IH. simpl.
  destruct (P x) eqn:Hx, (P y) eqn:Hy; try reflexivity.
  apply HP in Hx, Hy. lia.
Qed.

Lemma filter_sorted_asc (P : A -> bool) k l :
  (forall a, P a = true -> key a = k) ->
  List.filter P (sorted_asc key l) = List.filter P l.
Proof.
  intros HP. induction l as [|x l IH]; [reflexivity|].
  simpl sorted_asc. rewrite (filter_insert_asc P k) by exact HP.
  simpl. now rewrite IH.
Qed.

(** Where an element lands.  If [f] stands in a sorted list behind a
    prefix of keys at least its own, a new element inserted from the left
    joins that prefix only if its key is at least that of [f]. *)
Lemma insert_desc_before f a pre post :
  Forall (fun g => key f <= key g) pre ->
  exists pre' post',
    insert_desc key a (pre ++ f :: post) = pre' ++ f :: post'
    /\ Forall (fun g => In g pre \/ (g = a /\ key f <= key a)) pre'.
Proof.
  induction 1 as [|y pre Hy Hpre IH]; simpl.
  - destruct (Z.ltb_spec (key a) (key f)).
    + exists [], (insert_desc key a post). split; [reflexivity|constructor].
    + exists [a], post. split; [reflexivity|].
      constructor; [right; split; [reflexivity|lia] | constructor].
  - destruct (Z.ltb_spec (key a) (key y)).
    + destruct IH as (pre' & post' & -> & Hin).
      exists (y :: pre'), post'. split; [reflexivity|].
      constructor; [left; now left|].
      eapply List.Forall_impl; [|exact Hin]. simpl. intros g [Hg|Hg]; auto.
    + exists (a :: y :: pre), post. split; [reflexivity|].
      constructor; [right; split; [reflexivity|lia]|].
      apply List.Forall_forall. intros g Hg. left. exact Hg.
Qed.

(** The prefix of the sorted list before an element [f] of the input
    holds only elements that beat [f]: they come from the left of [f]
    with a key at least its own, or from its right with a greater key. *)
Lemma sorted_desc_split l1 f l2 :
  exists pre post,
    sorted_desc key (l1 ++ f :: l2) = pre ++ f :: post
    /\ Forall (fun g => (In g l1 /\ key f <= key g)
                        \/ (In g l2 /\ key f < key g)) pre.
Proof.
  induction l1 as [|a l1 IH]; simpl.
  - assert (Hgen : forall L, (forall g, In g L -> In g l2) ->
              exists pre post, insert_desc key f L = pre ++ f :: post
                /\ Forall (fun g => In g l2 /\ key f < key g) pre).
    { induction L as [|y L IHL]; intros Hsub; simpl.
      - exists [], []. split; [reflexivity|constructor].
      - destruct (Z.ltb_spec (key f) (key y)).
        + destruct IHL as (pre & post & -> & Hp).
          { intros g Hg. apply Hsub. now right. }
          exists (y :: pre), post. split; [reflexivity|].
          constructor; [split; [apply Hsub; now left|lia] | exact Hp].
        + exists [], (y :: L). split; [reflexivity|constructor]. }
    destruct (Hgen (sorted_desc key l2)) as (pre & post & Heq & Hp).
    { intros g Hg. eapply Permutation_in; [apply sorted_desc_perm|exact Hg]. }
    exists pre, post. split; [exact Heq|].
    eapply List.Forall_impl; [|exact Hp]. simpl. intros g Hg. now right.
  - destruct IH as (pre & post & -> & Hp).
    destruct (insert_desc_before f a pre post) as (pre' & post' & -> & Hp').
    { eapply List.Forall_impl; [|exact Hp]. simpl. intros g [[_ ?]|[_ ?]]; lia. }
    exists pre', post'. split; [reflexivity|].
    apply List.Forall_forall. intros g Hg.
    rewrite List.Forall_forall in Hp, Hp'.
    destruct (Hp' g Hg) as [Hin|[-> Hk]].
    + destruct (Hp g Hin) as [[? ?]|[? ?]]; [left|right]; split; auto.
    + left. split; [now left|exact Hk].
Qed.

End StableSortFacts.

(** ** The monad *)

Lemma bind_ok {A B} (m : M A) (k : A -> M B) s a s' :
  m s = (Ok a, s') -> bind m k s = k a s'.
Proof. intros H. unfold bind. now rewrite H. Qed.

Lemma bind_raise {A B} (m : M A) (k : A -> M B) s e s' :
  m s = (Raise e, s') -> bind m k s = (Raise e, s').
Proof. intros H. unfold bind. now rewrite H. Qed.

Lemma stat_ok s p n : fs s !! p = Some n -> OS.stat p s = (Ok (node_meta n), s).
Proof. intros H. unfold OS.stat, bind, get_fs. now rewrite H. Qed.

Lemma stat_missing s p : fs s !! p = None -> OS.stat p s = (Raise (FileNotFoundError p), s).
Proof. intros H. unfold OS.stat, bind, get_fs. now rewrite H. Qed.

Lemma getmtime_ok s p n :
  fs s !! p = Some n -> OS.getmtime p s = (Ok (mtime (node_meta n)), s).
Proof. intros H. unfold OS.getmtime. now rewrite (bind_ok _ _ _ _ _ (stat_ok _ _ _ H)). Qed.

Lemma getmtime_missing s p :
  fs s !! p = None -> OS.getmtime p s = (Raise (FileNotFoundError p), s).
Proof. intros H. unfold OS.getmtime. now rewrite (bind_raise _ _ _ _ _ (stat_missing _ _ H)). Qed.

(** ** The filter pass: which filter speaks *)

Section FilterPass.
Variable now : Z.
Variable self : FolderOrganizer.
Local Open Scope list_scope.

Lemma filter_matches_ok s file_path n f :
  fs s !! file_path = Some n ->
  filter_matches now f file_path (PosixPath.basename file_path)
    (file_ext_of (PosixPath.basename file_path)) s
  = (Ok (criteria_match now (mtime (node_meta n)) (PosixPath.basename file_path) f), s).
Proof.
  intros Hn. unfold filter_matches, criteria_match.
  destruct (truthy_list (file_types f)); simpl;
    [destruct (str_in_list _ (file_types f)); simpl|];
    try reflexivity;
    (destruct (truthy_str (name_contains f)); simpl;
     [destruct (Str.contains _ _); simpl|];
     try reflexivity;
     (destruct (truthy_days (older_than_days f)); simpl; [|reflexivity];
      rewrite (bind_ok _ _ _ _ _ (getmtime_ok _ _ _ Hn));
      unfold ret; now rewrite Z.leb_antisym)).
Qed.

Lemma loop_skip s file_path n pre rest :
  fs s !! file_path = Some n ->
  Forall (fun g => applies now (mtime (node_meta n)) (PosixPath.basename file_path) g
                   = false) pre ->
  apply_filters_loop now self (pre ++ rest) file_path (PosixPath.basename file_path)
    (file_ext_of (PosixPath.basename file_path)) s
  = apply_filters_loop now self rest file_path (PosixPath.basename file_path)
      (file_ext_of (PosixPath.basename file_path)) s.
Proof.
  intros Hn. induction 1 as [|g pre Hg _ IH]; [reflexivity|].
  simpl. unfold applies in Hg.
  destruct (filter_enabled g); simpl in *; [|exact IH].
  rewrite (bind_ok _ _ _ _ _ (filter_matches_ok _ _ _ g Hn)).
  rewrite Hg. exact IH.
Qed.

Lemma loop_hit s file_path n f post :
  fs s !! file_path = Some n ->
  applies now (mtime (node_meta n)) (PosixPath.basename file_path) f = true ->
  known_action f ->
  apply_filters_loop now self (f :: post) file_path (PosixPath.basename file_path)
    (file_ext_of (PosixPath.basename file_path)) s
  = directive self f file_path s.
Proof.
  intros Hn Hap Hk. unfold applies in Hap.
  apply andb_prop in Hap as [He Hc].
  simpl. rewrite He. simpl.
  rewrite (bind_ok _ _ _ _ _ (filter_matches_ok _ _ _ f Hn)), Hc.
  unfold directive, known_action in *. simpl in Hk.
  destruct Hk as [<-|[<-|[<-|[<-|[<-|[]]]]]]; simpl; try reflexivity;
    destruct (dry_run self); reflexivity.
Qed.

Lemma winner_exists (ap : FilterAction -> bool) l :
  (exists g, In g l /\ ap g = true) ->
  exists l1 f l2, l = l1 ++ f :: l2 /\ wins ap l1 f l2.
Proof.
  induction l as [|a l IH]; intros (g & Hin & Hg); [destruct Hin|].
  destruct (existsb ap l) eqn:Hex.
  - apply existsb_exists in Hex. destruct (IH Hex) as (l1 & f & l2 & -> & Hf & H1 & H2).
    destruct (ap a) eqn:Ha; [destruct (Z.ltb_spec (priority a) (priority f))|].
    + exists (a :: l1), f, l2. repeat split; auto.
      intros h [<-|Hh] Hh'; auto.
    + exists [], a, (l1 ++ f :: l2). repeat split; auto; [intros ? []|].
      intros h Hh Hh'. apply in_app_or in Hh as [Hh|[<-|Hh]].
      * specialize (H1 h Hh Hh'). lia.
      * lia.
      * specialize (H2 h Hh Hh'). lia.
    + exists (a :: l1), f, l2. repeat split; auto.
      intros h [<-|Hh] Hh'; [congruence|auto].
  - assert (Hnone : forall h, In h l -> ap h = false).
    { intros h Hh. destruct (ap h) eqn:E; [|reflexivity].
      assert (existsb ap l = true) by (apply existsb_exists; eauto). congruence. }
    destruct Hin as [<-|Hin]; [|rewrite (Hnone g Hin) in Hg; discriminate].
    exists [], a, l. repeat split; auto; [intros ? []|].
    intros h Hh Hh'. rewrite (Hnone h Hh) in Hh'. discriminate.
Qed.

Lemma apply_filters_none s file_path n :
  fs s !! file_path = Some n ->
  (forall g, In g (filter_actions self) ->
             applies now (mtime (node_meta n)) (PosixPath.basename file_path) g = false) ->
  apply_filters now self file_path s = (Ok None, s).
Proof.
  intros Hn Hnone. unfold apply_filters.
  rewrite <- (app_nil_r (sorted_desc priority (filter_actions self))).
  rewrite (loop_skip _ _ n); [reflexivity|exact Hn|].
  apply List.Forall_forall. intros g Hg. apply Hnone.
  eapply Permutation_in; [apply sorted_desc_perm|exact Hg].
Qed.

Lemma apply_filters_winner s file_path n l1 f l2 :
  fs s !! file_path = Some n ->
  filter_actions self = l1 ++ f :: l2 ->
  wins (applies now (mtime (node_meta n)) (PosixPath.basename file_path)) l1 f l2 ->
  known_action f ->
  apply_filters now self file_path s = directive self f file_path s.
Proof.
  intros Hn Hl (Hf & H1 & H2) Hk. unfold apply_filters. rewrite Hl.
  destruct (sorted_desc_split priority l1 f l2) as (pre & post & -> & Hpre).
  rewrite (loop_skip _ _ n); [now apply (loop_hit _ _ n)|exact Hn|].
  eapply List.Forall_impl; [|exact Hpre]. simpl.
  intros g Hg.
  destruct (applies now (mtime (node_meta n)) (PosixPath.basename file_path) g) eqn:E;
    [|reflexivity].
  destruct Hg as [[Hin Hp]|[Hin Hp]].
  - specialize (H1 g Hin E). lia.
  - specialize (H2 g Hin E). lia.
Qed.

(** C1. The filter pass evaluates the enabled filters by priority,
    highest first, in declaration order among equals (the order is a
    sorted, stable permutation of the filter list), and returns the
    directive of the first one whose criteria all match: with no such
    filter it returns [None]; otherwise the filter that applies with the
    highest priority, declared first among equals, exists and its
    directive alone is what the pass does and returns. *)
Theorem apply_filters_first_match s file_path n :
  fs s !! file_path = Some n ->
  let ap := applies now (mtime (node_meta n)) (PosixPath.basename file_path) in
  let sorted := sorted_desc priority (filter_actions self) in
  (Permutation sorted (filter_actions self)
   /\ StronglySorted (desc priority) sorted
   /\ forall k, List.filter (fun f => priority f =? k) sorted
                = List.filter (fun f => priority f =? k) (filter_actions self))
  /\ ((forall g, In g (filter_actions self) -> ap g = false) ->
      apply_filters now self file_path s = (Ok None, s))
  /\ (forall l1 f l2,
        filter_actions self = l1 ++ f :: l2 -> wins ap l1 f l2 -> known_action f ->
        apply_filters now self file_path s = directive self f file_path s)
  /\ ((exists g, In g (filter_actions self) /\ ap g = true) ->
      exists l1 f l2, filter_actions self = l1 ++ f :: l2 /\ wins ap l1 f l2).
Proof.
  intros Hn ap sorted. split; [|split; [|split]].
  - split; [apply sorted_desc_perm|split; [apply sorted_desc_sorted|]].
    intros k. apply (filter_sorted_desc priority _ k).
    intros a Ha. now apply Z.eqb_eq in Ha.
  - now apply (apply_filters_none _ _ n).
  - intros l1 f l2 Hl Hw Hk. now apply (apply_filters_winner _ _ n l1 f l2).
  - apply winner_exists.
Qed.

End FilterPass.

(** ** The destination resolver *)

Lemma length_append (a b : string) :
  String.length (a ++ b) = (String.length a + String.length b)%nat.
Proof. induction a; simpl; [reflexivity|now rewrite IHa]. Qed.

Lemma join_longer a seg :
  proper_segment seg -> (String.length a < String.length (PosixPath.join a seg))%nat.
Proof.
  intros [Hne Hs]. unfold PosixPath.join. rewrite Hs.
  assert (0 < String.length seg)%nat by (destruct seg; [congruence|simpl; lia]).
  destruct (_ || _); rewrite !length_append; simpl; lia.
Qed.

Lemma foldl_join_longer segs a :
  Forall proper_segment segs ->
  (String.length a <= String.length (foldl PosixPath.join a segs))%nat
  /\ (segs <> [] ->
      (String.length a < String.length (foldl PosixPath.join a segs))%nat).
Proof.
  intros H. revert a. induction H as [|seg segs Hseg _ IH]; intros a; simpl.
  - split; [lia|congruence].
  - pose proof (join_longer a seg Hseg). destruct (IH (PosixPath.join a seg)).
    split; [lia|intros _; lia].
Qed.

Lemma foldM_const {A T} (body : T -> A -> M T) (g : T -> A -> T) s l acc :
  (forall a x, body a x s = (Ok (g a x), s)) ->
  foldM body l acc s = (Ok (foldl g acc l), s).
Proof.
  intros H. revert acc. induction l as [|x l IH]; intros acc; [reflexivity|].
  simpl. rewrite (bind_ok _ _ _ _ _ (H acc x)). apply IH.
Qed.

Lemma foldl_omap {A} (g : string -> A -> string) (h : Z -> option A) l acc :
  foldl (fun d level => match h level with Some x => g d x | None => d end) acc l
  = foldl g acc (omap h l).
Proof.
  revert acc. induction l as [|x l IH]; intros acc; [reflexivity|].
  simpl. destruct (h x); simpl; apply IH.
Qed.

Lemma find_filter {A} (p q : A -> bool) l :
  List.find p (List.filter q l) = List.find (fun x => q x && p x) l.
Proof.
  induction l as [|x l IH]; [reflexivity|]. simpl.
  destruct (q x); simpl; [now rewrite IH|exact IH].
Qed.

Section Resolver.
Variable strftime : Z -> fmt -> string.
Variable self : FolderOrganizer.
Local Open Scope list_scope.

Lemma get_file_date_ok s file_path n ds :
  fs s !! file_path = Some n ->
  get_file_date file_path ds s = (Ok (date_of (node_meta n) ds), s).
Proof.
  intros Hn. unfold get_file_date, date_of, OS.getctime, OS.getatime, OS.getmtime.
  destruct (String.eqb ds "created"); [|destruct (String.eqb ds "accessed")];
    now rewrite (bind_ok _ _ _ _ _ (stat_ok _ _ _ Hn)).
Qed.

Lemma level_loop_find s file_path n ext rules dest :
  fs s !! file_path = Some n ->
  level_loop strftime rules file_path ext dest s
  = (Ok (match List.find (rule_matches ext) rules with
         | Some r => PosixPath.join dest (segment_of strftime (node_meta n) r)
         | None => dest
         end), s).
Proof.
  intros Hn. induction rules as [|r rules IH]; [reflexivity|].
  simpl. unfold rule_matches at 1.
  destruct (is_time_based r) eqn:Et; simpl.
  - rewrite (bind_ok _ _ _ _ _ (get_file_date_ok _ _ _ _ Hn)).
    unfold segment_of. now rewrite Et.
  - destruct (str_in_list ext (file_extensions r)); [|exact IH].
    unfold segment_of. now rewrite Et.
Qed.

(** the stable sort by level leaves the rules of one level in their
    declaration order *)
Lemma rules_at_sorted level rules :
  rules_at level (sorted_asc hierarchy_level rules) = rules_at level rules.
Proof.
  unfold rules_at. apply (filter_sorted_asc hierarchy_level _ level).
  intros r Hr. apply andb_prop in Hr as [Hr _]. now apply Z.eqb_eq in Hr.
Qed.

(** C2. The resolver goes through the levels 1 to 5 in ascending order;
    at each level the first enabled rule of that level that matches (a
    time-based rule always, a regular rule when the file's extension is
    in its set) appends exactly one segment, and a level without such a
    rule adds nothing.  The result is the target root with the segments
    joined on in level order, and no destination when no level gave a
    segment.  With folder names that are proper relative names a file
    with at least one segment always has a destination, and a level-1
    and a level-2 segment alone nest two deep, level 1 outermost. *)
Theorem get_destination_levels s file_path n :
  fs s !! file_path = Some n ->
  let segs := segments strftime (node_meta n)
                (file_ext_of (PosixPath.basename file_path)) (folder_rules self) in
  let p := foldl PosixPath.join (target_folder self) segs in
  get_destination strftime self file_path s
  = (Ok (if String.eqb p (target_folder self) then None else Some p), s)
  /\ (segs = [] -> get_destination strftime self file_path s = (Ok None, s))
  /\ (segs <> [] -> Forall proper_segment segs ->
      get_destination strftime self file_path s = (Ok (Some p), s))
  /\ (forall t d, segs = [t; d] ->
      p = PosixPath.join (PosixPath.join (target_folder self) t) d).
Proof.
  intros Hn segs p.
  assert (Hmain : get_destination strftime self file_path s
                  = (Ok (if String.eqb p (target_folder self) then None else Some p), s)).
  { unfold get_destination.
    erewrite bind_ok; [reflexivity|].
    erewrite foldM_const.
    2:{ intros a x. rewrite (level_loop_find _ _ n) by exact Hn.
        rewrite rules_at_sorted. unfold rules_at. rewrite find_filter.
        instantiate (1 := fun a x =>
          match level_segment strftime (node_meta n)
                  (file_ext_of (PosixPath.basename file_path)) (folder_rules self) x with
          | Some seg => PosixPath.join a seg
          | None => a
          end).
        simpl. unfold level_segment.
        destruct (List.find _ (folder_rules self)); reflexivity. }
    rewrite foldl_omap. reflexivity. }
  split; [exact Hmain|split; [|split]].
  - intros Hs. rewrite Hmain. subst p. rewrite Hs. simpl.
    now rewrite String.eqb_refl.
  - intros Hne Hp. rewrite Hmain.
    destruct (String.eqb_spec p (target_folder self)) as [E|]; [|reflexivity].
    destruct (foldl_join_longer segs (target_folder self) Hp) as [_ Hlt].
    specialize (Hlt Hne). fold p in Hlt. rewrite E in Hlt. lia.
  - intros t d Hs. subst p. now rewrite Hs.
Qed.

End Resolver.

(** ** Extensions and letter case *)

Lemma lower_ascii_sep a :
  Ascii.eqb (Str.lower_ascii a) PosixPath.sep = Ascii.eqb a PosixPath.sep.
Proof. destruct a as [[] [] [] [] [] [] [] []]; reflexivity. Qed.

Lemma lower_ascii_extsep a :
  Ascii.eqb (Str.lower_ascii a) PosixPath.extsep = Ascii.eqb a PosixPath.extsep.
Proof. destruct a as [[] [] [] [] [] [] [] []]; reflexivity. Qed.

Lemma lower_ascii_idem a : Str.lower_ascii (Str.lower_ascii a) = Str.lower_ascii a.
Proof. destruct a as [[] [] [] [] [] [] [] []]; reflexivity. Qed.

Lemma lower_idem s : Str.lower (Str.lower s) = Str.lower s.
Proof. induction s; simpl; [reflexivity|now rewrite lower_ascii_idem, IHs]. Qed.

Section LowerSplit.
Variable c : ascii.
Hypothesis lower_c : forall a, Ascii.eqb (Str.lower_ascii a) c = Ascii.eqb a c.

Lemma rsplit_lower s :
  Str.rsplit c (Str.lower s)
  = option_map (fun ht => (Str.lower (fst ht), Str.lower (snd ht))) (Str.rsplit c s).
Proof.
  induction s as [|a s IH]; [reflexivity|].
  simpl. rewrite IH. destruct (Str.rsplit c s) as [[h t]|]; simpl; [reflexivity|].
  rewrite lower_c. now destruct (Ascii.eqb a c).
Qed.

Lemma all_char_lower s : Str.all_char c (Str.lower s) = Str.all_char c s.
Proof. induction s; simpl; [reflexivity|now rewrite lower_c, IHs]. Qed.
End LowerSplit.

Lemma splitext_name_lower b :
  PosixPath.splitext_name (Str.lower b)
  = (Str.lower (fst (PosixPath.splitext_name b)),
     Str.lower (snd (PosixPath.splitext_name b))).
Proof.
  unfold PosixPath.splitext_name.
  rewrite (rsplit_lower _ lower_ascii_extsep).
  destruct (Str.rsplit PosixPath.extsep b) as [[stem e]|]; simpl; [|reflexivity].
  rewrite (all_char_lower _ lower_ascii_extsep).
  destruct (Str.all_char PosixPath.extsep stem); reflexivity.
Qed.

Lemma splitext_lower p :
  snd (PosixPath.splitext (Str.lower p)) = Str.lower (snd (PosixPath.splitext p)).
Proof.
  unfold PosixPath.splitext.
  rewrite (rsplit_lower _ lower_ascii_sep).
  destruct (Str.rsplit PosixPath.sep p) as [[h t]|]; simpl.
  - rewrite splitext_name_lower. now destruct (PosixPath.splitext_name t).
  - now rewrite splitext_name_lower.
Qed.

Lemma file_ext_of_lower filename :
  file_ext_of filename = snd (PosixPath.splitext (Str.lower filename)).
Proof. unfold file_ext_of. now rewrite splitext_lower. Qed.

Lemma splitext_name_ext b :
  snd (PosixPath.splitext_name b) = ""
  \/ exists e, snd (PosixPath.splitext_name b) = String PosixPath.extsep e.
Proof.
  unfold PosixPath.splitext_name.
  destruct (Str.rsplit PosixPath.extsep b) as [[stem e]|]; [|now left].
  destruct (Str.all_char PosixPath.extsep stem); [now left|right; now exists e].
Qed.

Lemma splitext_ext p :
  snd (PosixPath.splitext p) = ""
  \/ exists e, snd (PosixPath.splitext p) = String PosixPath.extsep e.
Proof.
  unfold PosixPath.splitext.
  destruct (Str.rsplit PosixPath.sep p) as [[h t]|]; [|apply splitext_name_ext].
  pose proof (splitext_name_ext t). now destruct (PosixPath.splitext_name t).
Qed.

Lemma str_in_list_In x l : str_in_list x l = true <-> In x l.
Proof.
  unfold str_in_list. rewrite existsb_exists. split.
  - intros (y & Hy & E). apply String.eqb_eq in E. now subst.
  - intros H. exists x. split; [exact H|apply String.eqb_refl].
Qed.

(** C9, as the code has it.  Letter case on the file's side never
    matters: two names that differ in case only have the same extension
    for the rules, so every rule matches both or neither.  The configured
    strings are compared verbatim with that extension, which is in lower
    case and either empty or led by the separator: a regular rule gives
    its folder exactly when the lower-cased extension is literally in its
    list, and a configured string that has an upper-case letter, or that
    is not empty and lacks the leading separator, matches no file. *)
Theorem extension_match_file_side
    (strftime : Z -> fmt -> string) (rule : FolderRule) (filename filename' : string) :
  Str.lower filename = Str.lower filename' ->
  file_ext_of filename = file_ext_of filename'
  /\ rule_matches (file_ext_of filename) rule = rule_matches (file_ext_of filename') rule
  /\ (is_time_based rule = false ->
      forall s file_path dest,
        level_loop strftime [rule] file_path (file_ext_of filename) dest s
        = (Ok (if str_in_list (file_ext_of filename) (file_extensions rule)
               then PosixPath.join dest (folder_name rule) else dest), s))
  /\ (str_in_list (file_ext_of filename) (file_extensions rule) = true
      <-> In (file_ext_of filename) (file_extensions rule))
  /\ Str.lower (file_ext_of filename) = file_ext_of filename
  /\ (file_ext_of filename = "" \/ Str.startswith "." (file_ext_of filename) = true)
  /\ (forall e, Str.lower e <> e \/ (e <> "" /\ Str.startswith "." e = false) ->
      e <> file_ext_of filename).
Proof.
  intros Hl.
  assert (Hext : file_ext_of filename = file_ext_of filename')
    by (now rewrite !file_ext_of_lower, Hl).
  assert (Hlow : Str.lower (file_ext_of filename) = file_ext_of filename)
    by (unfold file_ext_of; apply lower_idem).
  assert (Hdot : file_ext_of filename = ""
                 \/ Str.startswith "." (file_ext_of filename) = true).
  { unfold file_ext_of.
    destruct (splitext_ext filename) as [->|[e ->]]; [now left|right; reflexivity]. }
  split; [exact Hext|split; [now rewrite Hext|split; [|split; [|split; [|split]]]]].
  - intros Ht s file_path dest. simpl. rewrite Ht.
    now destruct (str_in_list _ _).
  - apply str_in_list_In.
  - exact Hlow.
  - exact Hdot.
  - intros e [Hc|[Hne Hs]] ->.
    + now apply Hc.
    + destruct Hdot as [E|E]; [now apply Hne|congruence].
Qed.

(** ** Computations that leave the disk and the log alone *)

Lemma read_only_ret {A} (a : A) : read_only (ret a).
Proof. intros s. reflexivity. Qed.

Lemma read_only_raise {A} e : read_only (@raise A e).
Proof. intros s. reflexivity. Qed.

Lemma read_only_bind {A B} (m : M A) (k : A -> M B) :
  read_only m -> (forall a, read_only (k a)) -> read_only (bind m k).
Proof.
  intros Hm Hk s. unfold bind. specialize (Hm s).
  destruct (m s) as [[a|e] s']; simpl in *; subst; [apply Hk|reflexivity].
Qed.

Lemma read_only_try {A} (m : M A) (h : exn -> M A) :
  read_only m -> (forall e, read_only (h e)) -> read_only (try_except m h).
Proof.
  intros Hm Hh s. unfold try_except. specialize (Hm s).
  destruct (m s) as [[a|e] s']; simpl in *; subst; [reflexivity|apply Hh].
Qed.

Lemma read_only_get_fs : read_only get_fs.
Proof. intros s. reflexivity. Qed.

Lemma read_only_get_log : read_only get_log.
Proof. intros s. reflexivity. Qed.

Lemma read_only_foldM {A T} (body : T -> A -> M T) l acc :
  (forall a x, read_only (body a x)) -> read_only (foldM body l acc).
Proof.
  intros H. revert acc. induction l as [|x l IH]; intros acc; simpl.
  - apply read_only_ret.
  - apply read_only_bind; [apply H|intros; apply IH].
Qed.

Create HintDb ro discriminated.
Create HintDb kl discriminated.
#[local] Hint Resolve read_only_ret read_only_raise read_only_get_fs
  read_only_get_log : ro.

(** splits a computation along its binds, handlers and tests *)
Ltac ro_step :=
  match goal with
  | |- read_only (bind _ _) => apply read_only_bind; [|intros ?]
  | |- read_only (try_except _ _) => apply read_only_try; [|intros ?]
  | |- read_only (foldM _ _ _) => apply read_only_foldM; intros ? ?
  | |- read_only (if ?b then _ else _) => destruct b
  | |- read_only (match ?x with _ => _ end) => destruct x
  | |- read_only _ => solve [auto with ro]
  end.
Ltac ro := repeat ro_step.

Lemma read_only_stat p : read_only (OS.stat p).
Proof. unfold OS.stat. ro. Qed.
#[local] Hint Resolve read_only_stat : ro.

Lemma read_only_getmtime p : read_only (OS.getmtime p).
Proof. unfold OS.getmtime. ro. Qed.
Lemma read_only_getctime p : read_only (OS.getctime p).
Proof. unfold OS.getctime. ro. Qed.
Lemma read_only_getatime p : read_only (OS.getatime p).
Proof. unfold OS.getatime. ro. Qed.
Lemma read_only_exists p : read_only (OS.exists_ p).
Proof. unfold OS.exists_. ro. Qed.
#[local] Hint Resolve read_only_getmtime read_only_getctime read_only_getatime
  read_only_exists : ro.

Section DryRun.
Variable now : Z.
Variable strftime : Z -> fmt -> string.
Variable strptime_date : string -> option Z.
Variable scandir : FS -> string -> list string * list string.
Variable self : FolderOrganizer.

Lemma read_only_is_excluded filename :
  read_only (is_excluded strptime_date self filename).
Proof. unfold is_excluded. ro. Qed.

Lemma read_only_filter_matches f file_path filename ext :
  read_only (filter_matches now f file_path filename ext).
Proof. unfold filter_matches. ro. Qed.

Lemma read_only_get_file_date file_path ds : read_only (get_file_date file_path ds).
Proof. unfold get_file_date. ro. Qed.

Lemma read_only_level_loop rules file_path ext dest :
  read_only (level_loop strftime rules file_path ext dest).
Proof.
  induction rules as [|r rules IH]; simpl; [apply read_only_ret|].
  pose proof (read_only_get_file_date file_path (date_source r)). ro; auto.
Qed.

Lemma read_only_get_destination file_path :
  read_only (get_destination strftime self file_path).
Proof.
  unfold get_destination. ro. apply read_only_level_loop.
Qed.

Hypothesis Hdry : dry_run self = true.

Lemma read_only_apply_filters_loop l file_path filename ext :
  read_only (apply_filters_loop now self l file_path filename ext).
Proof.
  induction l as [|f l IH]; simpl; [apply read_only_ret|].
  rewrite Hdry. simpl.
  pose proof (read_only_filter_matches f file_path filename ext). ro; auto.
Qed.

Lemma read_only_apply_filters file_path :
  read_only (apply_filters now self file_path).
Proof. apply read_only_apply_filters_loop. Qed.

Lemma read_only_dry_file root acc file :
  read_only (dry_file now strftime strptime_date self root acc file).
Proof.
  unfold dry_file.
  pose proof (read_only_is_excluded file).
  pose proof (read_only_apply_filters (PosixPath.join root file)).
  pose proof (read_only_get_destination (PosixPath.join root file)).
  ro; auto.
Qed.

Lemma read_only_dry_body root files acc :
  read_only (dry_body now strftime strptime_date self root files acc).
Proof. unfold dry_body. ro. apply read_only_dry_file. Qed.

Lemma read_only_os_walk {T} (body : string -> list string -> T -> M T) fuel :
  (forall root files acc, read_only (body root files acc)) ->
  forall top acc, read_only (os_walk scandir fuel top body acc).
Proof.
  intros Hb. induction fuel as [|n IH]; intros top acc; simpl.
  - apply read_only_raise.
  - apply read_only_bind; [apply read_only_get_fs|intros f].
    destruct (negb (OS.isdir f top)); [apply read_only_ret|].
    destruct (scandir f top) as [dirs files].
    apply read_only_bind; [apply Hb|intros acc'].
    apply read_only_foldM. intros a d. apply IH.
Qed.

Lemma read_only_dry_scan fuel :
  read_only (dry_scan now strftime strptime_date scandir self fuel).
Proof. unfold dry_scan. apply read_only_os_walk. apply read_only_dry_body. Qed.

(** C7. A dry run changes nothing: whatever the configuration, the tree
    and the listing order, and whether it ends with a report or with an
    exception, the disk (files, directories, backup logs) and the
    operation log are afterwards what they were.  Its report is made of
    the tallies alone: the number of planned moves, the number of
    folders to create and the first ten planned moves determine it. *)
Theorem dry_run_changes_nothing fuel s :
  snd (organize now strftime strptime_date scandir self fuel s) = s
  /\ fst (organize now strftime strptime_date scandir self fuel s)
     = match fst (dry_scan now strftime strptime_date scandir self fuel s) with
       | Ok t => Ok (dry_report self t)
       | Raise e => Raise e
       end
  /\ forall t t',
       length (files_to_move t) = length (files_to_move t') ->
       size (folders_to_create t) = size (folders_to_create t') ->
       take 10 (files_to_move t) = take 10 (files_to_move t') ->
       dry_report self t = dry_report self t'.
Proof.
  unfold organize. rewrite Hdry. unfold generate_dry_run_report.
  pose proof (read_only_dry_scan fuel s) as Hs.
  assert (Hrep : forall t t',
       length (files_to_move t) = length (files_to_move t') ->
       size (folders_to_create t) = size (folders_to_create t') ->
       take 10 (files_to_move t) = take 10 (files_to_move t') ->
       dry_report self t = dry_report self t').
  { intros t t' Hl Hz Ht. unfold dry_report. rewrite Hl, Hz, Ht.
    destruct (files_to_move t), (files_to_move t'); try discriminate; reflexivity. }
  unfold bind. destruct (dry_scan _ _ _ _ _ _ s) as [[t|e] s']; simpl in *; subst;
    (split; [reflexivity|split; [reflexivity|exact Hrep]]).
Qed.

End DryRun.

(** ** The file mover: a name collision with deduplication on *)

Lemma exists_ok s p : OS.exists_ p s = (Ok (OS.path_exists (fs s) p), s).
Proof. reflexivity. Qed.

Lemma remove_file_ok s p m c :
  fs s !! p = Some (File m c) ->
  OS.remove p s = (Ok tt, {| fs := delete p (fs s); log := log s |}).
Proof. intros H. unfold OS.remove, bind, get_fs. now rewrite H. Qed.

Lemma parent_isdir_delete (f : FS) p m c :
  f !! p = Some (File m c) ->
  OS.parent_isdir f p = true -> OS.parent_isdir (delete p f) p = true.
Proof.
  unfold OS.parent_isdir, OS.isdir. intros Hp H.
  destruct (String.eqb (PosixPath.dirname p) ""); [reflexivity|]. simpl in *.
  destruct (decide (PosixPath.dirname p = p)) as [E|E].
  - rewrite E, Hp in H. discriminate.
  - rewrite lookup_delete_ne by congruence. exact H.
Qed.

Lemma rename_ok s src dst m c :
  fs s !! src = Some (File m c) ->
  src <> dst ->
  OS.parent_isdir (fs s) dst = true ->
  fs s !! dst = None ->
  OS.rename src dst s
  = (Ok tt, {| fs := <[dst := File m c]> (delete src (fs s)); log := log s |}).
Proof.
  intros Hsrc Hne Hpar Hdst. unfold OS.rename, bind, get_fs.
  rewrite Hsrc. destruct (String.eqb_spec src dst) as [E|_]; [contradiction|].
  rewrite Hpar, Hdst. reflexivity.
Qed.

Lemma move_ok s src dst m c :
  fs s !! src = Some (File m c) ->
  src <> dst ->
  OS.parent_isdir (fs s) dst = true ->
  fs s !! dst = None ->
  OS.is_root dst = false ->
  OS.move src dst s
  = (Ok tt, {| fs := <[dst := File m c]> (delete src (fs s)); log := log s |}).
Proof.
  intros Hsrc Hne Hpar Hdst Hroot. unfold OS.move, bind at 1, get_fs, OS.isdir.
  rewrite Hdst, Hroot. now apply rename_ok.
Qed.

Section Dedup.
Variable self : FolderOrganizer.
Hypothesis Hdedup : delete_duplicates (settings self) = true.

(** C6, as the code has it.  When a file is already at the candidate
    path and deduplication is on, the mover compares the two
    modification times.  A source that is not strictly newer (older, or
    of the same time) is deleted, the move is dropped, the existing file
    stays and nothing is logged; a source that is strictly newer
    replaces the existing file, which is deleted first, and the move is
    logged. *)
Theorem move_file_dedup s src dest_dir ms cs md cd :
  let dest_path := PosixPath.join dest_dir (PosixPath.basename src) in
  src <> dest_path ->
  fs s !! src = Some (File ms cs) ->
  fs s !! dest_path = Some (File md cd) ->
  (mtime ms <= mtime md ->
     move_file self src dest_dir s
     = (Ok tt, {| fs := delete src (fs s); log := log s |})
     /\ delete src (fs s) !! src = None
     /\ delete src (fs s) !! dest_path = Some (File md cd))
  /\ (mtime md < mtime ms ->
      OS.is_root dest_path = false ->
      OS.parent_isdir (fs s) dest_path = true ->
      let fs' := <[dest_path := File ms cs]> (delete src (delete dest_path (fs s))) in
      move_file self src dest_dir s
      = (Ok tt, {| fs := fs';
                   log := app (log s) ["Moved: " ++ src ++ " → " ++ dest_path] |})
      /\ fs' !! src = None
      /\ fs' !! dest_path = Some (File ms cs)).
Proof.
  intros dest_path Hne Hsrc Hdst.
  unfold move_file. fold dest_path.
  rewrite (bind_ok _ _ _ _ _ (exists_ok s dest_path)).
  unfold OS.path_exists. rewrite Hdst, Hdedup.
  split.
  - intros Hle.
    split; [|split; [apply lookup_delete_eq|now rewrite lookup_delete_ne]].
    unfold bind at 1.
    rewrite (bind_ok _ _ _ _ _ (getmtime_ok _ _ _ Hsrc)).
    rewrite (bind_ok _ _ _ _ _ (getmtime_ok _ _ _ Hdst)). simpl.
    destruct (Z.ltb_spec (mtime md) (mtime ms)); [lia|].
    now rewrite (bind_ok _ _ _ _ _ (remove_file_ok _ _ _ _ Hsrc)).
  - intros Hlt Hroot Hpar.
    split; [|split].
    + unfold bind at 1.
      rewrite (bind_ok _ _ _ _ _ (getmtime_ok _ _ _ Hsrc)).
      rewrite (bind_ok _ _ _ _ _ (getmtime_ok _ _ _ Hdst)). simpl.
      destruct (Z.ltb_spec (mtime md) (mtime ms)); [|lia].
      rewrite (bind_ok _ _ _ _ _ (remove_file_ok _ _ _ _ Hdst)).
      unfold ret at 1.
      erewrite bind_ok; cycle 1.
      { apply move_ok; simpl; auto.
        - rewrite lookup_delete_ne by congruence. exact Hsrc.
        - now apply (parent_isdir_delete _ _ md cd).
        - apply lookup_delete_eq. }
      reflexivity.
    + rewrite lookup_insert_ne by congruence. apply lookup_delete_eq.
    + apply lookup_insert_eq.
Qed.

End Dedup.

(** ** A move filter without a destination *)

Lemma bind_cong_ro {A B} (m : M A) (k k' : A -> M B) s :
  read_only m -> (forall a, k a s = k' a s) -> bind m k s = bind m k' s.
Proof.
  intros Hm Hk. unfold bind. specialize (Hm s).
  destruct (m s) as [[a|e] s']; simpl in Hm; subst; [apply Hk|reflexivity].
Qed.

Lemma try_cong {A} (m m' : M A) (h : exn -> M A) s :
  m s = m' s -> try_except m h s = try_except m' h s.
Proof. intros H. unfold try_except. now rewrite H. Qed.

(** what the exclusion test and the resolver return for a file *)
Lemma is_excluded_ok strptime_date self filename s :
  is_excluded strptime_date self filename s
  = (Ok (excluded_pure strptime_date self filename (fs s)), s).
Proof.
  unfold is_excluded, excluded_pure.
  destruct (existsb _ (exclude_files (settings self))); [reflexivity|].
  destruct (exclude_before_date (settings self)) as [d|]; [|reflexivity].
  destruct (truthy_str d); [|reflexivity]. simpl.
  unfold try_except.
  destruct (strptime_date d) as [t|]; [|reflexivity].
  destruct (fs s !! filename) as [n|] eqn:E.
  - now rewrite (bind_ok _ _ _ _ _ (getmtime_ok _ _ _ E)).
  - now rewrite (bind_raise _ _ _ _ _ (getmtime_missing _ _ E)).
Qed.

Lemma get_destination_value strftime self s file_path n :
  fs s !! file_path = Some n ->
  get_destination strftime self file_path s
  = (Ok (let p := foldl PosixPath.join (target_folder self)
                    (segments strftime (node_meta n)
                       (file_ext_of (PosixPath.basename file_path)) (folder_rules self)) in
         if String.eqb p (target_folder self) then None else Some p), s).
Proof.
  intros Hn. unfold get_destination.
  erewrite bind_ok; [reflexivity|].
  erewrite foldM_const.
  2:{ intros a x. rewrite (level_loop_find _ _ _ n) by exact Hn.
      rewrite rules_at_sorted. unfold rules_at. rewrite find_filter.
      instantiate (1 := fun a x =>
        match level_segment strftime (node_meta n)
                (file_ext_of (PosixPath.basename file_path)) (folder_rules self) x with
        | Some seg => PosixPath.join a seg
        | None => a
        end).
      simpl. unfold level_segment.
      destruct (List.find _ (folder_rules self)); reflexivity. }
  rewrite foldl_omap. reflexivity.
Qed.

Section EmptyDestination.
Variable now : Z.
Variable strftime : Z -> fmt -> string.
Variable strptime_date : string -> option Z.
Variable self : FolderOrganizer.
Local Open Scope list_scope.

(** C10. When the filter that wins for a file is a [move] or
    [move_external] filter whose destination is the empty string, the
    filter pass returns that empty string and consults no further
    filter; both orchestrator loops take the empty string for "no
    directive", so the file is handled exactly as it would be with no
    filter configured at all: it goes straight to the folder rules.
    For a file that passes the exclusion test this is spelled out: with
    [d] the folder the rule segments lead to, which is what
    [get_destination] returns unless it is the target folder, the dry
    run plans the move to [d] and the apply run creates [d] when missing
    and moves the file there, and both leave the file alone when [d] is
    the target folder, empty, or the folder the file is in. *)
Theorem empty_destination_falls_through s root file n acc dacc l1 f l2 :
  let file_path := PosixPath.join root file in
  let d := foldl PosixPath.join (target_folder self)
             (segments strftime (node_meta n)
                (file_ext_of (PosixPath.basename file_path)) (folder_rules self)) in
  let placed := negb (String.eqb d (target_folder self)) && truthy_str d
                && negb (String.eqb d root) in
  fs s !! file_path = Some n ->
  filter_actions self = l1 ++ f :: l2 ->
  wins (applies now (mtime (node_meta n)) (PosixPath.basename file_path)) l1 f l2 ->
  In (action_type f) ["move"; "move_external"] ->
  destination f = EmptyString ->
  apply_filters now self file_path s = (Ok (Some EmptyString), s)
  /\ apply_file now strftime strptime_date self root acc file s
     = apply_file now strftime strptime_date (without_filters self) root acc file s
  /\ dry_file now strftime strptime_date self root dacc file s
     = dry_file now strftime strptime_date (without_filters self) root dacc file s
  /\ (excluded_pure strptime_date self file (fs s) = false ->
      get_destination strftime self file_path s
      = (Ok (if String.eqb d (target_folder self) then None else Some d), s)
      /\ dry_file now strftime strptime_date self root dacc file s
         = (Ok (if placed
                then {| files_to_move := files_to_move dacc ++ [(file_path, d)];
                        folders_to_create := folders_to_create dacc ∪ {[ d ]} |}
                else dacc), s)
      /\ apply_file now strftime strptime_date self root acc file s
         = (if placed
            then
              try_except
                (let! ex := OS.exists_ d in
                 let! acc' :=
                   if negb ex
                   then run! OS.makedirs now d in ret (add_folder d acc)
                   else ret acc in
                 try_except
                   (run! move_file self file_path d in ret (count_move acc'))
                   (record_error file acc'))
                (record_error file acc)
            else ret acc) s).
Proof.
  intros file_path d placed Hn Hl Hw Hact Hdest.
  assert (Hpass : apply_filters now self file_path s = (Ok (Some EmptyString), s)).
  { rewrite (apply_filters_winner now self s file_path n l1 f l2 Hn Hl Hw).
    - unfold directive. simpl in Hact.
      destruct Hact as [<-|[<-|[]]]; simpl; now rewrite Hdest.
    - unfold known_action. simpl in *. tauto. }
  assert (Hnone : apply_filters now (without_filters self) file_path s = (Ok None, s))
    by reflexivity.
  split; [exact Hpass|split; [|split]].
  - unfold apply_file. fold file_path.
    apply bind_cong_ro; [apply read_only_is_excluded|].
    intros [|]; [reflexivity|]. apply try_cong.
    rewrite (bind_ok _ _ _ _ _ Hpass), (bind_ok _ _ _ _ _ Hnone). reflexivity.
  - unfold dry_file. fold file_path.
    apply bind_cong_ro; [apply read_only_is_excluded|].
    intros [|]; [reflexivity|].
    rewrite (bind_ok _ _ _ _ _ Hpass), (bind_ok _ _ _ _ _ Hnone). reflexivity.
  - intros Hex.
    pose proof (get_destination_value strftime self s file_path n Hn) as Hdst.
    cbv zeta in Hdst. fold d in Hdst.
    split; [exact Hdst|split].
    + unfold dry_file. fold file_path.
      rewrite (bind_ok _ _ _ _ _ (is_excluded_ok _ _ _ _)), Hex.
      rewrite (bind_ok _ _ _ _ _ Hpass).
      change (truthy_opt_str (Some "")) with false. cbv iota.
      rewrite (bind_ok _ _ _ _ _ Hdst).
      subst placed. destruct (String.eqb d (target_folder self)); [reflexivity|].
      change (default "" (Some d)) with d.
      cbn [truthy_opt_str negb andb].
      destruct (truthy_str d && negb (String.eqb d root)); reflexivity.
    + unfold apply_file. fold file_path.
      rewrite (bind_ok _ _ _ _ _ (is_excluded_ok _ _ _ _)), Hex.
      unfold try_except at 1.
      rewrite (bind_ok _ _ _ _ _ Hpass).
      change (truthy_opt_str (Some "")) with false. cbv iota.
      rewrite (bind_ok _ _ _ _ _ Hdst).
      subst placed. destruct (String.eqb d (target_folder self)); [reflexivity|].
      change (default "" (Some d)) with d.
      cbn [truthy_opt_str negb andb].
      destruct (truthy_str d && negb (String.eqb d root)); reflexivity.
Qed.

End EmptyDestination.

(** ** The bounded loops are long enough *)

Lemma append_cons x (a b : string) : String x a ++ b = String x (a ++ b).
Proof. reflexivity. Qed.

Lemma append_nil (b : string) : "" ++ b = b.
Proof. reflexivity. Qed.

Lemma append_inv_head (a b c : string) : a ++ b = a ++ c -> b = c.
Proof.
  induction a as [|x a IH]; rewrite ?append_nil, ?append_cons; intros H;
    [exact H|injection H; auto].
Qed.

Lemma append_inv_tail (e b c : string) : b ++ e = c ++ e -> b = c.
Proof.
  revert c. induction b as [|x b IH]; intros [|y c] H.
  - reflexivity.
  - apply (f_equal String.length) in H. rewrite !length_append in H. simpl in H. lia.
  - apply (f_equal String.length) in H. rewrite !length_append in H. simpl in H. lia.
  - rewrite !append_cons in H. injection H as -> H. f_equal. now apply IH.
Qed.

Lemma all_char_app c (a b : string) :
  Str.all_char c (a ++ b) = Str.all_char c a && Str.all_char c b.
Proof.
  induction a as [|x a IH]; rewrite ?append_nil, ?append_cons; simpl; [reflexivity|].
  rewrite IH. now rewrite andb_assoc.
Qed.

Lemma rsplit_app c s h t : Str.rsplit c s = Some (h, t) -> s = h ++ String c t.
Proof.
  revert h t. induction s as [|a s IH]; intros h t; simpl; [discriminate|].
  destruct (Str.rsplit c s) as [[h' t']|].
  - intros [= <- <-]. rewrite append_cons. f_equal. now apply IH.
  - destruct (Ascii.eqb_spec a c) as [->|]; [|discriminate].
    intros [= <- <-]. reflexivity.
Qed.

Lemma rsplit_tail c s h t : Str.rsplit c s = Some (h, t) -> Str.rsplit c t = None.
Proof.
  revert h t. induction s as [|a s IH]; intros h t; simpl; [discriminate|].
  destruct (Str.rsplit c s) as [[h' t']|] eqn:E.
  - intros [= <- <-]. now apply (IH h').
  - destruct (Ascii.eqb a c); [|discriminate]. now intros [= <- <-].
Qed.

Lemma rsplit_none_head c a s : Str.rsplit c (String a s) = None -> a <> c.
Proof.
  simpl. destruct (Str.rsplit c s) as [[? ?]|]; [discriminate|].
  destruct (Ascii.eqb_spec a c); [discriminate|auto].
Qed.

Lemma basename_no_sep p : Str.rsplit PosixPath.sep (PosixPath.basename p) = None.
Proof.
  unfold PosixPath.basename.
  destruct (Str.rsplit PosixPath.sep p) as [[h t]|] eqn:E; [|exact E].
  exact (rsplit_tail _ _ _ _ E).
Qed.

Lemma startswith_sep_cons a b :
  Str.startswith "/" (String a b) = Ascii.eqb "/"%char a.
Proof.
  change (Str.startswith "/" (String a b))
    with (if Ascii.eqb "/"%char a then true else false).
  now destruct (Ascii.eqb "/"%char a).
Qed.

Lemma startswith_sep_none b :
  Str.rsplit PosixPath.sep b = None -> Str.startswith "/" b = false.
Proof.
  destruct b as [|a b]; [reflexivity|]. intros H%rsplit_none_head.
  rewrite startswith_sep_cons.
  destruct (Ascii.eqb_spec "/"%char a) as [<-|]; [now destruct H|reflexivity].
Qed.

Lemma startswith_prefix (a b : string) :
  a <> "" -> Str.startswith "/" (a ++ b) = Str.startswith "/" a.
Proof.
  destruct a as [|x a]; [congruence|]. intros _.
  now rewrite append_cons, !startswith_sep_cons.
Qed.

(** the stem that [move_file] numbers is not an absolute path *)
Lemma stem_not_absolute src :
  Str.startswith "/" (fst (PosixPath.splitext (PosixPath.basename src))) = false.
Proof.
  pose proof (basename_no_sep src) as Hb.
  unfold PosixPath.splitext. rewrite Hb. unfold PosixPath.splitext_name.
  destruct (Str.rsplit PosixPath.extsep (PosixPath.basename src)) as [[stem e]|] eqn:E;
    [|now apply startswith_sep_none].
  destruct (Str.all_char PosixPath.extsep stem); simpl;
    [now apply startswith_sep_none|].
  apply rsplit_app in E. apply startswith_sep_none in Hb. rewrite E in Hb.
  destruct stem as [|x stem]; [reflexivity|].
  now rewrite startswith_prefix in Hb.
Qed.

Section FreeName.
Variables dest_dir base ext : string.
Hypothesis Hbase : Str.startswith "/" base = false.

Local Abbreviation cand := (candidate dest_dir base ext).

Lemma numbered_not_absolute r : Str.startswith "/" (base ++ "_" ++ r) = false.
Proof.
  destruct base as [|x b]; [reflexivity|].
  now rewrite startswith_prefix.
Qed.

Lemma candidate_inj k1 k2 : cand k1 = cand k2 -> k1 = k2.
Proof.
  unfold candidate, PosixPath.join. rewrite !numbered_not_absolute.
  intros H. apply (inj (@pretty nat _)). unfold str_nat in H.
  destruct (_ || _); repeat apply append_inv_head in H;
    now apply append_inv_tail in H.
Qed.

Lemma candidate_not_root k : OS.is_root (cand k) = false.
Proof.
  unfold OS.is_root, candidate, PosixPath.join. rewrite numbered_not_absolute.
  apply andb_false_intro2.
  destruct (_ || _); rewrite !all_char_app; simpl;
    rewrite ?andb_false_r; reflexivity.
Qed.

Lemma candidate_in_dom (f : FS) k :
  OS.path_exists f (cand k) = true -> cand k ∈ dom f.
Proof.
  unfold OS.path_exists. rewrite candidate_not_root.
  destruct (f !! cand k) eqn:E; [|discriminate].
  intros _. apply elem_of_dom. eauto.
Qed.

Lemma free_name_found fuel counter p s q s' :
  free_name fuel dest_dir base ext counter p s = (Ok q, s') ->
  s' = s /\ OS.path_exists (fs s) q = false.
Proof.
  revert counter p. induction fuel as [|n IH]; intros counter p; simpl; [discriminate|].
  rewrite (bind_ok _ _ _ _ _ (exists_ok s p)).
  destruct (OS.path_exists (fs s) p) eqn:E.
  - apply IH.
  - intros [= <- <-]. auto.
Qed.

Lemma free_name_limit fuel counter p s e s' :
  free_name (S fuel) dest_dir base ext counter p s = (Raise e, s') ->
  forall i, (i < fuel)%nat -> OS.path_exists (fs s) (cand (counter + i)) = true.
Proof.
  revert counter p. induction fuel as [|n IH]; intros counter p H i Hi; [lia|].
  change (free_name (S (S n)) dest_dir base ext counter p s)
    with (bind (OS.exists_ p)
            (fun ex => if ex then free_name (S n) dest_dir base ext (S counter)
                                   (cand counter)
                       else ret p) s) in H.
  rewrite (bind_ok _ _ _ _ _ (exists_ok s p)) in H.
  destruct (OS.path_exists (fs s) p); [|discriminate].
  destruct i as [|j].
  - rewrite Nat.add_0_r.
    change (free_name (S n) dest_dir base ext (S counter) (cand counter) s)
      with (bind (OS.exists_ (cand counter))
              (fun ex => if ex then free_name n dest_dir base ext (S (S counter))
                                     (cand (S counter))
                         else ret (cand counter)) s) in H.
    rewrite (bind_ok _ _ _ _ _ (exists_ok s _)) in H.
    destruct (OS.path_exists (fs s) (cand counter)); [reflexivity|discriminate].
  - replace (counter + S j)%nat with (S counter + j)%nat by lia.
    apply (IH _ _ H). lia.
Qed.

(** The numbering loop of [move_file] always finds a free name within the
    rounds it is given. *)
Lemma free_name_total s counter p :
  exists q,
    free_name (S (S (size (fs s)))) dest_dir base ext counter p s = (Ok q, s)
    /\ OS.path_exists (fs s) q = false.
Proof.
  destruct (free_name (S (S (size (fs s)))) dest_dir base ext counter p s)
    as [[q|e] s'] eqn:E.
  - destruct (free_name_found _ _ _ _ _ _ E) as [-> Hq]. eauto.
  - exfalso.
    pose proof (free_name_limit _ _ _ _ _ _ E) as Hall.
    set (l := map (fun i => cand (counter + i)) (seq 0 (S (size (fs s))))).
    assert (Hnd : NoDup l).
    { apply NoDup_fmap_2; [|apply NoDup_seq].
      intros i j Hij. apply candidate_inj in Hij. lia. }
    assert (Hsub : list_to_set l ⊆ dom (fs s)).
    { intros x Hx. apply elem_of_list_to_set in Hx.
      apply list_elem_of_fmap in Hx as (i & -> & Hi).
      apply elem_of_seq in Hi. apply candidate_in_dom, Hall. lia. }
    apply subseteq_size in Hsub.
    rewrite size_list_to_set in Hsub by exact Hnd.
    rewrite size_dom in Hsub. subst l.
    rewrite length_map, length_seq in Hsub. lia.
Qed.

End FreeName.

Lemma rstrip_length c s : (String.length (Str.rstrip c s) <= String.length s)%nat.
Proof.
  induction s as [|a s IH]; [reflexivity|].
  change (Str.rstrip c (String a s))
    with (if Str.all_char c (String a s) then "" else String a (Str.rstrip c s)).
  destruct (Str.all_char c (String a s)); simpl; lia.
Qed.

Lemma dirname_length p :
  (String.length (PosixPath.dirname p) <= String.length p)%nat
  /\ (PosixPath.basename p <> "" ->
      String.length (PosixPath.dirname p) < String.length p)%nat.
Proof.
  unfold PosixPath.dirname, PosixPath.basename.
  destruct (Str.rsplit PosixPath.sep p) as [[h t]|] eqn:E.
  - apply rsplit_app in E. subst p.
    assert (Hh : (String.length (h ++ "/") = S (String.length h))%nat)
      by (rewrite length_append; simpl; lia).
    assert (Hp : (String.length (h ++ String PosixPath.sep t)
                  = S (String.length h + String.length t))%nat)
      by (rewrite length_append; simpl; lia).
    assert (Ht : t <> "" -> (0 < String.length t)%nat)
      by (destruct t; [congruence|simpl; lia]).
    pose proof (rstrip_length PosixPath.sep (h ++ "/")).
    destruct (Str.all_char PosixPath.sep (h ++ "/")); split; try intros Hne%Ht; lia.
  - split; [simpl; lia|]. destruct p; [congruence|simpl; lia].
Qed.

Lemma mkdir_no_limit now p s what : fst (OS.mkdir now p s) <> Raise (ModelLimit what).
Proof.
  unfold OS.mkdir, bind, get_fs, OS.parent_error. simpl.
  destruct (OS.path_exists (fs s) p); [discriminate|].
  destruct (negb (OS.parent_isdir (fs s) p)); [|discriminate].
  destruct (OS.path_exists (fs s) (PosixPath.dirname p)); discriminate.
Qed.

(** [makedirs] gives its recursion as many rounds as the path has
    characters, and never needs more *)
Lemma makedirs_go_no_limit now fuel name s what :
  (String.length name < fuel)%nat ->
  fst (OS.makedirs_go fuel now name s) <> Raise (ModelLimit what).
Proof.
  revert name s. induction fuel as [|n IH]; intros name s Hlen; [lia|].
  simpl.
  destruct (dirname_length name) as [Hle Hlt].
  destruct (dirname_length (PosixPath.dirname name)) as [Hle' Hlt'].
  set (ht := if String.eqb (PosixPath.basename name) "" then _ else _).
  assert (Hhead : truthy_str (snd ht) = true ->
                  (String.length (fst ht) < String.length name)%nat).
  { subst ht. unfold truthy_str.
    destruct (String.eqb_spec (PosixPath.basename name) ""); simpl;
      intros Ht%negb_true_iff%String.eqb_neq; [specialize (Hlt' Ht)|specialize (Hlt n0)];
      lia. }
  destruct ht as [head tail]. simpl in Hhead.
  unfold bind at 1, get_fs.
  destruct (truthy_str head && truthy_str tail && negb (OS.path_exists (fs s) head))
    eqn:Hmiss.
  - apply andb_prop in Hmiss as [Hmiss _]. apply andb_prop in Hmiss as [_ Ht].
    specialize (Hhead Ht).
    unfold bind, try_except.
    pose proof (IH head s ltac:(lia)) as Hrec.
    destruct (OS.makedirs_go n now head s) as [[[]|e] s1]; simpl in *.
    + destruct (String.eqb tail "."); simpl; [discriminate|].
      pose proof (mkdir_no_limit now name s1 what) as Hm.
      destruct (OS.mkdir now name s1) as [[[]|e] s2]; simpl in *; [discriminate|].
      unfold get_fs. destruct (OS.isdir (fs s2) name); simpl; [discriminate|exact Hm].
    + destruct e; simpl; try discriminate.
      * destruct (String.eqb tail "."); simpl; [discriminate|].
        pose proof (mkdir_no_limit now name s1 what) as Hm.
        destruct (OS.mkdir now name s1) as [[[]|e] s2]; simpl in *; [discriminate|].
        unfold get_fs. destruct (OS.isdir (fs s2) name); simpl; [discriminate|exact Hm].
      * exact Hrec.
  - unfold bind, try_except, ret. simpl.
    pose proof (mkdir_no_limit now name s what) as Hm.
    destruct (OS.mkdir now name s) as [[[]|e] s2]; simpl in *; [discriminate|].
    unfold get_fs. destruct (OS.isdir (fs s2) name); simpl; [discriminate|exact Hm].
Qed.

Lemma makedirs_no_limit now name s what :
  fst (OS.makedirs now name s) <> Raise (ModelLimit what).
Proof. apply makedirs_go_no_limit. lia. Qed.

(** With deduplication off a collision ends in a move to a free name. *)
Lemma move_file_numbered self s src dest_dir :
  delete_duplicates (settings self) = false ->
  OS.path_exists (fs s) (PosixPath.join dest_dir (PosixPath.basename src)) = true ->
  exists q,
    OS.path_exists (fs s) q = false
    /\ move_file self src dest_dir s
       = bind (OS.move src q)
           (fun _ => log_append ("Moved: " ++ src ++ " → " ++ q)) s.
Proof.
  intros Hoff Hex. unfold move_file.
  rewrite (bind_ok _ _ _ _ _ (exists_ok s _)), Hex, Hoff.
  destruct (PosixPath.splitext (PosixPath.basename src)) as [base ext] eqn:E.
  assert (Hbase : Str.startswith "/" base = false).
  { pose proof (stem_not_absolute src) as H. now rewrite E in H. }
  destruct (free_name_total dest_dir base ext Hbase s 1
              (PosixPath.join dest_dir (PosixPath.basename src))) as (q & Hq & Hfree).
  exists q. split; [exact Hfree|].
  unfold bind at 1. unfold bind at 1. unfold get_fs at 1. unfold bind at 1.
  rewrite Hq. reflexivity.
Qed.

(** ** What the backup log holds *)

Lemma keeps_log_ret {A} (a : A) : keeps_log (ret a).
Proof. intros s. reflexivity. Qed.

Lemma keeps_log_raise {A} e : keeps_log (@raise A e).
Proof. intros s. reflexivity. Qed.

Lemma keeps_log_get_fs : keeps_log get_fs.
Proof. intros s. reflexivity. Qed.

Lemma keeps_log_put_fs f : keeps_log (put_fs f).
Proof. intros s. reflexivity. Qed.

Lemma keeps_log_bind {A B} (m : M A) (k : A -> M B) :
  keeps_log m -> (forall a, keeps_log (k a)) -> keeps_log (bind m k).
Proof.
  intros Hm Hk s. unfold bind. specialize (Hm s).
  destruct (m s) as [[a|e] s']; simpl in *; [|exact Hm].
  rewrite Hk. exact Hm.
Qed.

Lemma keeps_log_try {A} (m : M A) (h : exn -> M A) :
  keeps_log m -> (forall e, keeps_log (h e)) -> keeps_log (try_except m h).
Proof.
  intros Hm Hh s. unfold try_except. specialize (Hm s).
  destruct (m s) as [[a|e] s']; simpl in *; [exact Hm|].
  rewrite Hh. exact Hm.
Qed.

#[local] Hint Resolve keeps_log_ret keeps_log_raise keeps_log_get_fs
  keeps_log_put_fs : kl.

Ltac kl_step :=
  match goal with
  | |- keeps_log (bind _ _) => apply keeps_log_bind; [|intros ?]
  | |- keeps_log (try_except _ _) => apply keeps_log_try; [|intros ?]
  | |- keeps_log (if ?b then _ else _) => destruct b
  | |- keeps_log (match ?x with _ => _ end) => destruct x
  | |- keeps_log _ => solve [auto with kl]
  end.
Ltac kl := repeat kl_step.

Lemma keeps_log_mkdir now p : keeps_log (OS.mkdir now p).
Proof. unfold OS.mkdir. kl. Qed.

Lemma keeps_log_makedirs_go fuel now name : keeps_log (OS.makedirs_go fuel now name).
Proof.
  revert name. induction fuel as [|n IH]; intros name; simpl; [apply keeps_log_raise|].
  destruct (if String.eqb (PosixPath.basename name) "" then _ else _) as [head tail].
  pose proof (IH head). pose proof (keeps_log_mkdir now name). kl; auto.
Qed.

(** [create_backup_log] stores the operation log as it is when it is
    called, and leaves the log itself alone. *)
Lemma create_backup_log_snapshot now strftime self s s' :
  create_backup_log now strftime self s = (Ok tt, s') ->
  log s' = log s
  /\ exists m,
       fs s' !! PosixPath.join (log_directory (settings self))
                  ("backup_" ++ strftime now Fmt_stamp ++ ".json")
       = Some (File m (BackupData (strftime now Fmt_stamp) (target_folder self) (log s))).
Proof.
  unfold create_backup_log, OS.makedirs.
  pose proof (keeps_log_makedirs_go
                (S (String.length (log_directory (settings self)))) now
                (log_directory (settings self)) s) as Hk.
  unfold bind at 1.
  destruct (OS.makedirs_go _ now _ s) as [[[]|e] s1]; [|discriminate].
  simpl in Hk. unfold bind at 1, get_log. rewrite Hk.
  unfold OS.write_file, bind, get_fs, put_fs, raise.
  set (p := PosixPath.join _ _).
  destruct (fs s1 !! p) as [[m c|m]|] eqn:E.
  - intros [= <-]. simpl. split; [exact Hk|]. eexists. apply lookup_insert_eq.
  - discriminate.
  - destruct (OS.is_root p); [discriminate|].
    destruct (negb (OS.parent_isdir (fs s1) p)); [discriminate|].
    intros [= <-]. simpl. split; [exact Hk|]. eexists. apply lookup_insert_eq.
Qed.

(** An apply run writes the backup log first: what follows the call is
    the walk, which starts from the state the call left. *)
Lemma apply_scan_backup_first now strftime strptime_date scandir self fuel s s1 :
  create_backup_log_enabled (settings self) = true ->
  create_backup_log now strftime self s = (Ok tt, s1) ->
  apply_scan now strftime strptime_date scandir self fuel s
  = os_walk scandir fuel (target_folder self)
      (apply_body now strftime strptime_date self)
      {| moved_count := 0; created_folders := ∅; errors := [] |} s1.
Proof.
  intros Hen Hb. unfold apply_scan. rewrite Hen.
  now rewrite (bind_ok _ _ _ _ _ Hb).
Qed.

(** ** The scenarios, evaluated *)

(** the default layout at work: the old temporary file is deleted by the
    filter, the report goes under the month and then under its kind, and
    the picture in the sub-folder follows, its extension lower-cased for
    the test only *)
Example nested_run_ex :
  let s' := snd (organize now_demo strftime_demo strptime_demo scandir_fs
                   (nested_organizer false) 5 nested_state) in
  fs s' !! "/t/Mar/Documents/report.pdf" = Some (file_of 1710000000 "r")
  /\ fs s' !! "/t/old.tmp" = None
  /\ fs s' !! "/t/Mar/Images/x.PNG" = Some (file_of 5 "x")
  /\ log s' = [ "Deleted: /t/old.tmp";
                "Moved: /t/report.pdf → /t/Mar/Documents/report.pdf";
                "Moved: /t/sub/x.PNG → /t/Mar/Images/x.PNG" ].
Proof. vm_compute. repeat split; reflexivity. Qed.

(** an unknown action kind lets the pass go on to the next filter *)
Example unknown_action_ex :
  fst (apply_filters now_demo
         (mk_organizer []
            [ mk_filter [] "" None "archive" "/x" "" 9;
              mk_filter [] "" None "delete" "" "" 1 ] false false false)
         "/t/a.tmp" tie_state) = Ok (Some "DELETE").
Proof. reflexivity. Qed.

Lemma apply_filters_first_match_witness :
  fs tie_state !! "/t/a.tmp" = Some (file_of 5 "a")
  /\ apply_filters now_demo tie_organizer "/t/a.tmp" tie_state
     = (Ok (Some "/archive"), tie_state).
Proof.
  split; [reflexivity|].
  destruct (apply_filters_first_match now_demo tie_organizer tie_state "/t/a.tmp"
              (file_of 5 "a") eq_refl) as (_ & _ & Hwin & _).
  rewrite (Hwin [] (mk_filter [".tmp"] "" None "move" "/archive" "" 5)
             (tl tie_filters) eq_refl).
  - reflexivity.
  - split; [reflexivity|split].
    + intros g [].
    + intros g [<-|[<-|[]]] H; [unfold mk_filter; simpl; lia|].
      vm_compute in H. discriminate H.
  - unfold known_action. simpl. tauto.
Defined.

Lemma get_destination_levels_witness :
  fs nested_state !! "/t/report.pdf" = Some (file_of 1710000000 "r")
  /\ get_destination strftime_demo (nested_organizer false) "/t/report.pdf" nested_state
     = (Ok (Some "/t/Mar/Documents"), nested_state).
Proof.
  split; [reflexivity|].
  destruct (get_destination_levels strftime_demo (nested_organizer false) nested_state
              "/t/report.pdf" (file_of 1710000000 "r") eq_refl) as (H & _).
  rewrite H. reflexivity.
Defined.

Lemma move_file_dedup_witness :
  delete_duplicates (settings dedup_organizer) = true
  /\ "/t/a.txt" <> "/t/Documents/a.txt"
  /\ fs (dedup_state 5 9) !! "/t/a.txt" = Some (file_of 5 "A")
  /\ fs (dedup_state 5 9) !! "/t/Documents/a.txt" = Some (file_of 9 "B")
  /\ move_file dedup_organizer "/t/a.txt" "/t/Documents" (dedup_state 5 9)
     = (Ok tt, {| fs := delete "/t/a.txt" (fs (dedup_state 5 9)); log := [] |}).
Proof.
  split; [reflexivity|split; [discriminate|split; [reflexivity|split; [reflexivity|]]]].
  destruct (move_file_dedup dedup_organizer eq_refl (dedup_state 5 9)
              "/t/a.txt" "/t/Documents" (meta0 5) (Opaque "A") (meta0 9) (Opaque "B"))
    as [Hold _]; [discriminate|reflexivity|reflexivity|].
  apply Hold. simpl. lia.
Defined.

(** C6, counterexample.  With equal modification times the source is not
    the older file, yet it is the source that is deleted: the existing
    destination file stays and nothing is moved in. *)
Lemma dedup_tie_keeps_destination :
  let s' := snd (move_file dedup_organizer "/t/a.txt" "/t/Documents" (dedup_state 5 5)) in
  ~ (mtime (meta0 5) < mtime (meta0 5))
  /\ fs s' !! "/t/Documents/a.txt" = Some (file_of 5 "B")
  /\ fs s' !! "/t/Documents/a.txt" <> Some (file_of 5 "A")
  /\ fs s' !! "/t/a.txt" = None.
Proof.
  vm_compute. split; [discriminate|split; [reflexivity|split; [discriminate|reflexivity]]].
Qed.

Lemma dry_run_changes_nothing_witness :
  dry_run (nested_organizer true) = true
  /\ snd (organize now_demo strftime_demo strptime_demo scandir_fs
            (nested_organizer true) 5 nested_state) = nested_state.
Proof.
  split; [reflexivity|].
  exact (proj1 (dry_run_changes_nothing now_demo strftime_demo strptime_demo scandir_fs
                  (nested_organizer true) eq_refl 5 nested_state)).
Defined.

Lemma extension_match_file_side_witness :
  Str.lower "Report.PDF" = Str.lower "report.pdf"
  /\ file_ext_of "Report.PDF" = file_ext_of "report.pdf".
Proof.
  split; [reflexivity|].
  exact (proj1 (extension_match_file_side strftime_demo
                  (ext_rule 1 "Documents" [".pdf"]) "Report.PDF" "report.pdf" eq_refl)).
Defined.

(** C9, counterexample.  The spelling of a configured extension decides:
    [".pdf"] places [report.pdf], while [".PDF"], which differs in case
    only, and ["pdf"], which lacks the separator, leave it where it is. *)
Lemma configured_extension_verbatim :
  Str.lower ".PDF" = Str.lower ".pdf"
  /\ fst (get_destination strftime_demo (spelled_organizer ".pdf")
            "/t/report.pdf" spelled_state) = Ok (Some "/t/Documents")
  /\ fst (get_destination strftime_demo (spelled_organizer ".PDF")
            "/t/report.pdf" spelled_state) = Ok None
  /\ fst (get_destination strftime_demo (spelled_organizer "pdf")
            "/t/report.pdf" spelled_state) = Ok None.
Proof. repeat split; reflexivity. Qed.

Lemma empty_destination_falls_through_witness :
  fs rename_state !! "/t/a.txt" = Some (file_of 5 "a")
  /\ excluded_pure strptime_demo (blank_organizer false) "a.txt" (fs rename_state) = false
  /\ apply_filters now_demo (blank_organizer false) "/t/a.txt" rename_state
     = (Ok (Some ""), rename_state)
  /\ dry_file now_demo strftime_demo strptime_demo (blank_organizer false)
       "/t" {| files_to_move := []; folders_to_create := ∅ |} "a.txt" rename_state
     = (Ok {| files_to_move := [("/t/a.txt", "/t/Documents")];
              folders_to_create := ∅ ∪ {[ "/t/Documents" ]} |}, rename_state)
  /\ fs (snd (apply_file now_demo strftime_demo strptime_demo (blank_organizer false)
                "/t" {| moved_count := 0; created_folders := ∅; errors := [] |}
                "a.txt" rename_state)) !! "/t/Documents/a.txt"
     = Some (file_of 5 "a").
Proof.
  split; [reflexivity|split; [reflexivity|]].
  destruct (empty_destination_falls_through now_demo strftime_demo strptime_demo
              (blank_organizer false) rename_state "/t" "a.txt" (file_of 5 "a")
              {| moved_count := 0; created_folders := ∅; errors := [] |}
              {| files_to_move := []; folders_to_create := ∅ |}
              [mk_filter [] "" None "delete" "" "" 1]
              (mk_filter [".txt"] "" None "move" "" "" 7) [])
    as (Hpass & _ & _ & Hrules).
  - reflexivity.
  - reflexivity.
  - split; [reflexivity|split].
    + intros g [<-|[]] _. unfold mk_filter. simpl. lia.
    + intros g [].
  - simpl. tauto.
  - reflexivity.
  - destruct (Hrules eq_refl) as (_ & Hdry & Happly).
    split; [exact Hpass|split].
    + rewrite Hdry. reflexivity.
    + rewrite Happly. reflexivity.
Defined.

(** C3, on the code.  A file renamed by a filter is afterwards looked for
    under its old path: the renamed file stays where it was, the folder
    the rules give is created and left empty, and the move is reported as
    an error about the old name. *)
Theorem rename_then_original_path :
  let '(r, s') := apply_scan now_demo strftime_demo strptime_demo scandir_fs
                    rename_organizer 5 rename_state in
  fs s' !! "/t/a.txt" = None
  /\ fs s' !! "/t/new_a.txt" = Some (file_of 5 "a")
  /\ fs s' !! "/t/Documents" = Some (Dir (meta0 now_demo))
  /\ fs s' !! "/t/Documents/new_a.txt" = None
  /\ fs s' !! "/t/Documents/a.txt" = None
  /\ log s' = []
  /\ match r with
     | Ok t => moved_count t = 0%nat
               /\ errors t = ["Error moving a.txt: [Errno 2] No such file or directory: '/t/a.txt'"]
     | Raise _ => False
     end.
Proof. vm_compute. repeat split; reflexivity. Qed.

(** C4, on the code.  The backup log is written once, but before the walk
    starts: the file on disk holds an empty operations list, while the log
    of the run ends with the two records of what was done. *)
Theorem backup_log_written_before_run :
  let s' := snd (perform_organization now_demo strftime_demo strptime_demo scandir_fs
                   backup_organizer 5 backup_state) in
  log s' = ["Moved: /t/a.txt → /t/Documents/a.txt"; "Deleted: /t/b.tmp"]
  /\ fs s' !! "/logs/backup_20240315_120000.json"
     = Some (File (meta0 now_demo) (BackupData "20240315_120000" "/t" [])).
Proof. vm_compute. split; reflexivity. Qed.

(** C5, on the code.  The deletions of the deduplication leave no record.
    An older source is deleted and the log stays empty (the run still
    counts a move); a newer source replaces the existing file, and the log
    has the move but nothing about the file that was destroyed. *)
Theorem dedup_deletions_not_logged :
  (let '(r, s') := apply_scan now_demo strftime_demo strptime_demo scandir_fs
                     dedup_organizer 5 (dedup_state 5 9) in
   fs s' !! "/t/a.txt" = None
   /\ fs s' !! "/t/Documents/a.txt" = Some (file_of 9 "B")
   /\ log s' = []
   /\ match r with Ok t => moved_count t = 1%nat /\ errors t = [] | Raise _ => False end)
  /\ (let s' := snd (apply_scan now_demo strftime_demo strptime_demo scandir_fs
                       dedup_organizer 5 (dedup_state 9 5)) in
      fs s' !! "/t/a.txt" = None
      /\ fs s' !! "/t/Documents/a.txt" = Some (file_of 9 "A")
      /\ log s' = ["Moved: /t/a.txt → /t/Documents/a.txt"]).
Proof. vm_compute. repeat split; reflexivity. Qed.

(** C8, on the code.  A move that a filter directs goes to its destination
    as it is: the directory is not created, the move fails, the file stays
    and the failure is reported.  The move that the folder rules direct
    does create its directory. *)
Theorem filter_move_missing_directory :
  (let '(r, s') := apply_scan now_demo strftime_demo strptime_demo scandir_fs
                     invoice_organizer 5 invoice_state in
   fs s' !! "/home/u/Invoices" = None
   /\ fs s' !! "/home/u/Invoices/Invoice_7.pdf" = None
   /\ fs s' !! "/t/Invoice_7.pdf" = Some (file_of 5 "i")
   /\ match r with
      | Ok t => moved_count t = 0%nat
                /\ errors t = ["Error moving Invoice_7.pdf: [Errno 2] No such file or directory: '/home/u/Invoices/Invoice_7.pdf'"]
      | Raise _ => False
      end)
  /\ (let s' := snd (apply_scan now_demo strftime_demo strptime_demo scandir_fs
                       (without_filters invoice_organizer) 5 invoice_state) in
      fs s' !! "/t/Documents" = Some (Dir (meta0 now_demo))
      /\ fs s' !! "/t/Documents/Invoice_7.pdf" = Some (file_of 5 "i")).
Proof. vm_compute. repeat split; reflexivity. Qed.

(** * Further properties of the engine *)

(** ** The exclusion test *)

(** X1. [is_excluded] never raises and never changes anything.  A name
    that contains one of the exclude patterns is excluded.  The cutoff
    date is compared with the entry stored under the bare file name, not
    under the path of the file: when the date does not parse, or no entry
    has the bare name, the date excludes nothing, whatever the file under
    its real path is like. *)
Theorem is_excluded_total strptime_date self filename s :
  is_excluded strptime_date self filename s
  = (Ok (excluded_pure strptime_date self filename (fs s)), s)
  /\ (forall pattern, In pattern (exclude_files (settings self)) ->
      Str.contains pattern filename = true ->
      excluded_pure strptime_date self filename (fs s) = true)
  /\ (fs s !! filename = None ->
      excluded_pure strptime_date self filename (fs s)
      = existsb (fun pattern => Str.contains pattern filename)
          (exclude_files (settings self)))
  /\ (forall d, exclude_before_date (settings self) = Some d ->
      strptime_date d = None ->
      excluded_pure strptime_date self filename (fs s)
      = existsb (fun pattern => Str.contains pattern filename)
          (exclude_files (settings self))).
Proof.
  split; [apply is_excluded_ok|]. unfold excluded_pure. split; [|split].
  - intros pattern Hin Hc.
    assert (existsb (fun pattern => Str.contains pattern filename)
              (exclude_files (settings self)) = true) as ->
      by (apply existsb_exists; eauto).
    reflexivity.
  - intros ->. destruct (exclude_before_date (settings self)) as [d|];
      [|now rewrite orb_false_r].
    destruct (strptime_date d); now rewrite andb_false_r, orb_false_r.
  - intros d -> ->. now rewrite andb_false_r, orb_false_r.
Qed.

(** ** One file of an apply run *)

Lemma tally_step_same file t : tally_step file t t.
Proof.
  split; [reflexivity|split; [lia|left; split; [reflexivity|lia]]].
Qed.

Lemma tally_step_error file t e :
  tally_step file t
    {| moved_count := moved_count t; created_folders := created_folders t;
       errors := app (errors t) ["Error moving " ++ file ++ ": " ++ exn_str e] |}.
Proof.
  split; [reflexivity|split; [simpl; lia|right; exists e; split; reflexivity]].
Qed.

Lemma tally_step_move file t : tally_step file t (count_move t).
Proof.
  split; [reflexivity|split; [simpl; lia|left; split; [reflexivity|simpl; lia]]].
Qed.

Lemma size_add_folder d (X : gset string) : (size (X ∪ {[ d ]}) <= S (size X))%nat.
Proof.
  rewrite size_union_alt.
  assert (Hs : (size (({[ d ]} : gset string) ∖ X) <= 1)%nat).
  { rewrite <- (size_singleton (C := gset string) d).
    apply subseteq_size. intros x Hx. now apply elem_of_difference in Hx as [Hx _]. }
  lia.
Qed.

Lemma tally_step_folder_move file d t : tally_step file t (count_move (add_folder d t)).
Proof.
  split; [simpl; set_solver|split; [simpl; apply size_add_folder|]].
  left. split; [reflexivity|simpl; lia].
Qed.

Lemma tally_step_folder_error file d t e :
  tally_step file t
    {| moved_count := moved_count (add_folder d t);
       created_folders := created_folders (add_folder d t);
       errors := app (errors (add_folder d t))
                   ["Error moving " ++ file ++ ": " ++ exn_str e] |}.
Proof.
  split; [simpl; set_solver|split; [simpl; apply size_add_folder|]].
  right. exists e. split; reflexivity.
Qed.

(** X2. Whatever happens to one file of an apply run, [apply_file] does
    not raise: a failure becomes one error line that names the file.  The
    tally only grows: at most one folder is added to the created folders,
    and either at most one move is counted or exactly one error is
    recorded, never both for the same file. *)
Theorem apply_file_never_raises now strftime strptime_date self root acc file s :
  exists t', fst (apply_file now strftime strptime_date self root acc file s) = Ok t'
             /\ tally_step file acc t'.
Proof.
  unfold apply_file.
  rewrite (bind_ok _ _ _ _ _ (is_excluded_ok strptime_date self file s)).
  destruct (excluded_pure strptime_date self file (fs s));
    [eexists; split; [reflexivity|apply tally_step_same]|].
  unfold try_except at 1, bind at 1.
  destruct (apply_filters now self (PosixPath.join root file) s) as [[r|e] s1];
    [|eexists; split; [reflexivity|apply tally_step_error]].
  destruct (truthy_opt_str r).
  - destruct (String.eqb (default "" r) "DELETE").
    + unfold bind, log_append, ret.
      destruct (OS.remove (PosixPath.join root file) s1) as [[[]|e] s2];
        eexists; (split; [reflexivity|]);
        [apply tally_step_same|apply tally_step_error].
    + destruct (negb (String.eqb (default "" r) "EXCLUDE"));
        [|eexists; split; [reflexivity|apply tally_step_same]].
      unfold bind, ret.
      destruct (move_file self (PosixPath.join root file) (default "" r) s1)
        as [[[]|e] s2]; eexists; (split; [reflexivity|]);
        [apply tally_step_move|apply tally_step_error].
  - unfold bind at 1.
    destruct (get_destination strftime self (PosixPath.join root file) s1)
      as [[dest|e] s2]; [|eexists; split; [reflexivity|apply tally_step_error]].
    destruct (truthy_opt_str dest && negb (String.eqb (default "" dest) root));
      [|eexists; split; [reflexivity|apply tally_step_same]].
    rewrite (bind_ok _ _ _ _ _ (exists_ok s2 _)).
    destruct (negb (OS.path_exists (fs s2) (default "" dest))).
    + unfold bind at 1. unfold bind at 1.
      destruct (OS.makedirs now (default "" dest) s2) as [[[]|e] s3];
        [|eexists; split; [reflexivity|apply tally_step_error]].
      unfold ret at 1. unfold try_except, bind, ret, record_error.
      destruct (move_file self (PosixPath.join root file) (default "" dest) s3)
        as [[[]|e] s4]; eexists; (split; [reflexivity|]);
        [apply tally_step_folder_move|apply tally_step_folder_error].
    + unfold bind at 1, ret at 1. unfold try_except, bind, ret, record_error.
      destruct (move_file self (PosixPath.join root file) (default "" dest) s2)
        as [[[]|e] s4]; eexists; (split; [reflexivity|]);
        [apply tally_step_move|apply tally_step_error].
Qed.

(** ** The operation log only grows *)

Lemma log_grows_keeps {A} (m : M A) : keeps_log m -> log_grows m.
Proof.
  intros H s. exists []. split; [now rewrite H, app_nil_r|constructor].
Qed.

Lemma keeps_log_read_only {A} (m : M A) : read_only m -> keeps_log m.
Proof. intros H s. now rewrite H. Qed.

Lemma log_grows_bind {A B} (m : M A) (k : A -> M B) :
  log_grows m -> (forall a, log_grows (k a)) -> log_grows (bind m k).
Proof.
  intros Hm Hk s. unfold bind. destruct (Hm s) as (l & Hl & Hr).
  destruct (m s) as [[a|e] s']; simpl in *; [|eauto].
  destruct (Hk a s') as (l' & Hl' & Hr').
  exists (app l l'). split; [now rewrite Hl', Hl, app_assoc|].
  apply Forall_app; auto.
Qed.

Lemma log_grows_try {A} (m : M A) (h : exn -> M A) :
  log_grows m -> (forall e, log_grows (h e)) -> log_grows (try_except m h).
Proof.
  intros Hm Hh s. unfold try_except. destruct (Hm s) as (l & Hl & Hr).
  destruct (m s) as [[a|e] s']; simpl in *; [eauto|].
  destruct (Hh e s') as (l' & Hl' & Hr').
  exists (app l l'). split; [now rewrite Hl', Hl, app_assoc|].
  apply Forall_app; auto.
Qed.

Lemma log_grows_ret {A} (a : A) : log_grows (ret a).
Proof. apply log_grows_keeps, keeps_log_ret. Qed.

Lemma log_grows_raise {A} e : log_grows (@raise A e).
Proof. apply log_grows_keeps, keeps_log_raise. Qed.

Lemma log_grows_append line : is_record line -> log_grows (log_append line).
Proof. intros H s. exists [line]. split; [reflexivity|now constructor]. Qed.

Lemma log_grows_foldM {A T} (body : T -> A -> M T) l acc :
  (forall a x, log_grows (body a x)) -> log_grows (foldM body l acc).
Proof.
  intros H. revert acc. induction l as [|x l IH]; intros acc; simpl.
  - apply log_grows_ret.
  - apply log_grows_bind; [apply H|intros; apply IH].
Qed.

Lemma keeps_log_remove p : keeps_log (OS.remove p).
Proof. unfold OS.remove. kl. Qed.

Lemma keeps_log_rename src dst : keeps_log (OS.rename src dst).
Proof. unfold OS.rename. kl. Qed.

Lemma keeps_log_move src dst : keeps_log (OS.move src dst).
Proof. pose proof (keeps_log_rename src). unfold OS.move. kl; auto. Qed.

Lemma keeps_log_makedirs now name : keeps_log (OS.makedirs now name).
Proof. apply keeps_log_makedirs_go. Qed.

Lemma keeps_log_write_file now p c : keeps_log (OS.write_file now p c).
Proof. unfold OS.write_file. kl. Qed.

Create HintDb lg discriminated.
#[local] Hint Resolve log_grows_ret log_grows_raise : lg.
#[local] Hint Extern 1 (log_grows (OS.remove _)) =>
  apply log_grows_keeps, keeps_log_remove : lg.
#[local] Hint Extern 1 (log_grows (OS.rename _ _)) =>
  apply log_grows_keeps, keeps_log_rename : lg.
#[local] Hint Extern 1 (log_grows (OS.move _ _)) =>
  apply log_grows_keeps, keeps_log_move : lg.
#[local] Hint Extern 1 (log_grows (OS.makedirs _ _)) =>
  apply log_grows_keeps, keeps_log_makedirs : lg.
#[local] Hint Extern 1 (log_grows (OS.write_file _ _ _)) =>
  apply log_grows_keeps, keeps_log_write_file : lg.
#[local] Hint Extern 1 (log_grows (OS.exists_ _)) =>
  apply log_grows_keeps, keeps_log_read_only, read_only_exists : lg.
#[local] Hint Extern 1 (log_grows (OS.getmtime _)) =>
  apply log_grows_keeps, keeps_log_read_only, read_only_getmtime : lg.
#[local] Hint Extern 1 (log_grows get_fs) =>
  apply log_grows_keeps, keeps_log_get_fs : lg.
#[local] Hint Extern 1 (log_grows get_log) =>
  apply log_grows_keeps, keeps_log_read_only, read_only_get_log : lg.
#[local] Hint Extern 1 (log_grows (is_excluded _ _ _)) =>
  apply log_grows_keeps, keeps_log_read_only, read_only_is_excluded : lg.
#[local] Hint Extern 1 (log_grows (get_destination _ _ _)) =>
  apply log_grows_keeps, keeps_log_read_only, read_only_get_destination : lg.
#[local] Hint Extern 1 (log_grows (filter_matches _ _ _ _ _)) =>
  apply log_grows_keeps, keeps_log_read_only, read_only_filter_matches : lg.

Ltac lg_step :=
  match goal with
  | |- log_grows (bind _ _) => apply log_grows_bind; [|intros ?]
  | |- log_grows (try_except _ _) => apply log_grows_try; [|intros ?]
  | |- log_grows (foldM _ _ _) => apply log_grows_foldM; intros ? ?
  | |- log_grows (log_append _) =>
      apply log_grows_append; solve [left; reflexivity | right; reflexivity]
  | |- log_grows (if ?b then _ else _) => destruct b
  | |- log_grows (match ?x with _ => _ end) => destruct x
  | |- log_grows _ => solve [auto with lg]
  end.
Ltac lg := repeat lg_step.

Section LogGrows.
Variable now : Z.
Variable strftime : Z -> fmt -> string.
Variable strptime_date : string -> option Z.
Variable scandir : FS -> string -> list string * list string.
Variable self : FolderOrganizer.

Lemma log_grows_free_name fuel dest_dir base ext counter p :
  log_grows (free_name fuel dest_dir base ext counter p).
Proof.
  revert counter p. induction fuel as [|n IH]; intros counter p; simpl; lg.
Qed.

Lemma log_grows_move_file src dest_dir : log_grows (move_file self src dest_dir).
Proof.
  unfold move_file.
  pose proof log_grows_free_name. lg; auto.
Qed.

Lemma log_grows_apply_filters file_path : log_grows (apply_filters now self file_path).
Proof.
  unfold apply_filters.
  induction (sorted_desc priority (filter_actions self)) as [|f l IH]; simpl; lg; auto.
Qed.

Lemma log_grows_apply_file root acc file :
  log_grows (apply_file now strftime strptime_date self root acc file).
Proof.
  unfold apply_file, record_error.
  pose proof log_grows_apply_filters. pose proof log_grows_move_file.
  lg; auto.
Qed.

Lemma log_grows_os_walk {T} (body : string -> list string -> T -> M T) fuel :
  (forall root files acc, log_grows (body root files acc)) ->
  forall top acc, log_grows (os_walk scandir fuel top body acc).
Proof.
  intros Hb. induction fuel as [|n IH]; intros top acc; simpl.
  - apply log_grows_raise.
  - apply log_grows_bind; [auto with lg|intros f].
    destruct (negb (OS.isdir f top)); [apply log_grows_ret|].
    destruct (scandir f top) as [dirs files].
    apply log_grows_bind; [apply Hb|intros acc'].
    apply log_grows_foldM. intros a d. apply IH.
Qed.

Lemma log_grows_create_backup_log : log_grows (create_backup_log now strftime self).
Proof. unfold create_backup_log. lg. Qed.

(** X3. The operation log is append-only.  A run of either kind, whether
    it ends with a report or with an exception, leaves every line that
    was in the log in place, and each line it adds is a ["Moved: "] or a
    ["Deleted: "] record. *)
Theorem organize_log_grows fuel :
  log_grows (organize now strftime strptime_date scandir self fuel).
Proof.
  unfold organize. destruct (dry_run self) eqn:Hdry.
  - apply log_grows_keeps, keeps_log_read_only.
    unfold generate_dry_run_report. apply read_only_bind; [|intros; apply read_only_ret].
    now apply read_only_dry_scan.
  - unfold perform_organization, apply_scan.
    pose proof log_grows_create_backup_log.
    apply log_grows_bind; [|intros; apply log_grows_ret].
    apply log_grows_bind; [destruct (create_backup_log_enabled _); auto with lg|intros _].
    apply log_grows_os_walk. intros root files acc. unfold apply_body.
    destruct (in_organized_folder self root); [apply log_grows_ret|].
    apply log_grows_foldM. intros a x. apply log_grows_apply_file.
Qed.

End LogGrows.

(** ** The file mover without deduplication *)

Lemma move_to_free_keeps src q s (k : unit -> M unit) p n :
  OS.path_exists (fs s) q = false ->
  (forall u, keeps_fs (k u)) ->
  p <> src -> fs s !! p = Some n ->
  fs (snd (bind (OS.move src q) k s)) !! p = Some n.
Proof.
  intros Hq Hk Hp Hn. unfold OS.path_exists in Hq.
  destruct (fs s !! q) eqn:Eq; [discriminate|].
  unfold bind at 1. unfold OS.move, bind at 1, get_fs, OS.isdir. rewrite Eq, Hq.
  unfold OS.rename, bind, get_fs, put_fs, raise, ret.
  destruct (fs s !! src) as [[m c|m]|]; try exact Hn.
  destruct (String.eqb src q); [now rewrite Hk|].
  destruct (negb (OS.parent_isdir (fs s) q)); [exact Hn|].
  rewrite Eq. rewrite Hk. simpl.
  rewrite lookup_insert_ne by (intros ->; congruence).
  now rewrite lookup_delete_ne by congruence.
Qed.

Lemma keeps_fs_log_append line : keeps_fs (log_append line).
Proof. intros s. reflexivity. Qed.

Lemma move_file_target self s src dest_dir :
  delete_duplicates (settings self) = false ->
  exists q,
    OS.path_exists (fs s) q = false
    /\ move_file self src dest_dir s
       = bind (OS.move src q)
           (fun _ => log_append ("Moved: " ++ src ++ " → " ++ q)) s.
Proof.
  intros Hoff.
  destruct (OS.path_exists (fs s) (PosixPath.join dest_dir (PosixPath.basename src)))
    eqn:Hex.
  - now apply move_file_numbered.
  - exists (PosixPath.join dest_dir (PosixPath.basename src)). split; [exact Hex|].
    unfold move_file. rewrite (bind_ok _ _ _ _ _ (exists_ok s _)), Hex. reflexivity.
Qed.

(** X4. With deduplication off, [move_file] of a path that is not a
    directory never removes or replaces another entry: whether the move
    succeeds or fails, every other path that held a file still holds a
    file with the same content, and every other path that held a
    directory still holds a directory.  (Times are not compared; the
    engine calls [move_file] on the files of a listing only.) *)
Theorem move_file_keeps_others self s src dest_dir p n :
  delete_duplicates (settings self) = false ->
  (forall md, fs s !! src <> Some (Dir md)) ->
  p <> src ->
  fs s !! p = Some n ->
  node_data <$> fs (snd (move_file self src dest_dir s)) !! p = Some (node_data n).
Proof.
  intros Hoff _ Hp Hn.
  destruct (move_file_target self s src dest_dir Hoff) as (q & Hq & ->).
  erewrite move_to_free_keeps; eauto. intros _. apply keeps_fs_log_append.
Qed.

(** *** Names without a separator, and the directory of a joined path *)

Lemma rsplit_none_cons c a s :
  a <> c -> Str.rsplit c s = None -> Str.rsplit c (String a s) = None.
Proof.
  intros Ha Hs. simpl. rewrite Hs.
  destruct (Ascii.eqb_spec a c); [contradiction|reflexivity].
Qed.

Lemma rsplit_none_tail c a s :
  Str.rsplit c (String a s) = None -> Str.rsplit c s = None.
Proof. simpl. destruct (Str.rsplit c s) as [[? ?]|]; [discriminate|reflexivity]. Qed.

Lemma rsplit_none_app c (a b : string) :
  Str.rsplit c (a ++ b) = None <-> Str.rsplit c a = None /\ Str.rsplit c b = None.
Proof.
  induction a as [|x a IH]; rewrite ?append_nil, ?append_cons.
  - split; [auto|tauto].
  - split.
    + intros H. pose proof (rsplit_none_head _ _ _ H) as Hx.
      apply rsplit_none_tail, IH in H as [Ha Hb].
      split; [now apply rsplit_none_cons|exact Hb].
    + intros [Ha Hb]. pose proof (rsplit_none_head _ _ _ Ha) as Hx.
      apply rsplit_none_cons; [exact Hx|]. apply IH.
      split; [now apply rsplit_none_tail in Ha|exact Hb].
Qed.

Lemma rsplit_app_last c (a b : string) :
  Str.rsplit c b = None -> Str.rsplit c (a ++ String c b) = Some (a, b).
Proof.
  intros Hb. induction a as [|x a IH]; rewrite ?append_nil, ?append_cons.
  - simpl. rewrite Hb. now rewrite Ascii.eqb_refl.
  - simpl. now rewrite IH.
Qed.

Lemma all_char_cons c x s :
  Str.all_char c (String x s) = Ascii.eqb x c && Str.all_char c s.
Proof. reflexivity. Qed.

Lemma all_char_endswith c a :
  a <> "" -> Str.all_char c a = true -> Str.endswith_char c a = true.
Proof.
  induction a as [|x a IH]; [congruence|]. intros _ H.
  simpl in H. apply andb_prop in H as [Hx Ha].
  destruct a as [|y a]; [exact Hx|].
  change (Str.endswith_char c (String x (String y a)))
    with (Str.endswith_char c (String y a)).
  apply IH; [discriminate|exact Ha].
Qed.

Lemma rstrip_app_sep c a :
  a <> "" -> Str.endswith_char c a = false -> Str.rstrip c (a ++ String c "") = a.
Proof.
  induction a as [|x a IH]; [congruence|]. intros _ He.
  rewrite append_cons.
  change (Str.rstrip c (String x (a ++ String c "")))
    with (if Str.all_char c (String x (a ++ String c "")) then ""
          else String x (Str.rstrip c (a ++ String c ""))).
  destruct a as [|y a].
  - rewrite append_nil. simpl in He. simpl. rewrite He. simpl.
    now rewrite Ascii.eqb_refl.
  - change (Str.endswith_char c (String x (String y a)))
      with (Str.endswith_char c (String y a)) in He.
    rewrite IH by (discriminate || exact He).
    destruct (Str.all_char c (String x (String y a ++ String c ""))) eqn:Ha;
      [|reflexivity].
    rewrite all_char_cons in Ha. apply andb_prop in Ha as [_ Ha].
    rewrite all_char_app in Ha. apply andb_prop in Ha as [Ha _].
    apply all_char_endswith in Ha; [congruence|discriminate].
Qed.

(** the directory of [a/b] is [a] *)
Lemma dirname_join a b :
  a <> "" -> Str.endswith_char PosixPath.sep a = false ->
  Str.rsplit PosixPath.sep b = None ->
  PosixPath.dirname (PosixPath.join a b) = a.
Proof.
  intros Ha He Hb. unfold PosixPath.join.
  rewrite (startswith_sep_none b Hb), He.
  destruct (String.eqb_spec a ""); [contradiction|]. simpl.
  unfold PosixPath.dirname.
  change (a ++ "/" ++ b) with (a ++ String PosixPath.sep b).
  rewrite (rsplit_app_last _ a b Hb).
  change (a ++ "/") with (a ++ String PosixPath.sep "").
  rewrite (rstrip_app_sep _ a n He).
  destruct (Str.all_char PosixPath.sep (a ++ String PosixPath.sep "")) eqn:Hall;
    [|reflexivity].
  rewrite all_char_app in Hall. apply andb_prop in Hall as [Hall _].
  apply all_char_endswith in Hall; [congruence|exact n].
Qed.

Lemma pretty_N_char_not_sep x : pretty_N_char x <> PosixPath.sep.
Proof.
  unfold pretty_N_char.
  destruct x as [|[[[[|[]|]|[]|]|[[]|[]|]|]|[[[]|[]|]|[[]|[]|]|]|]]; discriminate.
Qed.

Lemma pretty_N_go_no_sep x s :
  Str.rsplit PosixPath.sep s = None ->
  Str.rsplit PosixPath.sep (pretty_N_go x s) = None.
Proof.
  revert s. induction (N.lt_wf_0 x) as [x _ IH]; intros s Hs.
  destruct (decide (x = 0%N)) as [->|Hx]; [now rewrite pretty_N_go_0|].
  rewrite pretty_N_go_step by lia.
  apply IH; [apply N.div_lt; lia|].
  apply rsplit_none_cons; [apply pretty_N_char_not_sep|exact Hs].
Qed.

Lemma str_nat_no_sep k : Str.rsplit PosixPath.sep (str_nat k) = None.
Proof.
  unfold str_nat, pretty, pretty_nat, pretty, pretty_N.
  destruct (decide (N.of_nat k = 0%N)); [reflexivity|].
  now apply pretty_N_go_no_sep.
Qed.

Lemma splitext_name_parts b :
  Str.rsplit PosixPath.sep b = None ->
  Str.rsplit PosixPath.sep (fst (PosixPath.splitext_name b)) = None
  /\ Str.rsplit PosixPath.sep (snd (PosixPath.splitext_name b)) = None.
Proof.
  intros Hb. unfold PosixPath.splitext_name.
  destruct (Str.rsplit PosixPath.extsep b) as [[stem e]|] eqn:E; [|now split].
  destruct (Str.all_char PosixPath.extsep stem); [now split|]. simpl.
  apply rsplit_app in E. rewrite E in Hb. now apply rsplit_none_app in Hb.
Qed.

Lemma candidate_parent dest_dir src k :
  dest_dir <> "" -> Str.endswith_char PosixPath.sep dest_dir = false ->
  PosixPath.dirname
    (candidate dest_dir (fst (PosixPath.splitext (PosixPath.basename src)))
       (snd (PosixPath.splitext (PosixPath.basename src))) k)
  = dest_dir.
Proof.
  intros Hd He. unfold candidate. apply dirname_join; auto.
  pose proof (basename_no_sep src) as Hb.
  unfold PosixPath.splitext. rewrite Hb.
  destruct (splitext_name_parts _ Hb) as [H1 H2].
  apply rsplit_none_app. split; [exact H1|].
  change ("_" ++ str_nat k ++ snd (PosixPath.splitext_name (PosixPath.basename src)))
    with (String "_"%char
            (str_nat k ++ snd (PosixPath.splitext_name (PosixPath.basename src)))).
  apply rsplit_none_cons; [discriminate|].
  apply rsplit_none_app. split; [apply str_nat_no_sep|exact H2].
Qed.

(** which name the numbering loop returns *)
Lemma free_name_least dest_dir base ext fuel counter p s q s' :
  free_name fuel dest_dir base ext counter p s = (Ok q, s') ->
  (q = p /\ OS.path_exists (fs s) p = false)
  \/ (OS.path_exists (fs s) p = true
      /\ exists k, (counter <= k)%nat
           /\ q = candidate dest_dir base ext k
           /\ (forall j, (counter <= j < k)%nat ->
                 OS.path_exists (fs s) (candidate dest_dir base ext j) = true)
           /\ OS.path_exists (fs s) (candidate dest_dir base ext k) = false).
Proof.
  revert counter p. induction fuel as [|n IH]; intros counter p; simpl; [discriminate|].
  rewrite (bind_ok _ _ _ _ _ (exists_ok s p)).
  destruct (OS.path_exists (fs s) p) eqn:E.
  - intros H. right. split; [reflexivity|].
    destruct (IH _ _ H) as [[-> Hfree]|(Hex & k & Hk & -> & Hall & Hfree)].
    + exists counter. repeat split; [lia| |exact Hfree]. intros j Hj. lia.
    + exists k. repeat split; [lia| |exact Hfree].
      intros j Hj. destruct (decide (j = counter)) as [->|]; [exact Hex|].
      apply Hall. lia.
  - intros [= <- <-]. left. auto.
Qed.

Lemma free_not_root (f : FS) q : OS.path_exists f q = false -> f !! q = None /\ OS.is_root q = false.
Proof. unfold OS.path_exists. destruct (f !! q); [discriminate|auto]. Qed.

Lemma parent_isdir_in a q (f : FS) :
  PosixPath.dirname q = a -> OS.isdir f a = true -> OS.parent_isdir f q = true.
Proof. intros Hd Ha. unfold OS.parent_isdir. rewrite Hd, Ha. apply orb_true_r. Qed.

Lemma move_file_numbered_exact self s src dest_dir m c :
  delete_duplicates (settings self) = false ->
  fs s !! src = Some (File m c) ->
  OS.path_exists (fs s) (PosixPath.join dest_dir (PosixPath.basename src)) = true ->
  OS.isdir (fs s) dest_dir = true ->
  dest_dir <> "" ->
  Str.endswith_char PosixPath.sep dest_dir = false ->
  let name := candidate dest_dir
                (fst (PosixPath.splitext (PosixPath.basename src)))
                (snd (PosixPath.splitext (PosixPath.basename src))) in
  exists k,
    (1 <= k)%nat
    /\ (forall j, (1 <= j < k)%nat -> OS.path_exists (fs s) (name j) = true)
    /\ OS.path_exists (fs s) (name k) = false
    /\ move_file self src dest_dir s
       = (Ok tt, {| fs := <[name k := File m c]> (delete src (fs s));
                    log := app (log s) ["Moved: " ++ src ++ " → " ++ name k] |}).
Proof.
  intros Hoff Hsrc Hex Hdir Hne Hend name.
  destruct (PosixPath.splitext (PosixPath.basename src)) as [base ext] eqn:E.
  assert (Hbase : Str.startswith "/" base = false).
  { pose proof (stem_not_absolute src) as H. now rewrite E in H. }
  destruct (free_name_total dest_dir base ext Hbase s 1
              (PosixPath.join dest_dir (PosixPath.basename src))) as (q & Hq & Hfree).
  destruct (free_name_least _ _ _ _ _ _ _ _ _ Hq)
    as [[-> Hp]|(_ & k & Hk & -> & Hall & Hk')]; [congruence|].
  exists k. simpl in name. subst name.
  split; [exact Hk|split; [exact Hall|split; [exact Hk'|]]].
  unfold move_file.
  rewrite (bind_ok _ _ _ _ _ (exists_ok s _)), Hex, Hoff, E.
  unfold bind at 1. unfold bind at 1. unfold get_fs at 1. unfold bind at 1.
  rewrite Hq. unfold ret at 1.
  destruct (free_not_root _ _ Hk') as [Hnone Hroot].
  erewrite bind_ok; cycle 1.
  { apply move_ok; eauto.
    - intros ->. congruence.
    - apply (parent_isdir_in dest_dir); [|exact Hdir].
      pose proof (candidate_parent dest_dir src k Hne Hend) as Hd.
      now rewrite E in Hd. }
  reflexivity.
Qed.

Lemma same_tree_refl (f : FS) : same_tree f f.
Proof. intros p. reflexivity. Qed.

(** X5. With deduplication off, a file moved into an existing directory
    that already has an entry of its name ends up under the numbered
    name [stem_k.ext] with the least [k >= 1] that is free: the names
    with smaller numbers are all taken, the move succeeds and is logged
    under the new name, and afterwards the disk is the old one with the
    source path gone and a file of the source's content under the new
    name; nothing else is added, removed or replaced.  (Times are not
    compared.) *)
Theorem move_file_numbered_least self s src dest_dir m c :
  delete_duplicates (settings self) = false ->
  fs s !! src = Some (File m c) ->
  OS.path_exists (fs s) (PosixPath.join dest_dir (PosixPath.basename src)) = true ->
  OS.isdir (fs s) dest_dir = true ->
  dest_dir <> "" ->
  Str.endswith_char PosixPath.sep dest_dir = false ->
  let name := candidate dest_dir
                (fst (PosixPath.splitext (PosixPath.basename src)))
                (snd (PosixPath.splitext (PosixPath.basename src))) in
  exists k,
    (1 <= k)%nat
    /\ (forall j, (1 <= j < k)%nat -> OS.path_exists (fs s) (name j) = true)
    /\ OS.path_exists (fs s) (name k) = false
    /\ fst (move_file self src dest_dir s) = Ok tt
    /\ log (snd (move_file self src dest_dir s))
       = app (log s) ["Moved: " ++ src ++ " → " ++ name k]
    /\ same_tree (fs (snd (move_file self src dest_dir s)))
         (<[name k := File m c]> (delete src (fs s))).
Proof.
  intros Hoff Hsrc Hex Hdir Hne Hend name.
  destruct (move_file_numbered_exact self s src dest_dir m c Hoff Hsrc Hex Hdir Hne Hend)
    as (k & Hk & Hall & Hfree & Hrun).
  exists k. fold name in Hall, Hfree, Hrun.
  split; [exact Hk|split; [exact Hall|split; [exact Hfree|]]].
  rewrite Hrun. split; [reflexivity|split; [reflexivity|apply same_tree_refl]].
Qed.

Lemma move_file_free_ok self s src dest_dir m c :
  fs s !! src = Some (File m c) ->
  OS.path_exists (fs s) (PosixPath.join dest_dir (PosixPath.basename src)) = false ->
  OS.isdir (fs s) dest_dir = true ->
  dest_dir <> "" ->
  Str.endswith_char PosixPath.sep dest_dir = false ->
  move_file self src dest_dir s
  = (Ok tt, {| fs := <[PosixPath.join dest_dir (PosixPath.basename src) := File m c]>
                       (delete src (fs s));
               log := app (log s)
                        ["Moved: " ++ src ++ " → "
                         ++ PosixPath.join dest_dir (PosixPath.basename src)] |}).
Proof.
  intros Hsrc Hfree Hdir Hne Hend.
  unfold move_file.
  rewrite (bind_ok _ _ _ _ _ (exists_ok s _)), Hfree.
  unfold bind at 1, ret at 1.
  destruct (free_not_root _ _ Hfree) as [Hnone Hroot].
  erewrite bind_ok; cycle 1.
  { apply move_ok; eauto.
    - intros Heq. rewrite Heq in Hsrc. congruence.
    - apply (parent_isdir_in dest_dir); [|exact Hdir].
      apply dirname_join; auto. apply basename_no_sep. }
  reflexivity.
Qed.

(** X6. A file moved into an existing directory that has no entry of its
    name lands there under its own name, whatever the deduplication
    setting: the move succeeds, the source path is gone, the destination
    path holds a file with the source's content, every other path holds
    what it held, and one ["Moved: "] line is appended to the log.
    (Times are not compared.) *)
Theorem move_file_free_destination self s src dest_dir m c :
  fs s !! src = Some (File m c) ->
  OS.path_exists (fs s) (PosixPath.join dest_dir (PosixPath.basename src)) = false ->
  OS.isdir (fs s) dest_dir = true ->
  dest_dir <> "" ->
  Str.endswith_char PosixPath.sep dest_dir = false ->
  let dest_path := PosixPath.join dest_dir (PosixPath.basename src) in
  let s' := snd (move_file self src dest_dir s) in
  fst (move_file self src dest_dir s) = Ok tt
  /\ log s' = app (log s) ["Moved: " ++ src ++ " → " ++ dest_path]
  /\ fs s' !! src = None
  /\ node_data <$> fs s' !! dest_path = Some (Some c)
  /\ (forall p, p <> src -> p <> dest_path ->
      node_data <$> fs s' !! p = node_data <$> fs s !! p).
Proof.
  intros Hsrc Hfree Hdir Hne Hend dest_path s'. subst s'.
  rewrite (move_file_free_ok self s src dest_dir m c Hsrc Hfree Hdir Hne Hend).
  fold dest_path. cbn [fst snd fs log].
  destruct (free_not_root _ _ Hfree) as [Hnone _]. fold dest_path in Hnone.
  split; [reflexivity|split; [reflexivity|split; [|split]]].
  - rewrite lookup_insert_ne by (intros E; congruence).
    apply lookup_delete_eq.
  - now rewrite lookup_insert_eq.
  - intros p Hp Hq. rewrite lookup_insert_ne by congruence.
    now rewrite lookup_delete_ne by congruence.
Qed.

(** ** Which rules the resolver looks at *)

Lemma foldM_ext_in {A T} (body body' : T -> A -> M T) l :
  (forall x, In x l -> forall a s, body a x s = body' a x s) ->
  forall acc s, foldM body l acc s = foldM body' l acc s.
Proof.
  induction l as [|x l IH]; intros H acc s; [reflexivity|].
  simpl. unfold bind. rewrite (H x (or_introl eq_refl)).
  destruct (body' acc x s) as [[a|e] s']; [|reflexivity].
  apply IH. intros y Hy. apply H. now right.
Qed.

(** the resolver sees the rule list only through the inner loop over the
    enabled rules of each level *)
Lemma get_destination_ext strftime self self' file_path :
  target_folder self = target_folder self' ->
  (forall level, In level levels -> forall ext dest s,
     level_loop strftime (rules_at level (folder_rules self)) file_path ext dest s
     = level_loop strftime (rules_at level (folder_rules self')) file_path ext dest s) ->
  forall s, get_destination strftime self file_path s
            = get_destination strftime self' file_path s.
Proof.
  intros Ht H s. unfold get_destination. rewrite <- Ht. unfold bind.
  erewrite foldM_ext_in; [reflexivity|].
  intros level Hl a s0. rewrite !rules_at_sorted. now apply H.
Qed.

Lemma level_in_levels level : In level levels -> 1 <= level <= 5.
Proof. unfold levels. simpl. lia. Qed.

Lemma filter_filter_impl {A} (P Q : A -> bool) l :
  (forall x, Q x = true -> P x = true) ->
  List.filter Q (List.filter P l) = List.filter Q l.
Proof.
  intros H. induction l as [|x l IH]; [reflexivity|]. simpl.
  destruct (P x) eqn:EP; simpl.
  - now rewrite IH.
  - destruct (Q x) eqn:EQ; [|exact IH]. apply H in EQ. congruence.
Qed.

Lemma rules_at_active level rules :
  In level levels ->
  rules_at level (List.filter active_rule rules) = rules_at level rules.
Proof.
  intros Hl%level_in_levels. unfold rules_at. apply filter_filter_impl.
  intros r Hr. apply andb_prop in Hr as [Hlev Hen]. apply Z.eqb_eq in Hlev.
  unfold active_rule. rewrite Hen. simpl.
  apply andb_true_intro. split; apply Z.leb_le; lia.
Qed.

(** X7. The resolver looks at the rule list only level by level: two rule
    lists that have, for each of the levels 1 to 5, the same enabled
    rules in the same order give every file the same destination (or the
    same exception).  The order of rules of different levels in the
    configuration is therefore irrelevant. *)
Theorem get_destination_by_level strftime self rules' file_path s :
  (forall level, In level levels ->
     rules_at level (folder_rules self) = rules_at level rules') ->
  get_destination strftime self file_path s
  = get_destination strftime (with_rules self rules') file_path s.
Proof.
  intros H. apply get_destination_ext; [reflexivity|].
  intros level Hl ext dest s0. simpl. now rewrite (H level Hl).
Qed.

(** X8. Disabled rules and rules whose hierarchy level is not one of 1 to
    5 never contribute: removing them all from the configuration changes
    no destination. *)
Theorem get_destination_ignores_inactive strftime self file_path s :
  get_destination strftime self file_path s
  = get_destination strftime
      (with_rules self (List.filter active_rule (folder_rules self))) file_path s.
Proof.
  apply get_destination_ext; [reflexivity|].
  intros level Hl ext dest s0. simpl. now rewrite rules_at_active.
Qed.

Lemma level_loop_time_stops strftime a t b b' file_path ext dest s :
  is_time_based t = true ->
  level_loop strftime (a ++ t :: b) file_path ext dest s
  = level_loop strftime (a ++ t :: b') file_path ext dest s.
Proof.
  intros Ht. induction a as [|r a IH]; simpl.
  - now rewrite Ht.
  - destruct (is_time_based r); [reflexivity|].
    destruct (str_in_list ext (file_extensions r)); [reflexivity|exact IH].
Qed.

Lemma rules_at_app level (l1 l2 : list FolderRule) :
  rules_at level (l1 ++ l2) = (rules_at level l1 ++ rules_at level l2)%list.
Proof. unfold rules_at. apply List.filter_app. Qed.

(** X9. An enabled time-based rule shadows every rule of its level that
    is declared after it: the later rule can be taken out of the
    configuration without changing any destination.  (In the default rule
    set the level-1 rule "Executables" follows the level-1 time rule and
    so never places a file.) *)
Theorem time_rule_shadows strftime self l1 t l2 r l3 file_path s :
  folder_rules self = (l1 ++ t :: l2 ++ r :: l3)%list ->
  rule_enabled t = true ->
  is_time_based t = true ->
  hierarchy_level r = hierarchy_level t ->
  get_destination strftime self file_path s
  = get_destination strftime (with_rules self (l1 ++ t :: l2 ++ l3)%list) file_path s.
Proof.
  intros Hr He Ht Hl. apply get_destination_ext; [reflexivity|].
  intros level Hin ext dest s0. simpl. rewrite Hr.
  rewrite !rules_at_app.
  destruct (Z.eqb_spec (hierarchy_level t) level) as [E|E].
  - assert (Hat : forall l, rules_at level (t :: l) = t :: rules_at level l).
    { intros l. unfold rules_at. simpl. rewrite E, Z.eqb_refl, He. reflexivity. }
    rewrite !Hat. apply level_loop_time_stops. exact Ht.
  - assert (Hat : forall l, rules_at level (r :: l) = rules_at level l).
    { intros l. unfold rules_at. simpl. rewrite Hl.
      destruct (Z.eqb_spec (hierarchy_level t) level); [contradiction|reflexivity]. }
    assert (Happ : forall l, rules_at level (t :: l) = rules_at level l).
    { intros l. unfold rules_at. simpl.
      destruct (Z.eqb_spec (hierarchy_level t) level); [contradiction|reflexivity]. }
    rewrite !Happ, !rules_at_app, Hat. reflexivity.
Qed.

(** ** Which filters the pass looks at *)

Section SortFilter.
Context {A : Type} (key : A -> Z) (P : A -> bool).
Local Open Scope list_scope.

Lemma insert_desc_front x l :
  Forall (fun z => key z <= key x) l -> insert_desc key x l = x :: l.
Proof.
  intros H. destruct l as [|y l]; [reflexivity|]. simpl.
  apply List.Forall_inv in H. destruct (Z.ltb_spec (key x) (key y)); [lia|reflexivity].
Qed.

Lemma filter_insert_desc_sorted x l :
  StronglySorted (desc key) l ->
  List.filter P (insert_desc key x l)
  = if P x then insert_desc key x (List.filter P l) else List.filter P l.
Proof.
  induction 1 as [|y l Hs IH Hy]; simpl.
  - now destruct (P x).
  - destruct (Z.ltb_spec (key x) (key y)) as [Hlt|Hge]; simpl.
    + rewrite IH. destruct (P x), (P y); simpl; try reflexivity.
      destruct (Z.ltb_spec (key x) (key y)); [reflexivity|lia].
    + destruct (P x) eqn:Px; [|reflexivity].
      destruct (P y); simpl.
      * destruct (Z.ltb_spec (key x) (key y)); [lia|reflexivity].
      * symmetry. apply insert_desc_front.
        apply List.Forall_forall. intros z Hz.
        apply List.filter_In in Hz as [Hz _].
        rewrite List.Forall_forall in Hy. specialize (Hy z Hz).
        unfold desc in Hy. lia.
Qed.

(** the stable sort commutes with taking a sub-list by a test *)
Lemma sorted_desc_filter l :
  sorted_desc key (List.filter P l) = List.filter P (sorted_desc key l).
Proof.
  induction l as [|x l IH]; [reflexivity|]. simpl.
  rewrite filter_insert_desc_sorted by apply sorted_desc_sorted.
  destruct (P x); simpl; now rewrite IH.
Qed.
End SortFilter.

Lemma apply_filters_loop_enabled now self l file_path filename ext s :
  apply_filters_loop now self (List.filter filter_enabled l) file_path filename ext s
  = apply_filters_loop now self l file_path filename ext s.
Proof.
  revert s. induction l as [|f l IH]; intros s; [reflexivity|]. simpl.
  destruct (filter_enabled f) eqn:E; simpl; [|apply IH].
  rewrite E. simpl. unfold bind.
  destruct (filter_matches now f file_path filename ext s) as [[b|e] s1];
    [|reflexivity].
  destruct b; [|apply IH].
  destruct (String.eqb (action_type f) "delete"); [reflexivity|].
  destruct (String.eqb (action_type f) "exclude"); [reflexivity|].
  destruct (_ || _); [reflexivity|].
  destruct (String.eqb (action_type f) "rename"); [reflexivity|apply IH].
Qed.

Lemma apply_filters_loop_self now self self' l file_path filename ext s :
  dry_run self = dry_run self' ->
  apply_filters_loop now self l file_path filename ext s
  = apply_filters_loop now self' l file_path filename ext s.
Proof.
  intros Hd. revert s. induction l as [|f l IH]; intros s; [reflexivity|]. simpl.
  destruct (filter_enabled f); simpl; [|apply IH].
  unfold bind.
  destruct (filter_matches now f file_path filename ext s) as [[b|e] s1];
    [|reflexivity].
  destruct b; [|apply IH].
  destruct (String.eqb (action_type f) "delete"); [reflexivity|].
  destruct (String.eqb (action_type f) "exclude"); [reflexivity|].
  destruct (_ || _); [reflexivity|].
  destruct (String.eqb (action_type f) "rename"); [now rewrite Hd|apply IH].
Qed.

(** X10. Disabled filters never take part in the filter pass: removing
    them from the configuration changes neither what the pass returns for
    any file nor what it does to the disk. *)
Theorem apply_filters_ignores_disabled now self file_path s :
  apply_filters now self file_path s
  = apply_filters now
      (with_filters self (List.filter filter_enabled (filter_actions self)))
      file_path s.
Proof.
  unfold apply_filters. simpl.
  rewrite sorted_desc_filter, apply_filters_loop_enabled.
  now apply apply_filters_loop_self.
Qed.

Lemma filter_matches_no_age now f file_path filename ext :
  truthy_days (older_than_days f) = false ->
  exists b, forall s', filter_matches now f file_path filename ext s' = (Ok b, s').
Proof.
  intros H. unfold filter_matches. rewrite H, andb_false_r. eauto.
Qed.

Lemma apply_filters_loop_no_disk now self l file_path filename ext :
  Forall (fun f => needs_disk f = false) l ->
  exists r, forall s,
    apply_filters_loop now self l file_path filename ext s = (Ok r, s).
Proof.
  induction 1 as [|f l Hf _ IH]; [exists None; reflexivity|].
  destruct IH as [r IH]. simpl. unfold needs_disk in Hf.
  destruct (filter_enabled f); simpl in *; [|eauto].
  apply orb_false_elim in Hf as [Hage Hren].
  destruct (filter_matches_no_age now f file_path filename ext Hage) as [b Hb].
  destruct b.
  - destruct (String.eqb (action_type f) "delete");
      [eexists; intros s; now rewrite (bind_ok _ _ _ _ _ (Hb s))|].
    destruct (String.eqb (action_type f) "exclude");
      [eexists; intros s; now rewrite (bind_ok _ _ _ _ _ (Hb s))|].
    destruct (_ || _);
      [eexists; intros s; now rewrite (bind_ok _ _ _ _ _ (Hb s))|].
    exists r. intros s. rewrite (bind_ok _ _ _ _ _ (Hb s)), Hren. apply IH.
  - exists r. intros s. rewrite (bind_ok _ _ _ _ _ (Hb s)). apply IH.
Qed.

(** X11. The filter pass needs the disk only for two things: the age
    threshold reads the file's modification time, and a rename writes.
    When no enabled filter has an age threshold or is a rename, the pass
    returns the same directive in every state of the disk, never raises,
    even for a file that does not exist, and changes nothing. *)
Theorem apply_filters_without_disk now self file_path :
  Forall (fun f => needs_disk f = false) (filter_actions self) ->
  exists r, forall s, apply_filters now self file_path s = (Ok r, s).
Proof.
  intros H. unfold apply_filters. apply apply_filters_loop_no_disk.
  eapply Permutation_Forall; [symmetry; apply sorted_desc_perm|exact H].
Qed.

(** ** What a directive makes the two loops do *)

Section Directives.
Variable now : Z.
Variable strftime : Z -> fmt -> string.
Variable strptime_date : string -> option Z.
Variable self : FolderOrganizer.
Local Open Scope list_scope.

Lemma apply_filters_constant s root file n l1 f l2 (word : string) :
  fs s !! PosixPath.join root file = Some n ->
  filter_actions self = l1 ++ f :: l2 ->
  wins (applies now (mtime (node_meta n))
          (PosixPath.basename (PosixPath.join root file))) l1 f l2 ->
  known_action f ->
  directive self f (PosixPath.join root file) = ret (Some word) ->
  apply_filters now self (PosixPath.join root file) s = (Ok (Some word), s).
Proof.
  intros Hn Hl Hw Hk Hd.
  rewrite (apply_filters_winner now self s _ n l1 f l2 Hn Hl Hw Hk). now rewrite Hd.
Qed.

(** X12. A file whose winning filter is an [exclude] filter is left
    alone by an apply run: nothing on disk, in the log or in the tally
    changes.  The dry run nevertheless lists it among the files to move,
    with the destination ["EXCLUDE"], so its count is one higher than
    what the apply run will do. *)
Theorem exclude_directive s root file n acc dacc l1 f l2 :
  let file_path := PosixPath.join root file in
  fs s !! file_path = Some n ->
  excluded_pure strptime_date self file (fs s) = false ->
  filter_actions self = l1 ++ f :: l2 ->
  wins (applies now (mtime (node_meta n)) (PosixPath.basename file_path)) l1 f l2 ->
  action_type f = "exclude" ->
  apply_file now strftime strptime_date self root acc file s = (Ok acc, s)
  /\ dry_file now strftime strptime_date self root dacc file s
     = (Ok {| files_to_move := files_to_move dacc ++ [(file_path, "EXCLUDE")];
              folders_to_create := folders_to_create dacc |}, s).
Proof.
  intros file_path Hn Hex Hl Hw Ha.
  assert (Hpass : apply_filters now self file_path s = (Ok (Some "EXCLUDE"), s)).
  { apply (apply_filters_constant s root file n l1 f l2); auto.
    - unfold known_action. rewrite Ha. simpl. tauto.
    - unfold directive. now rewrite Ha. }
  split.
  - unfold apply_file. fold file_path.
    rewrite (bind_ok _ _ _ _ _ (is_excluded_ok strptime_date self file s)), Hex.
    unfold try_except. now rewrite (bind_ok _ _ _ _ _ Hpass).
  - unfold dry_file. fold file_path.
    rewrite (bind_ok _ _ _ _ _ (is_excluded_ok strptime_date self file s)), Hex.
    now rewrite (bind_ok _ _ _ _ _ Hpass).
Qed.

(** X13. A file whose winning filter is a [delete] filter is removed by
    an apply run and one ["Deleted: "] line with its path is appended to
    the log; the tally is unchanged, so a deletion is not counted among
    the files moved.  The dry run lists it among the files to move, with
    the destination ["DELETE"]. *)
Theorem delete_directive s root file m c acc dacc l1 f l2 :
  let file_path := PosixPath.join root file in
  fs s !! file_path = Some (File m c) ->
  excluded_pure strptime_date self file (fs s) = false ->
  filter_actions self = l1 ++ f :: l2 ->
  wins (applies now (mtime m) (PosixPath.basename file_path)) l1 f l2 ->
  action_type f = "delete" ->
  apply_file now strftime strptime_date self root acc file s
  = (Ok acc, {| fs := delete file_path (fs s);
                log := log s ++ ["Deleted: " ++ file_path]%string |})
  /\ dry_file now strftime strptime_date self root dacc file s
     = (Ok {| files_to_move := files_to_move dacc ++ [(file_path, "DELETE")];
              folders_to_create := folders_to_create dacc |}, s).
Proof.
  intros file_path Hn Hex Hl Hw Ha.
  assert (Hpass : apply_filters now self file_path s = (Ok (Some "DELETE"), s)).
  { apply (apply_filters_constant s root file (File m c) l1 f l2); auto.
    - unfold known_action. rewrite Ha. simpl. tauto.
    - unfold directive. now rewrite Ha. }
  split.
  - unfold apply_file. fold file_path.
    rewrite (bind_ok _ _ _ _ _ (is_excluded_ok strptime_date self file s)), Hex.
    unfold try_except. rewrite (bind_ok _ _ _ _ _ Hpass). simpl.
    now rewrite (bind_ok _ _ _ _ _ (remove_file_ok _ _ _ _ Hn)).
  - unfold dry_file. fold file_path.
    rewrite (bind_ok _ _ _ _ _ (is_excluded_ok strptime_date self file s)), Hex.
    now rewrite (bind_ok _ _ _ _ _ Hpass).
Qed.

End Directives.

(** ** The test for organized folders *)

Lemma startswith_app_r p (a b : string) :
  Str.startswith p a = true -> Str.startswith p (a ++ b) = true.
Proof.
  revert a. induction p as [|x p IH]; intros a H; [reflexivity|].
  destruct a as [|y a]; [discriminate|]. rewrite append_cons.
  simpl in *. destruct (Ascii.eqb x y); [now apply IH|discriminate].
Qed.

Lemma contains_cons needle x s :
  Str.contains needle (String x s)
  = Str.startswith needle (String x s) || Str.contains needle s.
Proof. reflexivity. Qed.

Lemma contains_app_r needle (a b : string) :
  Str.contains needle a = true -> Str.contains needle (a ++ b) = true.
Proof.
  induction a as [|x a IH]; intros H.
  - rewrite append_nil. destruct needle; [now destruct b|].
    simpl in H. discriminate.
  - rewrite append_cons, contains_cons. rewrite contains_cons in H.
    apply orb_prop in H as [H|H].
    + rewrite <- append_cons, (startswith_app_r _ _ _ H). reflexivity.
    + rewrite (IH H). apply orb_true_r.
Qed.

Lemma contains_join needle top d :
  Str.startswith "/" d = false ->
  Str.contains needle top = true ->
  Str.contains needle (PosixPath.join top d) = true.
Proof.
  intros Hd H. unfold PosixPath.join. rewrite Hd.
  destruct (_ || _); now apply contains_app_r.
Qed.

Lemma scandir_fs_lists_names : lists_names scandir_fs.
Proof.
  intros f top d Hd. unfold scandir_fs in Hd. simpl in Hd.
  apply in_map_iff in Hd as (kv & <- & _).
  apply startswith_sep_none, basename_no_sep.
Qed.

Lemma os_walk_step {T} scandir (body : string -> list string -> T -> M T)
    n top acc s :
  os_walk scandir (S n) top body acc s
  = if negb (OS.isdir (fs s) top) then (Ok acc, s)
    else bind (body top (snd (scandir (fs s) top)) acc)
           (fun acc' => foldM (fun a d => os_walk scandir n (PosixPath.join top d) body a)
                          (fst (scandir (fs s) top)) acc') s.
Proof.
  simpl. unfold bind at 1, get_fs.
  destruct (negb (OS.isdir (fs s) top)); [reflexivity|].
  now destruct (scandir (fs s) top).
Qed.

Lemma foldM_skipped {A T} (step : T -> A -> M T) e l acc s :
  (forall d, In d l ->
     step acc d s = (Ok acc, s) \/ step acc d s = (Raise e, s)) ->
  foldM step l acc s = (Ok acc, s) \/ foldM step l acc s = (Raise e, s).
Proof.
  induction l as [|d l IH]; intros H; [now left|]. simpl. unfold bind.
  destruct (H d (or_introl eq_refl)) as [->| ->]; [|now right].
  apply IH. intros d' Hd'. apply H. now right.
Qed.

(** a walk whose body skips every directory returns what it was given,
    unless the bound on its depth is hit *)
Lemma os_walk_skipped {T} scandir (body : string -> list string -> T -> M T)
    (I : string -> Prop) :
  (forall root files acc, I root -> body root files acc = ret acc) ->
  (forall f top d, I top -> In d (fst (scandir f top)) -> I (PosixPath.join top d)) ->
  forall fuel top acc s, I top ->
    os_walk scandir fuel top body acc s = (Ok acc, s)
    \/ os_walk scandir fuel top body acc s = (Raise (ModelLimit "os.walk"), s).
Proof.
  intros Hbody Hstep. induction fuel as [|n IH]; intros top acc s Htop.
  - right. reflexivity.
  - rewrite os_walk_step.
    destruct (negb (OS.isdir (fs s) top)); [now left|].
    rewrite (Hbody top _ acc Htop). unfold bind at 1, ret at 1.
    apply foldM_skipped. intros d Hd. apply IH. now apply (Hstep (fs s)).
Qed.

Lemma skipped_result {T} (r : result T * state) e0 acc s :
  r = (Ok acc, s) \/ r = (Raise e0, s) ->
  snd r = s
  /\ (forall t, fst r = Ok t -> t = acc)
  /\ (forall e, fst r = Raise e -> e = e0).
Proof.
  intros [->| ->]; simpl; (split; [reflexivity|split; congruence]).
Qed.

(** X14. The test for already organized folders is a substring test on
    the whole path of a directory, against the folder name of every
    regular rule, enabled or not.  So when that test is switched on, a
    listing gives names, and the path of the target folder itself
    contains the folder name of some regular rule (an empty folder name
    is contained in every path), every directory of the tree is skipped.
    An apply scan then does nothing but its first step, the backup log
    when that is enabled: it ends in the state that step alone leaves,
    which is the initial state when the backup log is off, and a tally
    it returns is the zero tally.  A dry scan changes nothing, and a
    plan it returns is empty.  Neither scan raises, unless the backup
    log does or the bound on the depth of the walk is hit. *)
Theorem organized_target_skips_all
    now strftime strptime_date scandir self rule fuel s :
  lists_names scandir ->
  exclude_organized_folders (settings self) = true ->
  In rule (folder_rules self) ->
  is_time_based rule = false ->
  Str.contains (folder_name rule) (target_folder self) = true ->
  (snd (apply_scan now strftime strptime_date scandir self fuel s)
   = snd (backup_step now strftime self s)
   /\ (create_backup_log_enabled (settings self) = false ->
       snd (apply_scan now strftime strptime_date scandir self fuel s) = s)
   /\ (forall t, fst (apply_scan now strftime strptime_date scandir self fuel s) = Ok t ->
                 t = zero_tally)
   /\ (forall e, fst (apply_scan now strftime strptime_date scandir self fuel s) = Raise e ->
                 e = ModelLimit "os.walk"
                 \/ fst (backup_step now strftime self s) = Raise e))
  /\ (snd (dry_scan now strftime strptime_date scandir self fuel s) = s
      /\ (forall t, fst (dry_scan now strftime strptime_date scandir self fuel s) = Ok t ->
                    t = empty_plan)
      /\ (forall e, fst (dry_scan now strftime strptime_date scandir self fuel s) = Raise e ->
                    e = ModelLimit "os.walk")).
Proof.
  intros Hsc Hflag Hin Ht Hc.
  set (I := fun root => Str.contains (folder_name rule) root = true).
  assert (Hskip : forall root, I root -> in_organized_folder self root = true).
  { intros root Hr. unfold in_organized_folder. rewrite Hflag. simpl.
    apply existsb_exists. exists rule. split; [|exact Hr].
    apply List.filter_In. split; [exact Hin|now rewrite Ht]. }
  assert (Hstep : forall f top d, I top -> In d (fst (scandir f top)) ->
                                  I (PosixPath.join top d)).
  { intros f top d Htop Hd. apply contains_join; [now apply (Hsc f top)|exact Htop]. }
  pose (walk := os_walk scandir fuel (target_folder self)
                  (apply_body now strftime strptime_date self) zero_tally).
  assert (Hwalk : forall s0,
            snd (walk s0) = s0
            /\ (forall t, fst (walk s0) = Ok t -> t = zero_tally)
            /\ (forall e, fst (walk s0) = Raise e -> e = ModelLimit "os.walk")).
  { intros s0. apply skipped_result, (os_walk_skipped scandir _ I); auto.
    intros root files acc Hr. unfold apply_body. now rewrite (Hskip root Hr). }
  assert (Happly : snd (apply_scan now strftime strptime_date scandir self fuel s)
                   = snd (backup_step now strftime self s)
                   /\ (forall t, fst (apply_scan now strftime strptime_date scandir
                                        self fuel s) = Ok t -> t = zero_tally)
                   /\ (forall e, fst (apply_scan now strftime strptime_date scandir
                                        self fuel s) = Raise e ->
                                 e = ModelLimit "os.walk"
                                 \/ fst (backup_step now strftime self s) = Raise e)).
  { unfold apply_scan.
    change (if create_backup_log_enabled (settings self)
            then create_backup_log now strftime self else ret tt)
      with (backup_step now strftime self).
    fold zero_tally. fold walk.
    unfold bind.
    destruct (backup_step now strftime self s) as [[[]|e0] s0]; cbn [fst snd].
    - destruct (Hwalk s0) as (H1 & H2 & H3).
      split; [exact H1|split; [exact H2|]]. intros e He. left. now apply H3.
    - split; [reflexivity|split; [discriminate|]]. intros e [= ->]. now right. }
  destruct Happly as (Ha1 & Ha2 & Ha3).
  split; [split; [exact Ha1|split; [|split; [exact Ha2|exact Ha3]]]|].
  - intros Hoff. rewrite Ha1. unfold backup_step. now rewrite Hoff.
  - unfold dry_scan.
    apply (skipped_result _ (ModelLimit "os.walk") empty_plan s),
      (os_walk_skipped scandir _ I); auto.
    intros root files acc Hr. unfold dry_body. now rewrite (Hskip root Hr).
Qed.

(** ** The plan of a dry run *)

Lemma foldM_inv {A T} (P : T -> Prop) (body : T -> A -> M T) l :
  (forall a x s t s', P a -> body a x s = (Ok t, s') -> P t) ->
  forall acc s t s', P acc -> foldM body l acc s = (Ok t, s') -> P t.
Proof.
  intros H. induction l as [|x l IH]; intros acc s t s' Hacc; simpl.
  - now intros [= <- <-].
  - unfold bind. destruct (body acc x s) as [[a|e] s1] eqn:E; [|discriminate].
    apply IH. eapply H; eauto.
Qed.

Lemma os_walk_inv {T} scandir (P : T -> Prop)
    (body : string -> list string -> T -> M T) :
  (forall root files a s t s', P a -> body root files a s = (Ok t, s') -> P t) ->
  forall fuel top acc s t s',
    P acc -> os_walk scandir fuel top body acc s = (Ok t, s') -> P t.
Proof.
  intros H. induction fuel as [|n IH]; intros top acc s t s' Hacc; [discriminate|].
  rewrite os_walk_step.
  destruct (negb (OS.isdir (fs s) top)); [now intros [= <- <-]|].
  unfold bind at 1.
  destruct (body top (snd (scandir (fs s) top)) acc s) as [[a|e] s1] eqn:E;
    [|discriminate].
  intros Hfold. eapply (foldM_inv P); [|eapply H; eauto|exact Hfold].
  intros a' d s2 t' s3 Ha'. apply IH. exact Ha'.
Qed.

Lemma truthy_default (r : option string) : truthy_opt_str r = true -> default "" r <> "".
Proof.
  destruct r as [x|]; [|discriminate]. simpl. unfold truthy_str.
  destruct (String.eqb_spec x ""); [discriminate|auto].
Qed.

Lemma plan_ok_file now strftime strptime_date self root acc file s t s' :
  plan_ok acc ->
  dry_file now strftime strptime_date self root acc file s = (Ok t, s') ->
  plan_ok t.
Proof.
  intros (Hne & Hsub & Hsize). unfold dry_file.
  rewrite (bind_ok _ _ _ _ _ (is_excluded_ok strptime_date self file s)).
  destruct (excluded_pure strptime_date self file (fs s));
    [intros [= <- <-]; repeat split; auto|].
  unfold bind at 1.
  destruct (apply_filters now self (PosixPath.join root file) s) as [[r|e] s1];
    [|discriminate].
  destruct (truthy_opt_str r) eqn:Hr.
  - intros [= <- <-]. repeat split; simpl.
    + apply Forall_app. split; [exact Hne|].
      constructor; [now apply truthy_default|constructor].
    + intros d Hd. destruct (Hsub d Hd) as [src Hsrc]. exists src.
      apply in_or_app. now left.
    + rewrite length_app. simpl. lia.
  - unfold bind at 1.
    destruct (get_destination strftime self (PosixPath.join root file) s1)
      as [[dest|e] s2]; [|discriminate].
    destruct (truthy_opt_str dest) eqn:Hd; simpl;
      [|intros [= <- <-]; repeat split; auto].
    destruct (negb _); [|intros [= <- <-]; repeat split; auto].
    intros [= <- <-]. repeat split; simpl.
    + apply Forall_app. split; [exact Hne|].
      constructor; [now apply truthy_default|constructor].
    + intros d Hin. apply elem_of_union in Hin as [Hin|Hin].
      * destruct (Hsub d Hin) as [src Hsrc]. exists src. apply in_or_app. now left.
      * apply elem_of_singleton in Hin. subst d.
        exists (PosixPath.join root file). apply in_or_app. right. now left.
    + rewrite length_app. simpl.
      pose proof (size_add_folder (default "" dest) (folders_to_create acc)). lia.
Qed.

(** X15. The plan a dry run reports is coherent: every planned move has a
    non-empty destination word, every folder counted under "Folders to
    create" is the destination of at least one planned move, and the
    number of folders to create never exceeds the number of files to
    move. *)
Theorem dry_scan_plan_ok now strftime strptime_date scandir self fuel s t s' :
  dry_scan now strftime strptime_date scandir self fuel s = (Ok t, s') ->
  plan_ok t.
Proof.
  unfold dry_scan. intros Hrun.
  eapply (os_walk_inv scandir plan_ok); [| |exact Hrun].
  - intros root files a s0 t0 s1 Ha. unfold dry_body.
    destruct (in_organized_folder self root); [now intros [= <- <-]|].
    intros Hfold. eapply (foldM_inv plan_ok); [|exact Ha|exact Hfold].
    intros a' x s2 t2 s3 Ha'. now apply plan_ok_file.
  - unfold plan_ok. cbn [folders_to_create files_to_move].
    split; [apply List.Forall_nil|]. split.
    + intros d Hd. now apply not_elem_of_empty in Hd.
    + rewrite size_empty. simpl. lia.
Qed.

(** ** The estimate of the preview *)

(** X16. [estimate_folders] has a closed form: one folder for each
    enabled regular rule, and for each enabled time-based rule three
    periods, each with one folder for every enabled level-2 rule below
    it.  Disabled rules count for nothing, and the levels of the rules
    other than level 2 do not matter. *)
Theorem estimate_folders_closed rules :
  let regular := length (List.filter (fun r => rule_enabled r && negb (is_time_based r)) rules) in
  let timed := length (List.filter (fun r => rule_enabled r && is_time_based r) rules) in
  let second := length (List.filter (fun r => (hierarchy_level r =? 2) && rule_enabled r) rules) in
  estimate_folders rules = (regular + timed * (3 + 3 * second))%nat.
Proof.
  unfold estimate_folders.
  generalize (length (List.filter (fun r => (hierarchy_level r =? 2) && rule_enabled r) rules)).
  intros c. simpl.
  assert (H : forall l n,
    foldl (fun count rule =>
             if rule_enabled rule then
               if is_time_based rule then (count + 3 + 3 * c)%nat else (count + 1)%nat
             else count) n l
    = (n + length (List.filter (fun r => rule_enabled r && negb (is_time_based r)) l)
       + length (List.filter (fun r => rule_enabled r && is_time_based r) l)
         * (3 + 3 * c))%nat).
  { induction l as [|r l IH]; intros n; simpl; [lia|].
    rewrite IH. destruct (rule_enabled r), (is_time_based r); simpl; lia. }
  rewrite H. lia.
Qed.

(** ** The comma-separated fields of the editors *)

Lemma split_on_nonempty c s : split_on c s <> [].
Proof.
  destruct s as [|a r]; simpl; [discriminate|].
  destruct (Ascii.eqb a c); [discriminate|].
  destruct (split_on c r); discriminate.
Qed.

Lemma split_on_cons c a r :
  a <> c ->
  split_on c (String a r)
  = String a (hd "" (split_on c r)) :: tl (split_on c r).
Proof.
  intros Ha. simpl. destruct (Ascii.eqb_spec a c); [contradiction|].
  pose proof (split_on_nonempty c r). now destruct (split_on c r).
Qed.

Lemma split_on_none c x : Str.rsplit c x = None -> split_on c x = [x].
Proof.
  induction x as [|a x IH]; [reflexivity|]. intros H.
  rewrite split_on_cons by (now apply rsplit_none_head in H).
  apply rsplit_none_tail in H. now rewrite (IH H).
Qed.

Lemma split_on_app c x r :
  Str.rsplit c x = None -> split_on c (x ++ String c r) = x :: split_on c r.
Proof.
  induction x as [|a x IH]; intros H.
  - rewrite append_nil. simpl. now rewrite Ascii.eqb_refl.
  - rewrite append_cons, split_on_cons by (now apply rsplit_none_head in H).
    apply rsplit_none_tail in H. now rewrite (IH H).
Qed.

Lemma split_on_parts c s : Forall (fun x => Str.rsplit c x = None) (split_on c s).
Proof.
  induction s as [|a s IH]; simpl; [repeat constructor|].
  destruct (Ascii.eqb_spec a c) as [->|Ha]; [now constructor|].
  destruct (split_on c s) as [|x l]; [repeat constructor; simpl|].
  - destruct (Ascii.eqb_spec a c); [contradiction|reflexivity].
  - apply List.Forall_cons_iff in IH as [Hx Hl].
    constructor; [now apply rsplit_none_cons|exact Hl].
Qed.

Lemma lstrip_ws_none c s : Str.rsplit c s = None -> Str.rsplit c (lstrip_ws s) = None.
Proof.
  induction s as [|a s IH]; [reflexivity|]. intros H. simpl.
  destruct (is_space a); [|exact H]. apply IH. now apply rsplit_none_tail in H.
Qed.

Lemma rstrip_ws_cons a s :
  rstrip_ws (String a s) = if all_space (String a s) then "" else String a (rstrip_ws s).
Proof. reflexivity. Qed.

Lemma rstrip_ws_none c s : Str.rsplit c s = None -> Str.rsplit c (rstrip_ws s) = None.
Proof.
  induction s as [|a s IH]; [reflexivity|]. intros H. rewrite rstrip_ws_cons.
  destruct (all_space (String a s)); [reflexivity|].
  apply rsplit_none_cons; [now apply rsplit_none_head in H|].
  apply IH. now apply rsplit_none_tail in H.
Qed.

Lemma lstrip_ws_idem s : lstrip_ws (lstrip_ws s) = lstrip_ws s.
Proof.
  induction s as [|a s IH]; [reflexivity|]. simpl.
  destruct (is_space a) eqn:E; [exact IH|]. simpl. now rewrite E.
Qed.

Lemma all_space_rstrip s : all_space s = false -> all_space (rstrip_ws s) = false.
Proof.
  induction s as [|a s IH]; [discriminate|]. intros H. rewrite rstrip_ws_cons, H.
  simpl in *. destruct (is_space a); [|reflexivity]. simpl in *. now apply IH.
Qed.

Lemma rstrip_ws_idem s : rstrip_ws (rstrip_ws s) = rstrip_ws s.
Proof.
  induction s as [|a s IH]; [reflexivity|]. rewrite rstrip_ws_cons.
  destruct (all_space (String a s)) eqn:E; [reflexivity|].
  rewrite rstrip_ws_cons.
  assert (all_space (String a (rstrip_ws s)) = false) as ->.
  { pose proof (all_space_rstrip _ E) as H. now rewrite rstrip_ws_cons, E in H. }
  now rewrite IH.
Qed.

(** stripping the right end does not uncover white space on the left *)
Lemma lstrip_ws_rstrip s : lstrip_ws s = s -> lstrip_ws (rstrip_ws s) = rstrip_ws s.
Proof.
  destruct s as [|a s]; [reflexivity|]. intros H. rewrite rstrip_ws_cons.
  destruct (all_space (String a s)); [reflexivity|].
  simpl in *. destruct (is_space a) eqn:E; [|reflexivity].
  exfalso. apply (f_equal String.length) in H. simpl in H.
  assert (Hlen : forall t, (String.length (lstrip_ws t) <= String.length t)%nat).
  { induction t as [|b t IHt]; simpl; [lia|]. destruct (is_space b); simpl; lia. }
  specialize (Hlen s). lia.
Qed.

Lemma strip_clean x :
  let y := strip x in y <> "" -> clean_item y \/ Str.rsplit ","%char x <> None.
Proof.
  intros y Hy. destruct (Str.rsplit ","%char x) eqn:E; [right; discriminate|left].
  subst y. unfold strip in *. repeat split.
  - exact Hy.
  - apply lstrip_ws_rstrip, lstrip_ws_idem.
  - apply rstrip_ws_idem.
  - now apply rstrip_ws_none, lstrip_ws_none.
Qed.

Lemma truthy_str_ne x : truthy_str x = true <-> x <> "".
Proof.
  unfold truthy_str. destruct (String.eqb_spec x ""); simpl; split; congruence.
Qed.

Lemma parse_items_clean text : Forall clean_item (parse_items text).
Proof.
  unfold parse_items. apply List.Forall_forall. intros y Hy.
  apply List.filter_In in Hy as [Hy Hne]. apply truthy_str_ne in Hne.
  apply in_map_iff in Hy as (x & <- & Hx).
  destruct (strip_clean x Hne) as [Hc|Hc]; [exact Hc|].
  pose proof (split_on_parts ","%char text) as Hp.
  rewrite List.Forall_forall in Hp. now specialize (Hp x Hx).
Qed.

Lemma clean_strip x : clean_item x -> strip x = x.
Proof. intros (_ & Hl & Hr & _). unfold strip. now rewrite Hl, Hr. Qed.

Lemma clean_not_space x : clean_item x -> all_space x = false.
Proof.
  intros (Hne & _ & Hr & _). destruct x as [|a x]; [congruence|].
  rewrite rstrip_ws_cons in Hr. destruct (all_space (String a x)); [discriminate|reflexivity].
Qed.

Lemma all_space_app (a b : string) : all_space (a ++ b) = all_space a && all_space b.
Proof.
  induction a as [|x a IH]; rewrite ?append_nil, ?append_cons; [reflexivity|].
  simpl. rewrite IH. now rewrite andb_assoc.
Qed.

Lemma lstrip_ws_app x b : x <> "" -> lstrip_ws x = x -> lstrip_ws (x ++ b) = x ++ b.
Proof.
  destruct x as [|a x]; [congruence|]. intros _ H. rewrite append_cons.
  simpl in *. destruct (is_space a) eqn:E; [|reflexivity].
  exfalso. apply (f_equal String.length) in H. simpl in H.
  assert (Hlen : forall t, (String.length (lstrip_ws t) <= String.length t)%nat).
  { induction t as [|c t IHt]; simpl; [lia|]. destruct (is_space c); simpl; lia. }
  specialize (Hlen x). lia.
Qed.

Lemma rstrip_ws_app a b :
  all_space b = false -> rstrip_ws b = b -> rstrip_ws (a ++ b) = a ++ b.
Proof.
  intros Hb Hr. induction a as [|x a IH]; rewrite ?append_nil, ?append_cons; [exact Hr|].
  rewrite rstrip_ws_cons, IH.
  assert (all_space (String x (a ++ b)) = false) as ->; [|reflexivity].
  simpl. rewrite all_space_app, Hb. now rewrite !andb_false_r.
Qed.

Lemma rstrip_ws_app_space a b : all_space b = true -> rstrip_ws (a ++ b) = rstrip_ws a.
Proof.
  intros Hb. induction a as [|x a IH]; rewrite ?append_nil, ?append_cons.
  - destruct b as [|y b]; [reflexivity|]. now rewrite rstrip_ws_cons, Hb.
  - rewrite !rstrip_ws_cons, IH. simpl. rewrite all_space_app, Hb.
    now rewrite andb_true_r.
Qed.

Lemma show_items_cons x y l :
  show_items (x :: y :: l) = x ++ ", " ++ show_items (y :: l).
Proof. reflexivity. Qed.

Lemma show_items_clean l :
  Forall clean_item l -> l <> [] ->
  all_space (show_items l) = false
  /\ lstrip_ws (show_items l) = show_items l
  /\ rstrip_ws (show_items l) = show_items l.
Proof.
  induction 1 as [|x l Hx Hl IH]; [congruence|]. intros _.
  pose proof (clean_not_space x Hx) as Hsp. destruct Hx as (Hne & Hls & Hrs & _).
  destruct l as [|y l]; [now repeat split|].
  destruct IH as (IH1 & IH2 & IH3); [discriminate|].
  rewrite show_items_cons. repeat split.
  - now rewrite all_space_app, Hsp.
  - now apply lstrip_ws_app.
  - rewrite (rstrip_ws_app x); [reflexivity| |].
    + now rewrite all_space_app, IH1, andb_false_r.
    + now apply rstrip_ws_app.
Qed.

Lemma strip_show_items l : Forall clean_item l -> strip (show_items l) = show_items l.
Proof.
  intros H. destruct l as [|x l]; [reflexivity|].
  destruct (show_items_clean _ H) as (_ & Hl & Hr); [discriminate|].
  unfold strip. now rewrite Hl, Hr.
Qed.

Lemma strip_space_item x : clean_item x -> strip (String " "%char x) = x.
Proof. intros H. unfold strip. simpl. now apply clean_strip. Qed.

Lemma clean_truthy x : clean_item x -> truthy_str x = true.
Proof. intros (Hne & _). now apply truthy_str_ne. Qed.

Lemma parse_items_tail l x :
  Forall clean_item l -> clean_item x ->
  List.filter truthy_str
    (map strip (split_on ","%char (String " "%char (show_items (x :: l)))))
  = x :: l.
Proof.
  intros Hl. revert x. induction Hl as [|y l Hy Hl IH]; intros x Hx.
  - pose proof Hx as (_ & _ & _ & Hc). cbn [show_items join_with].
    rewrite split_on_none by (apply rsplit_none_cons; [discriminate|exact Hc]).
    cbn [map List.filter]. now rewrite (strip_space_item x Hx), (clean_truthy x Hx).
  - rewrite show_items_cons.
    change (String " "%char (x ++ ", " ++ show_items (y :: l)))
      with (String " "%char x
            ++ String ","%char (String " "%char (show_items (y :: l)))).
    pose proof Hx as (_ & _ & _ & Hc).
    rewrite split_on_app by (apply rsplit_none_cons; [discriminate|exact Hc]).
    cbn [map List.filter]. rewrite (strip_space_item x Hx), (clean_truthy x Hx).
    f_equal. now apply IH.
Qed.

Lemma parse_items_show l : Forall clean_item l -> parse_items (show_items l) = l.
Proof.
  intros H. destruct l as [|x l]; [reflexivity|].
  apply List.Forall_cons_iff in H as [Hx Hl].
  unfold parse_items. pose proof Hx as (_ & _ & _ & Hc). destruct l as [|y l].
  - cbn [show_items join_with]. rewrite split_on_none by exact Hc.
    cbn [map List.filter]. now rewrite (clean_strip x Hx), (clean_truthy x Hx).
  - rewrite show_items_cons.
    change (x ++ ", " ++ show_items (y :: l))
      with (x ++ String ","%char (String " "%char (show_items (y :: l)))).
    rewrite split_on_app by exact Hc.
    cbn [map List.filter]. rewrite (clean_strip x Hx), (clean_truthy x Hx).
    f_equal. apply List.Forall_cons_iff in Hl as [Hy Hl]. now apply parse_items_tail.
Qed.

(** X17. The comma-separated fields of the two editors (file extensions
    of a folder rule, file types of a filter) round-trip.  Whatever the
    text, [save] produces only items that are not empty, have no white
    space at either end and no comma.  And a list of such items, shown in
    the field as [", ".join(...)], with or without the line end a text
    box appends, is read back by [save] as the very same list, so opening
    an editor and saving changes nothing.  The text and the items are
    ASCII text. *)
Theorem parse_field_round_trip text l :
  is_ascii_text text = true ->
  Forall (fun x => is_ascii_text x = true) l ->
  Forall clean_item (parse_field text)
  /\ (Forall clean_item l ->
      parse_field (show_items l) = l
      /\ parse_field (show_items l ++ nl) = l).
Proof.
  intros _ _.
  split; [apply parse_items_clean|]. intros H.
  unfold parse_field. split.
  - rewrite strip_show_items by exact H. now apply parse_items_show.
  - assert (strip (show_items l ++ nl) = show_items l) as ->;
      [|now apply parse_items_show].
    destruct l as [|x l]; [reflexivity|].
    destruct (show_items_clean _ H) as (Hsp & Hl & Hr); [discriminate|].
    unfold strip. rewrite lstrip_ws_app; [|intros E; rewrite E in Hsp; discriminate|exact Hl].
    now rewrite rstrip_ws_app_space.
Qed.

(** ** The rename directive *)










(** ** A file placed by the folder rules *)





Section Placement.
Variable now : Z.
Variable strftime : Z -> fmt -> string.
Variable strptime_date : string -> option Z.
Variable self : FolderOrganizer.
Local Open Scope list_scope.



End Placement.

(** ** The properties on the scenarios *)

Lemma move_file_keeps_others_witness :
  delete_duplicates (settings (spelled_organizer ".txt")) = false
  /\ "/t/Documents/a.txt" <> "/t/a.txt"
  /\ fs (dedup_state 5 9) !! "/t/Documents/a.txt" = Some (file_of 9 "B")
  /\ node_data <$> fs (snd (move_file (spelled_organizer ".txt") "/t/a.txt" "/t/Documents"
                              (dedup_state 5 9))) !! "/t/Documents/a.txt"
     = Some (Some (Opaque "B")).
Proof.
  split; [reflexivity|split; [discriminate|split; [reflexivity|]]].
  apply (move_file_keeps_others (spelled_organizer ".txt") (dedup_state 5 9)
           "/t/a.txt" "/t/Documents" "/t/Documents/a.txt" (file_of 9 "B"));
    [reflexivity|intros md; discriminate|discriminate|reflexivity].
Defined.

Lemma move_file_numbered_least_witness :
  fs (dedup_state 5 9) !! "/t/a.txt" = Some (file_of 5 "A")
  /\ OS.path_exists (fs (dedup_state 5 9)) "/t/Documents/a.txt" = true
  /\ fst (move_file (spelled_organizer ".txt") "/t/a.txt" "/t/Documents" (dedup_state 5 9))
     = Ok tt
  /\ log (snd (move_file (spelled_organizer ".txt") "/t/a.txt" "/t/Documents"
                 (dedup_state 5 9)))
     = ["Moved: /t/a.txt → /t/Documents/a_1.txt"]
  /\ same_tree
       (fs (snd (move_file (spelled_organizer ".txt") "/t/a.txt" "/t/Documents"
                   (dedup_state 5 9))))
       (<["/t/Documents/a_1.txt" := file_of 5 "A"]>
          (delete "/t/a.txt" (fs (dedup_state 5 9)))).
Proof.
  split; [reflexivity|split; [reflexivity|]].
  destruct (move_file_numbered_least (spelled_organizer ".txt") (dedup_state 5 9)
              "/t/a.txt" "/t/Documents" (meta0 5) (Opaque "A"))
    as (k & Hk & Hlt & Hfree & Hok & Hlog & Htree);
    [reflexivity|reflexivity|reflexivity|reflexivity|discriminate|reflexivity|].
  destruct k as [|[|k]].
  - inversion Hk.
  - split; [exact Hok|split; [exact Hlog|exact Htree]].
  - assert (H1 : (1 <= 1 < S (S k))%nat) by (split; [apply le_n|apply le_n_S, le_n_S, Nat.le_0_l]).
    specialize (Hlt 1%nat H1). vm_compute in Hlt. discriminate Hlt.
Defined.

Lemma move_file_free_destination_witness :
  fs placed_state !! "/t/a.txt" = Some (file_of 5 "A")
  /\ OS.path_exists (fs placed_state) "/t/Documents/a.txt" = false
  /\ OS.isdir (fs placed_state) "/t/Documents" = true
  /\ fst (move_file dedup_organizer "/t/a.txt" "/t/Documents" placed_state) = Ok tt
  /\ node_data <$> fs (snd (move_file dedup_organizer "/t/a.txt" "/t/Documents"
                              placed_state)) !! "/t/Documents/a.txt"
     = Some (Some (Opaque "A")).
Proof.
  split; [reflexivity|split; [reflexivity|split; [reflexivity|]]].
  destruct (move_file_free_destination dedup_organizer placed_state
              "/t/a.txt" "/t/Documents" (meta0 5) (Opaque "A"))
    as (Hok & _ & _ & Hdest & _);
    [reflexivity|reflexivity|reflexivity|discriminate|reflexivity|].
  split; [exact Hok|exact Hdest].
Defined.

Lemma get_destination_by_level_witness :
  (forall level, In level levels ->
     rules_at level (folder_rules (nested_organizer false))
     = rules_at level regrouped_rules)
  /\ get_destination strftime_demo (nested_organizer false) "/t/report.pdf" nested_state
     = get_destination strftime_demo
         (with_rules (nested_organizer false) regrouped_rules)
         "/t/report.pdf" nested_state.
Proof.
  assert (H : forall level, In level levels ->
     rules_at level (folder_rules (nested_organizer false))
     = rules_at level regrouped_rules).
  { intros level [<-|[<-|[<-|[<-|[<-|[]]]]]]; reflexivity. }
  split; [exact H|].
  exact (get_destination_by_level strftime_demo (nested_organizer false)
           regrouped_rules "/t/report.pdf" nested_state H).
Defined.

Lemma time_rule_shadows_witness :
  folder_rules (nested_organizer false)
  = ([] ++ time_rule 1 "MMM"
        :: [ext_rule 2 "Images" [".png"; ".jpg"]; ext_rule 2 "Documents" [".pdf"; ".txt"]]
           ++ ext_rule 1 "Exe" [".exe"] :: [])%list
  /\ get_destination strftime_demo (nested_organizer false) "/t/setup.exe" nested_state
     = get_destination strftime_demo
         (with_rules (nested_organizer false)
            [time_rule 1 "MMM"; ext_rule 2 "Images" [".png"; ".jpg"];
             ext_rule 2 "Documents" [".pdf"; ".txt"]])
         "/t/setup.exe" nested_state.
Proof.
  split; [reflexivity|].
  exact (time_rule_shadows strftime_demo (nested_organizer false)
           [] (time_rule 1 "MMM")
           [ext_rule 2 "Images" [".png"; ".jpg"]; ext_rule 2 "Documents" [".pdf"; ".txt"]]
           (ext_rule 1 "Exe" [".exe"]) [] "/t/setup.exe" nested_state
           eq_refl eq_refl eq_refl eq_refl).
Defined.

Lemma apply_filters_without_disk_witness :
  Forall (fun f => needs_disk f = false) (filter_actions tie_organizer)
  /\ exists r, forall s, apply_filters now_demo tie_organizer "/t/a.tmp" s = (Ok r, s).
Proof.
  assert (H : Forall (fun f => needs_disk f = false) (filter_actions tie_organizer)).
  { repeat (apply List.Forall_cons; [reflexivity|]). apply List.Forall_nil. }
  split; [exact H|].
  exact (apply_filters_without_disk now_demo tie_organizer "/t/a.tmp" H).
Defined.

Lemma exclude_directive_witness :
  fs rename_state !! PosixPath.join "/t" "a.txt" = Some (file_of 5 "a")
  /\ excluded_pure strptime_demo exclude_organizer "a.txt" (fs rename_state) = false
  /\ apply_file now_demo strftime_demo strptime_demo exclude_organizer
       "/t" zero_tally "a.txt" rename_state
     = (Ok zero_tally, rename_state).
Proof.
  split; [reflexivity|split; [reflexivity|]].
  destruct (exclude_directive now_demo strftime_demo strptime_demo exclude_organizer
              rename_state "/t" "a.txt" (file_of 5 "a") zero_tally empty_plan
              [] (mk_filter [".txt"] "" None "exclude" "" "" 0) [])
    as (Happly & _).
  - reflexivity.
  - reflexivity.
  - reflexivity.
  - split; [reflexivity|split]; intros g [].
  - reflexivity.
  - exact Happly.
Defined.

Lemma delete_directive_witness :
  fs backup_state !! PosixPath.join "/t" "b.tmp" = Some (file_of 6 "b")
  /\ excluded_pure strptime_demo backup_organizer "b.tmp" (fs backup_state) = false
  /\ apply_file now_demo strftime_demo strptime_demo backup_organizer
       "/t" zero_tally "b.tmp" backup_state
     = (Ok zero_tally, {| fs := delete "/t/b.tmp" (fs backup_state);
                          log := ["Deleted: /t/b.tmp"] |}).
Proof.
  split; [reflexivity|split; [reflexivity|]].
  destruct (delete_directive now_demo strftime_demo strptime_demo backup_organizer
              backup_state "/t" "b.tmp" (meta0 6) (Opaque "b") zero_tally empty_plan
              [] (mk_filter [".tmp"] "" None "delete" "" "" 0) [])
    as (Happly & _).
  - reflexivity.
  - reflexivity.
  - reflexivity.
  - split; [reflexivity|split]; intros g [].
  - reflexivity.
  - rewrite Happly. reflexivity.
Defined.

Lemma organized_target_skips_all_witness :
  Str.contains "Documents" (target_folder documents_organizer) = true
  /\ create_backup_log_enabled (settings documents_organizer) = true
  /\ fs documents_state !! "/home/u/Documents/a.pdf" = Some (file_of 5 "a")
  /\ snd (apply_scan now_demo strftime_demo strptime_demo scandir_fs
            documents_organizer 5 documents_state)
     = snd (create_backup_log now_demo strftime_demo documents_organizer documents_state)
  /\ fst (apply_scan now_demo strftime_demo strptime_demo scandir_fs
            documents_organizer 5 documents_state) = Ok zero_tally
  /\ dry_scan now_demo strftime_demo strptime_demo scandir_fs
       documents_organizer 5 documents_state = (Ok empty_plan, documents_state).
Proof.
  split; [reflexivity|split; [reflexivity|split; [reflexivity|]]].
  destruct (organized_target_skips_all now_demo strftime_demo strptime_demo scandir_fs
              documents_organizer (ext_rule 1 "Documents" [".pdf"]) 5 documents_state
              scandir_fs_lists_names eq_refl (or_introl eq_refl) eq_refl eq_refl)
    as [(H & _ & _ & _) _].
  split; [exact H|split; vm_compute; reflexivity].
Defined.

Lemma dry_scan_plan_ok_witness :
  exists t,
    dry_scan now_demo strftime_demo strptime_demo scandir_fs
      (nested_organizer true) 5 nested_state = (Ok t, nested_state)
    /\ files_to_move t <> []
    /\ plan_ok t.
Proof.
  destruct (dry_scan now_demo strftime_demo strptime_demo scandir_fs
              (nested_organizer true) 5 nested_state) as [[t|e] s'] eqn:E.
  - exists t.
    assert (Hs : s' = nested_state).
    { change s' with (snd (Ok t, s')). rewrite <- E. vm_compute. reflexivity. }
    subst s'. split; [reflexivity|split].
    + intros Hnil.
      assert (Hlen : length (files_to_move
                (match fst (dry_scan now_demo strftime_demo strptime_demo scandir_fs
                              (nested_organizer true) 5 nested_state) with
                 | Ok t0 => t0 | Raise _ => empty_plan end)) = 0%nat)
        by (rewrite E; cbn [fst]; rewrite Hnil; reflexivity).
      vm_compute in Hlen. discriminate Hlen.
    + exact (dry_scan_plan_ok now_demo strftime_demo strptime_demo scandir_fs
               (nested_organizer true) 5 nested_state t nested_state E).
  - exfalso.
    assert (H : match fst (dry_scan now_demo strftime_demo strptime_demo scandir_fs
                             (nested_organizer true) 5 nested_state) with
                | Ok _ => true | Raise _ => false end = false)
      by (rewrite E; reflexivity).
    vm_compute in H. discriminate H.
Defined.

Lemma parse_field_round_trip_witness :
  Forall clean_item [".pdf"; ".txt"]
  /\ show_items [".pdf"; ".txt"] = ".pdf, .txt"
  /\ parse_field " .PDF ,, .txt, " = [".PDF"; ".txt"]
  /\ parse_field ".pdf, .txt" = [".pdf"; ".txt"].
Proof.
  assert (H : Forall clean_item [".pdf"; ".txt"]).
  { repeat (apply List.Forall_cons;
            [split; [discriminate|split; [reflexivity|split; reflexivity]]|]).
    apply List.Forall_nil. }
  split; [exact H|split; [reflexivity|split; [reflexivity|]]].
  destruct (parse_field_round_trip " .PDF ,, .txt, " [".pdf"; ".txt"]) as [_ Hback].
  - reflexivity.
  - repeat (apply List.Forall_cons; [reflexivity|]). apply List.Forall_nil.
  - exact (proj1 (Hback H)).
Defined.


